(** * aws-vpce-operator: locating, attaching and placing VPC endpoints

    A shallow embedding of
      - [pkg/aws_client/vpc_endpoint.go] (the client methods over the EC2 API),
      - [pkg/aws_client/client.go] (the [VpcEndpointEC2API] interface),
      - [controllers/vpcendpoint/helpers.go] (the reconciler's helpers),
    and the properties of the specification that concern them.

    Conventions.
      - A Go function returning [(T, error)] is a computation whose outcome is
        [Ok t], [Err e] or [Panic] (a nil dereference or an index out of
        range).  A pointer result that may be nil is an [option].
      - The cloud is a state [W]; the EC2 interface is a type class over [W].
        Every client call is recorded in a log, in the order it is issued.
      - [map[string]int] is a [gmap string Z]; Go's [int] is 64 bits wide and
        its wrap-around is written out in [wrap]. *)

From stdpp Require Import gmap strings list fin_maps pretty.
From Stdlib Require Import ZArith Lia.

Open Scope Z_scope.

(** ** Errors and outcomes *)

(** [APIError] is a [smithy.APIError] (what [errors.As] recognises and whose
    [ErrorCode()] is read); [errorString] is any other error value, built by
    [errors.New] or [fmt.Errorf]. *)
Inductive error : Type :=
| APIError (code message : string)
| errorString (s : string).

Definition Error (e : error) : string :=
  match e with
  | APIError code message => "api error " +:+ code +:+ ": " +:+ message
  | errorString s => s
  end.

Inductive outcome (A : Type) : Type :=
| Ok (a : A)
| Err (e : error)
| Panic.
Arguments Ok {A} a.
Arguments Err {A} e.
Arguments Panic {A}.

(** ** The SDK's data, as far as the code reads or writes it *)

Module ec2.

Record Tag := { Key : string; Value : string }.

Record Filter := { Name : string; Values : list string }.

Record DnsEntry := { DnsName : option string }.

Record SecurityGroupIdentifier := { GroupId : string }.

(** [VpcEndpointId], [VpcId] and [State] are pointers that the code
    dereferences, hence options; the identifiers in [SubnetIds] and
    [Groups] are only handed on. *)
Record VpcEndpoint := {
  VpcEndpointId : option string;
  VpcId : option string;
  State : option string;
  SubnetIds : list string;
  Groups : list SecurityGroupIdentifier;
  DnsEntries : list DnsEntry;
  Tags : list Tag
}.

Record Subnet := { SubnetId : string }.

Record DescribeVpcEndpointsInput := {
  VpcEndpointIds : list string;
  Filters : list Filter
}.

Record DescribeVpcEndpointsOutput := { VpcEndpoints : list VpcEndpoint }.

Record DescribeSubnetsOutput := { Subnets : list Subnet }.

Record TagSpecification := { ResourceType : string; TagSpecTags : list Tag }.

Module CreateVpcEndpointInput.
Record t := {
  VpcId : string;
  ServiceName : string;
  VpcEndpointType : string;
  TagSpecifications : list TagSpecification
}.
End CreateVpcEndpointInput.

Record CreateVpcEndpointOutput := { VpcEndpoint_ : option VpcEndpoint }.

Module ModifyVpcEndpointInput.
Record t := {
  AddSubnetIds : list string;
  RemoveSubnetIds : list string;
  AddSecurityGroupIds : list string;
  RemoveSecurityGroupIds : list string;
  VpcEndpointId : option string
}.
End ModifyVpcEndpointInput.

End ec2.

Module route53.
Record ResourceRecord := { Value : option string }.
End route53.

(** ** Placement: [SelectVPCForVPCEndpoint] *)

Module placement.

Definition MaxInt : Z := 2 ^ 63 - 1.

(** Go's [int] arithmetic: the result modulo [2^64], read as signed. *)
Definition wrap (z : Z) : Z := (z + 2 ^ 63) mod 2 ^ 64 - 2 ^ 63.

(** [vpcePerVpc[k]++]: a missing key reads as the zero value. *)
Definition increment (k : string) (m : gmap string Z) : gmap string Z :=
  <[k := wrap (default 0 (m !! k) + 1)]> m.

(** [for _, vpce := range resp.VpcEndpoints { vpcePerVpc[*vpce.VpcId]++ }] *)
Fixpoint countEndpoints (vpces : list ec2.VpcEndpoint) (m : gmap string Z)
  : outcome (gmap string Z) :=
  match vpces with
  | [] => Ok m
  | vpce :: rest =>
      match ec2.VpcId vpce with
      | None => Panic
      | Some id => countEndpoints rest (increment id m)
      end
  end.

(** The paginator loop.  [pages] is what the successive calls of
    [paginator.NextPage] return, until [HasMorePages] is false. *)
Fixpoint countPages (pages : list (error + ec2.DescribeVpcEndpointsOutput))
    (m : gmap string Z) : outcome (gmap string Z) :=
  match pages with
  | [] => Ok m
  | inl err :: _ => Err err
  | inr resp :: rest =>
      match countEndpoints (ec2.VpcEndpoints resp) m with
      | Ok m' => countPages rest m'
      | Err e => Err e
      | Panic => Panic
      end
  end.

(** The body of [for vpcId, vpceCount := range vpcePerVpc]. *)
Definition pickMin (acc : string * Z) (kv : string * Z) : string * Z :=
  if decide (kv.2 < acc.2) then (kv.1, kv.2) else acc.

(** Go leaves the order in which [range] visits a map unspecified.  The
    order is a parameter [rangeMap]: any function that lists the entries of
    a map, each once ([validRange]).  The request behind the paginator
    filters on [vpc-id] with the candidates as values; its answers are the
    [pages]. *)
Definition validRange (rangeMap : gmap string Z → list (string * Z)) : Prop :=
  ∀ m, rangeMap m ≡ₚ map_to_list m.

Definition SelectVPCForVPCEndpoint
    (rangeMap : gmap string Z → list (string * Z))
    (pages : list (error + ec2.DescribeVpcEndpointsOutput))
    (ids : list string) : outcome string :=
  if decide (length ids = 0%nat) then
    Err (errorString "must specify vpc id when counting VPC Endpoints per VPC")
  else
    let vpcePerVpc := foldl (λ m id, <[id := 0]> m) (∅ : gmap string Z) ids in
    match countPages pages vpcePerVpc with
    | Err e => Err e
    | Panic => Panic
    | Ok vpcePerVpc =>
        let '(minVpcId, _) := foldl pickMin ("", MaxInt) (rangeMap vpcePerVpc) in
        if decide (minVpcId = "") then
          Err (errorString "unexpectedly did not select a VPC for the VPC Endpoint")
        else Ok minVpcId
    end.

(** The number of endpoints the pages list for a VPC. *)
Definition vpcIds (pages : list (error + ec2.DescribeVpcEndpointsOutput))
  : list (option string) :=
  concat (map (λ p, match p with
                    | inl _ => []
                    | inr resp => map ec2.VpcId (ec2.VpcEndpoints resp)
                    end) pages).

Definition endpointsIn (pages : list (error + ec2.DescribeVpcEndpointsOutput))
    (id : string) : Z :=
  Z.of_nat (length (filter (λ o, o = Some id) (vpcIds pages))).

(** An endpoint that only carries its VPC, and a page of such endpoints. *)
Definition endpointIn (vpc : string) : ec2.VpcEndpoint :=
  {| ec2.VpcEndpointId := None; ec2.VpcId := Some vpc; ec2.State := None;
     ec2.SubnetIds := []; ec2.Groups := []; ec2.DnsEntries := [];
     ec2.Tags := [] |}.

Definition pageOf (vpcs : list string)
  : error + ec2.DescribeVpcEndpointsOutput :=
  inr {| ec2.VpcEndpoints := map endpointIn vpcs |}.

(** A visiting order that starts with the entry of [k], when there is one. *)
Definition rangeFrom (k : string) (m : gmap string Z) : list (string * Z) :=
  filter (λ kv, kv.1 = k) (map_to_list m)
  ++ filter (λ kv, ¬ kv.1 = k) (map_to_list m).

(** The number of times [k] occurs in [xs]. *)
Definition occurrences (k : string) (xs : list string) : Z :=
  Z.of_nat (length (filter (λ x, x = k) xs)).

(** Counting the endpoints of the VPCs [xs], one after the other. *)
Definition countAll (xs : list string) (m : gmap string Z) : gmap string Z :=
  foldl (λ m x, increment x m) m xs.

(** Pages without an error whose endpoints all name their VPC. *)
Definition pagesList (pages : list (error + ec2.DescribeVpcEndpointsOutput))
    (xs : list string) : Prop :=
  Forall (λ p, ∃ resp, p = inr resp) pages ∧ vpcIds pages = map Some xs.

(** The tie-break as the specification words it: the first candidate, in
    the order of the candidate list, among those with the fewest
    endpoints. *)
Fixpoint firstMinimum (count : string → Z) (ids : list string) : option string :=
  match ids with
  | [] => None
  | id :: rest =>
      match firstMinimum count rest with
      | None => Some id
      | Some best => if decide (count id ≤ count best) then Some id else Some best
      end
  end.

(** The pages of the specification's example: three endpoints in [v1], one
    in [v2], one in [v3]. *)
Definition examplePages : list (error + ec2.DescribeVpcEndpointsOutput) :=
  [pageOf ["v1"; "v2"; "v1"]; pageOf ["v3"; "v1"]].

End placement.


(** ** The EC2 interface and the client computations *)

(** The calls the reconciler issues through its client, as the log records
    them.  [CallDescribePrivateSubnets] is the client method of that name. *)
Inductive Call : Type :=
| CallDescribeVpcEndpoints (input : ec2.DescribeVpcEndpointsInput)
| CallCreateVpcEndpoint (input : ec2.CreateVpcEndpointInput.t)
| CallModifyVpcEndpoint (input : ec2.ModifyVpcEndpointInput.t)
| CallDescribePrivateSubnets (clusterTag : string).

(** A mutating call changes the cloud; a describe call only reads it. *)
Definition isMutating (c : Call) : bool :=
  match c with
  | CallCreateVpcEndpoint _ | CallModifyVpcEndpoint _ => true
  | CallDescribeVpcEndpoints _ | CallDescribePrivateSubnets _ => false
  end.

Definition isCreate (c : Call) : bool :=
  match c with CallCreateVpcEndpoint _ => true | _ => false end.

Definition isTagSearch (c : Call) : bool :=
  match c with
  | CallDescribeVpcEndpoints input =>
      bool_decide (ec2.Filters input ≠ [])
  | _ => false
  end.

(** The part of [VpcEndpointEC2API] (client.go) that the embedded code calls,
    over a cloud state [W].  A describe request reads the cloud; a create or
    modify request may change it. *)
Class VpcEndpointEC2API (W : Type) : Type := {
  EC2API_DescribeVpcEndpoints :
    ec2.DescribeVpcEndpointsInput → W → error + ec2.DescribeVpcEndpointsOutput;
  EC2API_CreateVpcEndpoint :
    ec2.CreateVpcEndpointInput.t → W → (error + ec2.CreateVpcEndpointOutput) * W;
  EC2API_ModifyVpcEndpoint :
    ec2.ModifyVpcEndpointInput.t → W → (error + ()) * W
}.

(** A computation runs from a cloud state and yields its outcome, the cloud
    state it leaves and the calls it issued, oldest first. *)
Definition M (W A : Type) : Type := W → outcome A * W * list Call.

Definition ret {W A} (a : A) : M W A := λ w, (Ok a, w, []).

Definition fail {W A} (e : error) : M W A := λ w, (Err e, w, []).

Definition panic {W A} : M W A := λ w, (Panic, w, []).

Definition bind {W A B} (m : M W A) (f : A → M W B) : M W B :=
  λ w,
    match m w with
    | (Ok a, w', l) => let '(r, w'', l') := f a w' in (r, w'', l ++ l')
    | (Err e, w', l) => (Err e, w', l)
    | (Panic, w', l) => (Panic, w', l)
    end.

#[global] Instance M_ret {W} : MRet (M W) := λ A, @ret W A.
#[global] Instance M_bind {W} : MBind (M W) := λ A B f m, bind m f.

Definition outcomeOf {W A} (r : outcome A * W * list Call) : outcome A := r.1.1.
Definition cloudOf {W A} (r : outcome A * W * list Call) : W := r.1.2.
Definition callsOf {W A} (r : outcome A * W * list Call) : list Call := r.2.

(** ** Helpers of [pkg/util], as far as they are known *)

Module util.

(** Modelled from the spec: [util.StringSliceTwoWayDiff], whose file is not
    among the sources.  The specification (Diff Engine) gives
    [toAdd = desired − current] and [toRemove = current − desired]; the
    slices are read as sets and each result keeps the order of the slice it
    is taken from. *)
Definition StringSliceTwoWayDiff (current desired : list string)
  : list string * list string :=
  (filter (λ x, x ∉ current) desired, filter (λ x, x ∉ desired) current).

End util.

(** The helpers of [pkg/util] that the embedded code calls and whose file is
    not among the sources are taken as given. *)
Class Util : Type := {
  GenerateVPCEndpointName : string → string → error + string;
  GenerateAwsTags : string → string → error + list ec2.Tag;
  OperatorTagKey : string;
  OperatorTagValue : string;
  StringSliceTwoWayDiff : list string → list string → list string * list string
}.

(** [DescribePrivateSubnets] is a method of the client whose file is not
    among the sources: it is taken as given, as a read of the cloud. *)
Class PrivateSubnetsAPI (W : Type) : Type :=
  DescribePrivateSubnets : string → W → error + ec2.DescribeSubnetsOutput.

(** ** The resource and the reconciler *)

Module avov1alpha1.
Record VpcEndpointSpec := { ServiceName : string; SubdomainName : string }.
Record VpcEndpointStatus := { VPCEndpointId : string; SecurityGroupId : string }.
Record VpcEndpoint := {
  Name : string;
  Spec : VpcEndpointSpec;
  Status : VpcEndpointStatus
}.
End avov1alpha1.

Record clusterInfo := {
  region : string;
  infraName : string;
  clusterTag : string;
  vpcId : string;
  domainName : string
}.

(** [r.clusterInfo] is a pointer, nil until [parseClusterInfo] has run. *)
Record VpcEndpointReconciler := { r_clusterInfo : option clusterInfo }.

(** What [%v] prints for [r.clusterInfo]. *)
Definition showClusterInfo (ci : option clusterInfo) : string :=
  match ci with
  | None => "<nil>"
  | Some ci =>
      "&{" +:+ region ci +:+ " " +:+ infraName ci +:+ " " +:+ clusterTag ci
      +:+ " " +:+ vpcId ci +:+ " " +:+ domainName ci +:+ "}"
  end.

Section Client.
Context {W : Type} `{!VpcEndpointEC2API W, !PrivateSubnetsAPI W, !Util}.

(** *** Calls, logged *)

Definition callDescribeVpcEndpoints (input : ec2.DescribeVpcEndpointsInput)
  : M W (error + ec2.DescribeVpcEndpointsOutput) :=
  λ w, (Ok (EC2API_DescribeVpcEndpoints input w), w,
        [CallDescribeVpcEndpoints input]).

Definition callCreateVpcEndpoint (input : ec2.CreateVpcEndpointInput.t)
  : M W (error + ec2.CreateVpcEndpointOutput) :=
  λ w, let '(r, w') := EC2API_CreateVpcEndpoint input w in
       (Ok r, w', [CallCreateVpcEndpoint input]).

Definition callModifyVpcEndpoint (input : ec2.ModifyVpcEndpointInput.t)
  : M W (error + ()) :=
  λ w, let '(r, w') := EC2API_ModifyVpcEndpoint input w in
       (Ok r, w', [CallModifyVpcEndpoint input]).

Definition callDescribePrivateSubnets (tag : string)
  : M W (error + ec2.DescribeSubnetsOutput) :=
  λ w, (Ok (DescribePrivateSubnets tag w), w, [CallDescribePrivateSubnets tag]).

(** *** pkg/aws_client/vpc_endpoint.go *)

Definition DescribeSingleVPCEndpointById (id : string)
  : M W (option ec2.DescribeVpcEndpointsOutput) :=
  if decide (id = "") then
    mret (Some {| ec2.VpcEndpoints := [] |})
  else
    let input := {| ec2.VpcEndpointIds := [id]; ec2.Filters := [] |} in
    r ← callDescribeVpcEndpoints input;
    match r with
    | inl err =>
        match err with
        | APIError code _ =>
            if decide (code = "InvalidVpcEndpointId.NotFound") then mret None
            else fail err
        | errorString _ => fail err
        end
    | inr resp =>
        if decide (length (ec2.VpcEndpoints resp) ≠ 1%nat) then
          fail (errorString ("expected 1 VPC endpoint, got "
                             +:+ pretty (length (ec2.VpcEndpoints resp))))
        else mret (Some resp)
    end.

Definition FilterVPCEndpointByDefaultTags (clusterTag vpceNameTag : string)
  : M W (option ec2.DescribeVpcEndpointsOutput) :=
  if decide (clusterTag = "") then
    mret (Some {| ec2.VpcEndpoints := [] |})
  else
    r ← callDescribeVpcEndpoints
          {| ec2.VpcEndpointIds := [];
             ec2.Filters :=
               [ {| ec2.Name := "tag:Name"; ec2.Values := [vpceNameTag] |};
                 {| ec2.Name := "tag-key"; ec2.Values := [clusterTag] |};
                 {| ec2.Name := "tag:" +:+ OperatorTagKey;
                    ec2.Values := [OperatorTagValue] |} ] |};
    match r with
    | inl err => fail err
    | inr resp => mret (Some resp)
    end.

Definition CreateDefaultInterfaceVPCEndpoint
    (name vpcId serviceName tagKey : string)
  : M W ec2.CreateVpcEndpointOutput :=
  match GenerateAwsTags name tagKey with
  | inl err => fail err
  | inr tags =>
      let input :=
        {| ec2.CreateVpcEndpointInput.VpcId := vpcId;
           ec2.CreateVpcEndpointInput.ServiceName := serviceName;
           ec2.CreateVpcEndpointInput.VpcEndpointType := "Interface";
           ec2.CreateVpcEndpointInput.TagSpecifications :=
             [ {| ec2.ResourceType := "vpc-endpoint";
                  ec2.TagSpecTags := tags |} ] |} in
      r ← callCreateVpcEndpoint input;
      match r with
      | inl err => fail err
      | inr resp => mret resp
      end
  end.

Definition ModifyVpcEndpoint (input : ec2.ModifyVpcEndpointInput.t) : M W () :=
  r ← callModifyVpcEndpoint input;
  match r with
  | inl err => fail err
  | inr out => mret out
  end.

End Client.

(** ** controllers/vpcendpoint/helpers.go *)

Section Helpers.
Context {W : Type} `{!VpcEndpointEC2API W, !PrivateSubnetsAPI W, !Util}.

(** [fmt.Errorf("...: %v", err)] around a call. *)
Definition wrapErr {A} (prefix : string) (m : M W A) : M W A :=
  λ w,
    match m w with
    | (Err e, w', l) => (Err (errorString (prefix +:+ Error e)), w', l)
    | other => other
    end.

(** Reading a field through a pointer that may be nil. *)
Definition deref {A} (p : option A) : M W A :=
  match p with
  | Some a => mret a
  | None => panic
  end.

(** [resp == nil || len(resp.VpcEndpoints) == 0] *)
Definition noEndpoints (resp : option ec2.DescribeVpcEndpointsOutput) : bool :=
  match resp with
  | None => true
  | Some resp => bool_decide (length (ec2.VpcEndpoints resp) = 0%nat)
  end.

(** [resp.VpcEndpoints[0]] *)
Definition firstEndpoint (resp : option ec2.DescribeVpcEndpointsOutput)
  : M W ec2.VpcEndpoint :=
  match resp with
  | Some resp =>
      match ec2.VpcEndpoints resp with
      | vpce :: _ => mret vpce
      | [] => panic
      end
  | None => panic
  end.

(** helpers.go calls [FilterVPCEndpointByDefaultTags] with the cluster tag
    alone, while vpc_endpoint.go declares it with the value of the [Name]
    tag as a second argument: that value, [vpceNameTag], is an argument of
    the locator here. *)
Definition findOrCreateVpcEndpoint (vpceNameTag : string)
    (r : VpcEndpointReconciler) (resource : avov1alpha1.VpcEndpoint)
  : M W ec2.VpcEndpoint :=
  resp ← DescribeSingleVPCEndpointById
           (avov1alpha1.VPCEndpointId (avov1alpha1.Status resource));
  if noEndpoints resp then
    ci ← deref (r_clusterInfo r);
    resp ← FilterVPCEndpointByDefaultTags (clusterTag ci) vpceNameTag;
    if noEndpoints resp then
      match GenerateVPCEndpointName (infraName ci) (avov1alpha1.Name resource) with
      | inl err => fail err
      | inr vpceName =>
          creationResp ←
            wrapErr "failed to create vpc endpoint: "
              (CreateDefaultInterfaceVPCEndpoint vpceName (vpcId ci)
                 (avov1alpha1.ServiceName (avov1alpha1.Spec resource))
                 (clusterTag ci));
          vpce ← deref (ec2.VpcEndpoint_ creationResp);
          _ ← deref (ec2.VpcEndpointId vpce);
          mret vpce
      end
    else firstEndpoint resp
  else firstEndpoint resp.

Definition diffVpcEndpointSubnets (r : VpcEndpointReconciler)
    (vpce : ec2.VpcEndpoint) : M W (list string * list string) :=
  match r_clusterInfo r with
  | None =>
      fail (errorString ("unable to parse cluster tag: "
                         +:+ showClusterInfo (r_clusterInfo r)))
  | Some ci =>
      if decide (clusterTag ci = "") then
        fail (errorString ("unable to parse cluster tag: "
                           +:+ showClusterInfo (r_clusterInfo r)))
      else
        res ← callDescribePrivateSubnets (clusterTag ci);
        match res with
        | inl err => fail err
        | inr subnetsResp =>
            let privateSubnetIds := map ec2.SubnetId (ec2.Subnets subnetsResp) in
            mret (StringSliceTwoWayDiff (ec2.SubnetIds vpce) privateSubnetIds)
        end
  end.

Definition ensureVpcEndpointSubnets (r : VpcEndpointReconciler)
    (vpce : ec2.VpcEndpoint) : M W () :=
  '(subnetsToAdd, subnetsToRemove) ← diffVpcEndpointSubnets r vpce;
  (if decide (0 < length subnetsToRemove)%nat then
     ModifyVpcEndpoint
       {| ec2.ModifyVpcEndpointInput.AddSubnetIds := [];
          ec2.ModifyVpcEndpointInput.RemoveSubnetIds := subnetsToRemove;
          ec2.ModifyVpcEndpointInput.AddSecurityGroupIds := [];
          ec2.ModifyVpcEndpointInput.RemoveSecurityGroupIds := [];
          ec2.ModifyVpcEndpointInput.VpcEndpointId := ec2.VpcEndpointId vpce |}
   else mret ());;
  if decide (0 < length subnetsToAdd)%nat then
    ModifyVpcEndpoint
      {| ec2.ModifyVpcEndpointInput.AddSubnetIds := subnetsToAdd;
         ec2.ModifyVpcEndpointInput.RemoveSubnetIds := [];
         ec2.ModifyVpcEndpointInput.AddSecurityGroupIds := [];
         ec2.ModifyVpcEndpointInput.RemoveSecurityGroupIds := [];
         ec2.ModifyVpcEndpointInput.VpcEndpointId := ec2.VpcEndpointId vpce |}
  else mret ().

Definition diffVpcEndpointSecurityGroups (vpce : ec2.VpcEndpoint)
    (resource : avov1alpha1.VpcEndpoint) : M W (list string * list string) :=
  let vpceSgIds := map ec2.GroupId (ec2.Groups vpce) in
  mret (StringSliceTwoWayDiff vpceSgIds
          [avov1alpha1.SecurityGroupId (avov1alpha1.Status resource)]).

Definition ensureVpcEndpointSecurityGroups (vpce : ec2.VpcEndpoint)
    (resource : avov1alpha1.VpcEndpoint) : M W () :=
  '(sgToAdd, sgToRemove) ← diffVpcEndpointSecurityGroups vpce resource;
  (if decide (0 < length sgToAdd)%nat then
     ModifyVpcEndpoint
       {| ec2.ModifyVpcEndpointInput.AddSubnetIds := [];
          ec2.ModifyVpcEndpointInput.RemoveSubnetIds := [];
          ec2.ModifyVpcEndpointInput.AddSecurityGroupIds := sgToAdd;
          ec2.ModifyVpcEndpointInput.RemoveSecurityGroupIds := [];
          ec2.ModifyVpcEndpointInput.VpcEndpointId := ec2.VpcEndpointId vpce |}
   else mret ());;
  if decide (0 < length sgToRemove)%nat then
    ModifyVpcEndpoint
      {| ec2.ModifyVpcEndpointInput.AddSubnetIds := [];
         ec2.ModifyVpcEndpointInput.RemoveSubnetIds := [];
         ec2.ModifyVpcEndpointInput.AddSecurityGroupIds := [];
         ec2.ModifyVpcEndpointInput.RemoveSecurityGroupIds := sgToRemove;
         ec2.ModifyVpcEndpointInput.VpcEndpointId := ec2.VpcEndpointId vpce |}
  else mret ().

(** The result is [(record, error)] with a record pointer that may be nil:
    [Ok None] is Go's [(nil, nil)]. *)
Definition generateRoute53Record (resource : avov1alpha1.VpcEndpoint)
  : M W (option route53.ResourceRecord) :=
  if decide (avov1alpha1.VPCEndpointId (avov1alpha1.Status resource) = "") then
    fail (errorString "VPCEndpointID status is missing")
  else
    vpceResp ← DescribeSingleVPCEndpointById
                 (avov1alpha1.VPCEndpointId (avov1alpha1.Status resource));
    if noEndpoints vpceResp then mret None
    else
      vpce ← firstEndpoint vpceResp;
      state ← deref (ec2.State vpce);
      if decide (state ≠ "available") then
        fail (errorString "VPCEndpoint is not in the available state")
      else if decide (length (ec2.DnsEntries vpce) = 0%nat) then
        fail (errorString "VPCEndpoint has no DNS entries")
      else
        match ec2.DnsEntries vpce with
        | entry :: _ => mret (Some {| route53.Value := ec2.DnsName entry |})
        | [] => panic
        end.

End Helpers.

(** ** The reconcile pass *)

Section Pass.
Context {W : Type} `{!VpcEndpointEC2API W, !PrivateSubnetsAPI W, !Util}.

(** A step whose error does not abort the pass. *)
Definition bestEffort {A} (m : M W (option A)) : M W (option A) :=
  λ w,
    match m w with
    | (Err _, w', l) => (Ok None, w', l)
    | other => other
    end.

Definition recordEndpointId (id : string) (resource : avov1alpha1.VpcEndpoint)
  : avov1alpha1.VpcEndpoint :=
  {| avov1alpha1.Name := avov1alpha1.Name resource;
     avov1alpha1.Spec := avov1alpha1.Spec resource;
     avov1alpha1.Status :=
       {| avov1alpha1.VPCEndpointId := id;
          avov1alpha1.SecurityGroupId :=
            avov1alpha1.SecurityGroupId (avov1alpha1.Status resource) |} |}.

(** Modelled from the spec: the reconcile pass of the Convergence
    Controller, whose file (the controller's [Reconcile]) is not among the
    sources.  The specification gives the pass as locate-or-create, then
    synchronize attachments (subnets, then security groups), then synthesize
    DNS (best-effort), and has the located endpoint's identifier recorded
    for the next pass.  The pass returns the resource with that identifier
    recorded. *)
Definition reconcilePass (vpceNameTag : string) (r : VpcEndpointReconciler)
    (resource : avov1alpha1.VpcEndpoint) : M W avov1alpha1.VpcEndpoint :=
  vpce ← findOrCreateVpcEndpoint vpceNameTag r resource;
  id ← deref (ec2.VpcEndpointId vpce);
  let resource := recordEndpointId id resource in
  ensureVpcEndpointSubnets r vpce;;
  ensureVpcEndpointSecurityGroups vpce resource;;
  bestEffort (generateRoute53Record resource);;
  mret resource.

End Pass.

(** ** The code, case by case

    The requests the code builds and what it makes of their answers, written
    as plain functions.  The lemmas of the second part prove that the
    computations above are equal to these forms. *)

Section Forms.
Context {W : Type} `{!VpcEndpointEC2API W, !PrivateSubnetsAPI W, !Util}.

(** The identifier recorded in the resource's status. *)
Definition recordedId (resource : avov1alpha1.VpcEndpoint) : string :=
  avov1alpha1.VPCEndpointId (avov1alpha1.Status resource).

(** The request the lookup by identifier issues. *)
Definition byId (id : string) : ec2.DescribeVpcEndpointsInput :=
  {| ec2.VpcEndpointIds := [id]; ec2.Filters := [] |}.

(** What [DescribeSingleVPCEndpointById] makes of the answer to its
    request. *)
Definition singleResult (res : error + ec2.DescribeVpcEndpointsOutput)
  : outcome (option ec2.DescribeVpcEndpointsOutput) :=
  match res with
  | inl (APIError code message) =>
      if decide (code = "InvalidVpcEndpointId.NotFound") then Ok None
      else Err (APIError code message)
  | inl (errorString s) => Err (errorString s)
  | inr resp =>
      if decide (length (ec2.VpcEndpoints resp) ≠ 1%nat) then
        Err (errorString ("expected 1 VPC endpoint, got "
                          +:+ pretty (length (ec2.VpcEndpoints resp))))
      else Ok (Some resp)
  end.

(** The request the tag search issues. *)
Definition byDefaultTags (clusterTag vpceNameTag : string)
  : ec2.DescribeVpcEndpointsInput :=
  {| ec2.VpcEndpointIds := [];
     ec2.Filters :=
       [ {| ec2.Name := "tag:Name"; ec2.Values := [vpceNameTag] |};
         {| ec2.Name := "tag-key"; ec2.Values := [clusterTag] |};
         {| ec2.Name := "tag:" +:+ OperatorTagKey;
            ec2.Values := [OperatorTagValue] |} ] |}.

(** What [generateRoute53Record] makes of the endpoint it has found. *)
Definition recordOf (vpce : ec2.VpcEndpoint) : outcome (option route53.ResourceRecord) :=
  match ec2.State vpce with
  | None => Panic
  | Some state =>
      if decide (state ≠ "available") then
        Err (errorString "VPCEndpoint is not in the available state")
      else
        match ec2.DnsEntries vpce with
        | [] => Err (errorString "VPCEndpoint has no DNS entries")
        | entry :: _ => Ok (Some {| route53.Value := ec2.DnsName entry |})
        end
  end.

(** [resp.VpcEndpoints[0]] *)
Definition firstOf (resp : option ec2.DescribeVpcEndpointsOutput)
  : outcome ec2.VpcEndpoint :=
  match resp with
  | Some resp =>
      match ec2.VpcEndpoints resp with
      | vpce :: _ => Ok vpce
      | [] => Panic
      end
  | None => Panic
  end.

(** The request the creation step issues. *)
Definition creationInput (ci : clusterInfo) (resource : avov1alpha1.VpcEndpoint)
    (tags : list ec2.Tag) : ec2.CreateVpcEndpointInput.t :=
  {| ec2.CreateVpcEndpointInput.VpcId := vpcId ci;
     ec2.CreateVpcEndpointInput.ServiceName :=
       avov1alpha1.ServiceName (avov1alpha1.Spec resource);
     ec2.CreateVpcEndpointInput.VpcEndpointType := "Interface";
     ec2.CreateVpcEndpointInput.TagSpecifications :=
       [ {| ec2.ResourceType := "vpc-endpoint"; ec2.TagSpecTags := tags |} ] |}.

(** What the locator makes of the answer to its creation request. *)
Definition createdOf (res : error + ec2.CreateVpcEndpointOutput)
  : outcome ec2.VpcEndpoint :=
  match res with
  | inl err => Err (errorString ("failed to create vpc endpoint: " +:+ Error err))
  | inr resp =>
      match ec2.VpcEndpoint_ resp with
      | None => Panic
      | Some vpce =>
          match ec2.VpcEndpointId vpce with
          | None => Panic
          | Some _ => Ok vpce
          end
      end
  end.

(** The locator, step by step. *)
Definition locate (nameTag : string) (r : VpcEndpointReconciler)
    (resource : avov1alpha1.VpcEndpoint) (w : W)
  : outcome ec2.VpcEndpoint * W * list Call :=
  let id := recordedId resource in
  let l1 := callsOf (DescribeSingleVPCEndpointById id w) in
  match outcomeOf (DescribeSingleVPCEndpointById id w) with
  | Err e => (Err e, w, l1)
  | Panic => (Panic, w, l1)
  | Ok byId =>
      if noEndpoints byId then
        match r_clusterInfo r with
        | None => (Panic, w, l1)
        | Some ci =>
            let l2 := callsOf (FilterVPCEndpointByDefaultTags (clusterTag ci) nameTag w) in
            match outcomeOf (FilterVPCEndpointByDefaultTags (clusterTag ci) nameTag w) with
            | Err e => (Err e, w, l1 ++ l2)
            | Panic => (Panic, w, l1 ++ l2)
            | Ok byTag =>
                if noEndpoints byTag then
                  match GenerateVPCEndpointName (infraName ci) (avov1alpha1.Name resource) with
                  | inl err => (Err err, w, l1 ++ l2)
                  | inr name =>
                      match GenerateAwsTags name (clusterTag ci) with
                      | inl err =>
                          (Err (errorString ("failed to create vpc endpoint: "
                                             +:+ Error err)), w, l1 ++ l2)
                      | inr tags =>
                          let input := creationInput ci resource tags in
                          (createdOf (EC2API_CreateVpcEndpoint input w).1,
                           (EC2API_CreateVpcEndpoint input w).2,
                           l1 ++ l2 ++ [CallCreateVpcEndpoint input])
                      end
                  end
                else (firstOf byTag, w, l1 ++ l2)
            end
        end
      else (firstOf byId, w, l1)
  end.

(** The creation requests of the locator. *)
Definition creations (nameTag : string) (r : VpcEndpointReconciler)
    (resource : avov1alpha1.VpcEndpoint) (w : W) : list Call :=
  match outcomeOf (DescribeSingleVPCEndpointById (recordedId resource) w),
        r_clusterInfo r with
  | Ok byId, Some ci =>
      match outcomeOf (FilterVPCEndpointByDefaultTags (clusterTag ci) nameTag w) with
      | Ok byTag =>
          if noEndpoints byId && noEndpoints byTag then
            match GenerateVPCEndpointName (infraName ci) (avov1alpha1.Name resource) with
            | inr name =>
                match GenerateAwsTags name (clusterTag ci) with
                | inr tags => [CallCreateVpcEndpoint (creationInput ci resource tags)]
                | inl _ => []
                end
            | inl _ => []
            end
          else []
      | _ => []
      end
  | _, _ => []
  end.

(** The requests of the lookup by identifier: none when no identifier is
    recorded, the one describe request otherwise. *)
Definition lookupRequests (id : string) : list Call :=
  if decide (id = "") then [] else [CallDescribeVpcEndpoints (byId id)].

(** The lookup by identifier yields nothing: no identifier is recorded, or
    the cloud answers that no endpoint has the recorded one. *)
Definition lookupYieldsNothing (id : string) (w : W) : Prop :=
  id = "" ∨
  ∃ message, EC2API_DescribeVpcEndpoints (byId id) w
             = inl (APIError "InvalidVpcEndpointId.NotFound" message).

(** The requests of the tag search: none for the empty cluster tag, the one
    describe request otherwise. *)
Definition searchRequests (clusterTag vpceNameTag : string) : list Call :=
  if decide (clusterTag = "") then []
  else [CallDescribeVpcEndpoints (byDefaultTags clusterTag vpceNameTag)].

(** The tag search yields nothing: the cluster tag is empty, or the cloud
    answers with no endpoint. *)
Definition searchYieldsNothing (clusterTag vpceNameTag : string) (w : W) : Prop :=
  clusterTag = "" ∨
  ∃ resp, EC2API_DescribeVpcEndpoints (byDefaultTags clusterTag vpceNameTag) w
          = inr resp ∧ ec2.VpcEndpoints resp = [].

(** The four requests of the attachment synchronizer. *)
Definition removeSubnets (ids : list string) (vpce : ec2.VpcEndpoint)
  : ec2.ModifyVpcEndpointInput.t :=
  {| ec2.ModifyVpcEndpointInput.AddSubnetIds := [];
     ec2.ModifyVpcEndpointInput.RemoveSubnetIds := ids;
     ec2.ModifyVpcEndpointInput.AddSecurityGroupIds := [];
     ec2.ModifyVpcEndpointInput.RemoveSecurityGroupIds := [];
     ec2.ModifyVpcEndpointInput.VpcEndpointId := ec2.VpcEndpointId vpce |}.

Definition addSubnets (ids : list string) (vpce : ec2.VpcEndpoint)
  : ec2.ModifyVpcEndpointInput.t :=
  {| ec2.ModifyVpcEndpointInput.AddSubnetIds := ids;
     ec2.ModifyVpcEndpointInput.RemoveSubnetIds := [];
     ec2.ModifyVpcEndpointInput.AddSecurityGroupIds := [];
     ec2.ModifyVpcEndpointInput.RemoveSecurityGroupIds := [];
     ec2.ModifyVpcEndpointInput.VpcEndpointId := ec2.VpcEndpointId vpce |}.

Definition addSecurityGroups (ids : list string) (vpce : ec2.VpcEndpoint)
  : ec2.ModifyVpcEndpointInput.t :=
  {| ec2.ModifyVpcEndpointInput.AddSubnetIds := [];
     ec2.ModifyVpcEndpointInput.RemoveSubnetIds := [];
     ec2.ModifyVpcEndpointInput.AddSecurityGroupIds := ids;
     ec2.ModifyVpcEndpointInput.RemoveSecurityGroupIds := [];
     ec2.ModifyVpcEndpointInput.VpcEndpointId := ec2.VpcEndpointId vpce |}.

Definition removeSecurityGroups (ids : list string) (vpce : ec2.VpcEndpoint)
  : ec2.ModifyVpcEndpointInput.t :=
  {| ec2.ModifyVpcEndpointInput.AddSubnetIds := [];
     ec2.ModifyVpcEndpointInput.RemoveSubnetIds := [];
     ec2.ModifyVpcEndpointInput.AddSecurityGroupIds := [];
     ec2.ModifyVpcEndpointInput.RemoveSecurityGroupIds := ids;
     ec2.ModifyVpcEndpointInput.VpcEndpointId := ec2.VpcEndpointId vpce |}.

(** The subnet diff and the security-group diff of an endpoint. *)
Definition subnetDiff (vpce : ec2.VpcEndpoint) (subnetsResp : ec2.DescribeSubnetsOutput)
  : list string * list string :=
  StringSliceTwoWayDiff (ec2.SubnetIds vpce)
    (map ec2.SubnetId (ec2.Subnets subnetsResp)).

Definition securityGroupDiff (vpce : ec2.VpcEndpoint)
    (resource : avov1alpha1.VpcEndpoint) : list string * list string :=
  StringSliceTwoWayDiff (map ec2.GroupId (ec2.Groups vpce))
    [avov1alpha1.SecurityGroupId (avov1alpha1.Status resource)].

(** The calls a run has issued that change the cloud. *)
Definition mutatingCalls {A} (run : outcome A * W * list Call) : list Call :=
  filter isMutating (callsOf run).

End Forms.

Ltac unfold_monad :=
  unfold mbind, M_bind, bind, mret, M_ret, ret, fail, panic,
         outcomeOf, cloudOf, callsOf in *.

(** ** What the reconciler relies on from the cloud *)

(** The identifiers a slice holds, as a set. *)
Definition idSet (l : list string) : gset string := list_to_set l.

(** [endpointAt w id] is the endpoint the cloud [w] holds under [id].  The
    laws say that describe requests list what the cloud holds, that a created
    endpoint is held from then on, that a modify request adds and removes the
    attachments it names, and that it leaves the private subnets alone. *)
Class CloudLaws (W : Type) `{!VpcEndpointEC2API W, !PrivateSubnetsAPI W} := {
  endpointAt : W → string → option ec2.VpcEndpoint;
  describe_sound : ∀ input w resp vpce,
    EC2API_DescribeVpcEndpoints input w = inr resp →
    vpce ∈ ec2.VpcEndpoints resp →
    ∃ id, ec2.VpcEndpointId vpce = Some id ∧ id ≠ "" ∧ endpointAt w id = Some vpce;
  describe_by_id : ∀ w id vpce,
    endpointAt w id = Some vpce →
    EC2API_DescribeVpcEndpoints
      {| ec2.VpcEndpointIds := [id]; ec2.Filters := [] |} w
    = inr {| ec2.VpcEndpoints := [vpce] |};
  create_sound : ∀ input w resp w',
    EC2API_CreateVpcEndpoint input w = (inr resp, w') →
    ∃ vpce id, ec2.VpcEndpoint_ resp = Some vpce ∧
               ec2.VpcEndpointId vpce = Some id ∧ id ≠ "" ∧
               endpointAt w' id = Some vpce;
  modify_sound : ∀ input w out w' id vpce,
    EC2API_ModifyVpcEndpoint input w = (inr out, w') →
    ec2.ModifyVpcEndpointInput.VpcEndpointId input = Some id →
    endpointAt w id = Some vpce →
    ∃ vpce',
      endpointAt w' id = Some vpce' ∧
      idSet (ec2.SubnetIds vpce')
      = (idSet (ec2.SubnetIds vpce)
           ∖ idSet (ec2.ModifyVpcEndpointInput.RemoveSubnetIds input))
          ∪ idSet (ec2.ModifyVpcEndpointInput.AddSubnetIds input) ∧
      idSet (map ec2.GroupId (ec2.Groups vpce'))
      = (idSet (map ec2.GroupId (ec2.Groups vpce))
           ∖ idSet (ec2.ModifyVpcEndpointInput.RemoveSecurityGroupIds input))
          ∪ idSet (ec2.ModifyVpcEndpointInput.AddSecurityGroupIds input);
  modify_private_subnets : ∀ input w res w' tag,
    EC2API_ModifyVpcEndpoint input w = (res, w') →
    DescribePrivateSubnets tag w' = DescribePrivateSubnets tag w
}.

Section Converged.
Context {W : Type} `{!VpcEndpointEC2API W, !PrivateSubnetsAPI W, !Util}.
Context `{!CloudLaws W}.

(** What a pass that has succeeded leaves behind: the endpoint is held
    under the recorded identifier, attached to the cluster's private
    subnets and to the resource's security group, and to nothing else. *)
Definition converged (r : VpcEndpointReconciler)
    (resource : avov1alpha1.VpcEndpoint) (w : W) : Prop :=
  recordedId resource ≠ "" ∧
  ∃ ci subnetsResp vpce,
    r_clusterInfo r = Some ci ∧
    clusterTag ci ≠ "" ∧
    DescribePrivateSubnets (clusterTag ci) w = inr subnetsResp ∧
    endpointAt w (recordedId resource) = Some vpce ∧
    idSet (ec2.SubnetIds vpce) = idSet (map ec2.SubnetId (ec2.Subnets subnetsResp)) ∧
    idSet (map ec2.GroupId (ec2.Groups vpce))
    = idSet [avov1alpha1.SecurityGroupId (avov1alpha1.Status resource)].

End Converged.

(** ** A cloud to run the code against *)

(** An in-memory cloud in the manner of the mocks the client is built for
    ([NewAwsClientWithServiceClients]): endpoints are kept under their
    identifier, requests answer from that table. *)
Module fake.

Record endpoint := {
  e_vpc : string;
  e_state : string;
  e_subnets : list string;
  e_groups : list string;
  e_dns : list string;
  e_tags : list ec2.Tag
}.

Record cloud := {
  endpoints : gmap string endpoint;
  privateSubnets : list string;
  nextId : nat
}.

Definition view (id : string) (e : endpoint) : ec2.VpcEndpoint :=
  {| ec2.VpcEndpointId := Some id;
     ec2.VpcId := Some (e_vpc e);
     ec2.State := Some (e_state e);
     ec2.SubnetIds := e_subnets e;
     ec2.Groups := map (λ g, {| ec2.GroupId := g |}) (e_groups e);
     ec2.DnsEntries := map (λ d, {| ec2.DnsName := Some d |}) (e_dns e);
     ec2.Tags := e_tags e |}.

(** No endpoint is held under the empty identifier. *)
Definition lookupEndpoint (w : cloud) (id : string) : option ec2.VpcEndpoint :=
  if decide (id = "") then None else view id <$> endpoints w !! id.

Definition hasTag (key : string) (values : list string) (e : endpoint) : bool :=
  bool_decide (Exists (λ t, ec2.Key t = key ∧ ec2.Value t ∈ values) (e_tags e)).

Definition hasTagKey (keys : list string) (e : endpoint) : bool :=
  bool_decide (Exists (λ t, ec2.Key t ∈ keys) (e_tags e)).

(** The filters the client uses: [vpc-id], [tag-key] and [tag:<key>]. *)
Definition matchesFilter (e : endpoint) (f : ec2.Filter) : bool :=
  if decide (ec2.Name f = "vpc-id") then bool_decide (e_vpc e ∈ ec2.Values f)
  else if decide (ec2.Name f = "tag-key") then hasTagKey (ec2.Values f) e
  else if String.prefix "tag:" (ec2.Name f) then
    hasTag (String.substring 4 (String.length (ec2.Name f) - 4) (ec2.Name f))
           (ec2.Values f) e
  else false.

Definition describeVpcEndpoints (input : ec2.DescribeVpcEndpointsInput)
    (w : cloud) : error + ec2.DescribeVpcEndpointsOutput :=
  match ec2.VpcEndpointIds input with
  | [] =>
      inr {| ec2.VpcEndpoints :=
               omap (λ kv, if forallb (matchesFilter kv.2) (ec2.Filters input)
                           then lookupEndpoint w kv.1 else None)
                    (map_to_list (endpoints w)) |}
  | ids =>
      match mapM (lookupEndpoint w) ids with
      | Some vpces => inr {| ec2.VpcEndpoints := vpces |}
      | None => inl (APIError "InvalidVpcEndpointId.NotFound"
                              "The VpcEndpoint does not exist")
      end
  end.

Definition createVpcEndpoint (input : ec2.CreateVpcEndpointInput.t) (w : cloud)
  : (error + ec2.CreateVpcEndpointOutput) * cloud :=
  let id := "vpce-" +:+ pretty (nextId w) in
  let e := {| e_vpc := ec2.CreateVpcEndpointInput.VpcId input;
              e_state := "pending";
              e_subnets := [];
              e_groups := [];
              e_dns := [];
              e_tags := concat (map ec2.TagSpecTags
                          (ec2.CreateVpcEndpointInput.TagSpecifications input)) |} in
  (inr {| ec2.VpcEndpoint_ := Some (view id e) |},
   {| endpoints := <[id := e]> (endpoints w);
      privateSubnets := privateSubnets w;
      nextId := S (nextId w) |}).

Definition attach (remove add current : list string) : list string :=
  filter (λ x, x ∉ remove) current ++ add.

Definition modifyVpcEndpoint (input : ec2.ModifyVpcEndpointInput.t) (w : cloud)
  : (error + ()) * cloud :=
  match ec2.ModifyVpcEndpointInput.VpcEndpointId input with
  | None => (inl (APIError "MissingParameter" "VpcEndpointId is required"), w)
  | Some id =>
      match (if decide (id = "") then None else endpoints w !! id) with
      | None => (inl (APIError "InvalidVpcEndpointId.NotFound"
                               "The VpcEndpoint does not exist"), w)
      | Some e =>
          let e' :=
            {| e_vpc := e_vpc e; e_state := e_state e;
               e_subnets :=
                 attach (ec2.ModifyVpcEndpointInput.RemoveSubnetIds input)
                        (ec2.ModifyVpcEndpointInput.AddSubnetIds input)
                        (e_subnets e);
               e_groups :=
                 attach (ec2.ModifyVpcEndpointInput.RemoveSecurityGroupIds input)
                        (ec2.ModifyVpcEndpointInput.AddSecurityGroupIds input)
                        (e_groups e);
               e_dns := e_dns e; e_tags := e_tags e |} in
          (inr (),
           {| endpoints := <[id := e']> (endpoints w);
              privateSubnets := privateSubnets w;
              nextId := nextId w |})
      end
  end.

#[global] Instance api : VpcEndpointEC2API cloud := {|
  EC2API_DescribeVpcEndpoints := describeVpcEndpoints;
  EC2API_CreateVpcEndpoint := createVpcEndpoint;
  EC2API_ModifyVpcEndpoint := modifyVpcEndpoint
|}.

#[global] Instance subnetsApi : PrivateSubnetsAPI cloud :=
  λ _ w, inr {| ec2.Subnets := map (λ s, {| ec2.SubnetId := s |}) (privateSubnets w) |}.

(** Helpers in the place of those of [pkg/util]: the name is
    [<infraName>-<resource name>], the tags are [Name], the cluster tag with
    the value [owned] and the operator's tag; the diff is the one modelled
    from the specification. *)
#[global] Instance helpers : Util := {|
  GenerateVPCEndpointName infraName name := inr (infraName +:+ "-" +:+ name);
  GenerateAwsTags name tagKey :=
    inr [ {| ec2.Key := "Name"; ec2.Value := name |};
          {| ec2.Key := tagKey; ec2.Value := "owned" |};
          {| ec2.Key := "operator"; ec2.Value := "avo" |} ];
  OperatorTagKey := "operator";
  OperatorTagValue := "avo";
  StringSliceTwoWayDiff := util.StringSliceTwoWayDiff
|}.

(** Sample data. *)
Definition info (tag : string) : clusterInfo :=
  {| region := "us-east-1"; infraName := "infra"; clusterTag := tag;
     vpcId := "vpc-1"; domainName := "example.com" |}.

Definition reconciler (tag : string) : VpcEndpointReconciler :=
  {| r_clusterInfo := Some (info tag) |}.

Definition resource (id sg : string) : avov1alpha1.VpcEndpoint :=
  {| avov1alpha1.Name := "ep";
     avov1alpha1.Spec := {| avov1alpha1.ServiceName := "svc";
                            avov1alpha1.SubdomainName := "sub" |};
     avov1alpha1.Status := {| avov1alpha1.VPCEndpointId := id;
                              avov1alpha1.SecurityGroupId := sg |} |}.

Definition ownedTags : list ec2.Tag :=
  [ {| ec2.Key := "Name"; ec2.Value := "infra-ep" |};
    {| ec2.Key := "kubernetes.io/cluster/infra"; ec2.Value := "owned" |};
    {| ec2.Key := "operator"; ec2.Value := "avo" |} ].

Definition sampleEndpoint (state : string) (subnets groups dns : list string)
  : endpoint :=
  {| e_vpc := "vpc-1"; e_state := state; e_subnets := subnets;
     e_groups := groups; e_dns := dns; e_tags := ownedTags |}.

Definition cloudOfEndpoints (es : list (string * endpoint))
    (subnets : list string) : cloud :=
  {| endpoints := list_to_map es; privateSubnets := subnets; nextId := 0 |}.

Definition clusterTagA : string := "kubernetes.io/cluster/infra".

Definition endpointA : endpoint :=
  sampleEndpoint "available" ["s1"; "s2"] ["sg-0"] ["a"; "b"].

Definition endpointB : endpoint :=
  sampleEndpoint "pending" [] [] ["c"].

Definition vpceA : ec2.VpcEndpoint := view "vpce-a" endpointA.

Definition vpceB : ec2.VpcEndpoint := view "vpce-b" endpointB.

(** One endpoint, attached to [s1] and [s2] and to [sg-0]; the cluster's
    private subnets are [s2] and [s3]. *)
Definition cloudA : cloud :=
  cloudOfEndpoints [("vpce-a", endpointA)] ["s2"; "s3"].

(** Two endpoints that carry the default tags. *)
Definition cloudAB : cloud :=
  cloudOfEndpoints [("vpce-a", endpointA); ("vpce-b", endpointB)] ["s2"; "s3"].

(** No endpoint at all. *)
Definition cloudNone : cloud := cloudOfEndpoints [] ["s2"; "s3"].

(** An available endpoint that has no DNS entry yet. *)
Definition endpointC : endpoint := sampleEndpoint "available" ["s2"] ["sg-1"] [].

Definition vpceC : ec2.VpcEndpoint := view "vpce-c" endpointC.

Definition cloudC : cloud := cloudOfEndpoints [("vpce-c", endpointC)] ["s2"].

(** An EC2 interface whose describe request pays no attention to the
    identifiers it is given and lists every endpoint. *)
Definition describeAll (input : ec2.DescribeVpcEndpointsInput) (w : cloud)
  : error + ec2.DescribeVpcEndpointsOutput :=
  inr {| ec2.VpcEndpoints :=
           omap (λ kv, lookupEndpoint w kv.1) (map_to_list (endpoints w)) |}.

Definition looseApi : VpcEndpointEC2API cloud := {|
  EC2API_DescribeVpcEndpoints := describeAll;
  EC2API_CreateVpcEndpoint := createVpcEndpoint;
  EC2API_ModifyVpcEndpoint := modifyVpcEndpoint
|}.

(** Helpers that differ from [helpers] in one point: [GenerateAwsTags]
    refuses an empty name and an empty tag key. *)
Definition refusal : error := errorString "name and tag key must not be empty".

Definition strictHelpers : Util := {|
  GenerateVPCEndpointName infraName name := inr (infraName +:+ "-" +:+ name);
  GenerateAwsTags name tagKey :=
    if decide (name = "" ∨ tagKey = "") then inl refusal
    else inr [ {| ec2.Key := "Name"; ec2.Value := name |};
               {| ec2.Key := tagKey; ec2.Value := "owned" |};
               {| ec2.Key := "operator"; ec2.Value := "avo" |} ];
  OperatorTagKey := "operator";
  OperatorTagValue := "avo";
  StringSliceTwoWayDiff := util.StringSliceTwoWayDiff
|}.

End fake.

(** ** More of the client: [FilterVpcIdsByTags] *)

Module avov1alpha2.
Record Tag := { Key : string; Value : string }.
End avov1alpha2.

Module ec2vpcs.
Record Vpc := { VpcId : option string }.
Record DescribeVpcsInput := { Filters : list ec2.Filter }.
Record DescribeVpcsOutput := { Vpcs : list Vpc }.
End ec2vpcs.

(** [DescribeVpcs] of [VpcEndpointEC2API] (client.go), a read of the cloud. *)
Class VpcsEC2API (W : Type) : Type :=
  EC2API_DescribeVpcs :
    ec2vpcs.DescribeVpcsInput → W → error + ec2vpcs.DescribeVpcsOutput.

Section Vpcs.
Context {W : Type} `{!VpcsEC2API W}.

(** What [%v] prints for a slice of [avov1alpha2.Tag], whose declaration is
    not among the sources. *)
Variable showTags : list avov1alpha2.Tag → string.

(** [filters[i] = types.Filter{Name: "tag:<key>", Values: {value}}] *)
Definition tagFilter (tag : avov1alpha2.Tag) : ec2.Filter :=
  {| ec2.Name := "tag:" +:+ avov1alpha2.Key tag;
     ec2.Values := [avov1alpha2.Value tag] |}.

(** [for i, vpc := range resp.Vpcs { ids[i] = *vpc.VpcId }] *)
Fixpoint vpcIdsOf (vpcs : list ec2vpcs.Vpc) : outcome (list string) :=
  match vpcs with
  | [] => Ok []
  | vpc :: rest =>
      match ec2vpcs.VpcId vpc with
      | None => Panic
      | Some id =>
          match vpcIdsOf rest with
          | Ok ids => Ok (id :: ids)
          | Err e => Err e
          | Panic => Panic
          end
      end
  end.

(** The result and the requests issued, oldest first. *)
Definition FilterVpcIdsByTags (tags : list avov1alpha2.Tag) (w : W)
  : outcome (list string) * list ec2vpcs.DescribeVpcsInput :=
  if decide (length tags = 0%nat) then
    (Err (errorString "must specify tags when filtering VPCs by tags"), [])
  else
    let input := {| ec2vpcs.Filters := map tagFilter tags |} in
    (match EC2API_DescribeVpcs input w with
     | inl err => Err err
     | inr resp =>
         if decide (length (ec2vpcs.Vpcs resp) = 0%nat) then
           Err (errorString ("no VPCs found when filtering by tags: "
                             +:+ showTags tags))
         else vpcIdsOf (ec2vpcs.Vpcs resp)
     end, [input]).

End Vpcs.

(** ** More of the helpers: [tagsContains] *)

(** The tag of the SDK that helpers.go imports: both fields are pointers,
    and so are the elements of a slice of tags. *)
Module ec2v1.
Record Tag := { Key : option string; Value : option string }.
End ec2v1.

#[global] Instance ec2v1_Tag_eq_dec : EqDecision ec2v1.Tag.
Proof. solve_decision. Defined.

(** An order in which [range] may visit a map: its entries, each once. *)
Definition validRangeOf {A} (rangeMap : gmap string A → list (string * A)) : Prop :=
  ∀ m, rangeMap m ≡ₚ map_to_list m.

(** The inner loop: [*tag.Key == k && *tag.Value == v], the value being read
    only when the key is equal. *)
Fixpoint findTag (tags : list (option ec2v1.Tag)) (k v : string) : outcome bool :=
  match tags with
  | [] => Ok false
  | None :: _ => Panic
  | Some tag :: rest =>
      match ec2v1.Key tag with
      | None => Panic
      | Some key =>
          if decide (key = k) then
            match ec2v1.Value tag with
            | None => Panic
            | Some value =>
                if decide (value = v) then Ok true else findTag rest k v
            end
          else findTag rest k v
      end
  end.

(** The outer loop, over the entries in the order [range] visits them. *)
Fixpoint checkTags (tags : list (option ec2v1.Tag)) (entries : list (string * string))
  : outcome bool :=
  match entries with
  | [] => Ok true
  | (k, v) :: rest =>
      match findTag tags k v with
      | Ok true => checkTags tags rest
      | Ok false => Ok false
      | Err e => Err e
      | Panic => Panic
      end
  end.

Definition tagsContains (rangeMap : gmap string string → list (string * string))
    (tags : list (option ec2v1.Tag)) (tagsToCheck : gmap string string)
  : outcome bool :=
  checkTags tags (rangeMap tagsToCheck).

(** A tag with both fields set. *)
Definition tagOf (k v : string) : option ec2v1.Tag :=
  Some {| ec2v1.Key := Some k; ec2v1.Value := Some v |}.

(** Tags without a nil pointer. *)
Definition wellFormedTag (tag : option ec2v1.Tag) : Prop :=
  ∃ k v, tag = tagOf k v.

(** ** More of the helpers: [generateExternalNameService] *)

Module metav1.
Record OwnerReference := {
  APIVersion : string;
  Kind : string;
  Name : string;
  UID : string;
  Controller : option bool;
  BlockOwnerDeletion : option bool
}.
End metav1.

Module corev1.
Record Service := {
  Name : string;
  Namespace : string;
  OwnerReferences : list metav1.OwnerReference;
  ServiceType : string;
  ExternalName : string
}.
End corev1.

(** The resource together with [Spec.ExternalNameService], the part of the
    specification that only [generateExternalNameService] reads. *)
Record ServiceResource := {
  sr_resource : avov1alpha1.VpcEndpoint;
  sr_serviceName : string;
  sr_serviceNamespace : string
}.

Section ExternalName.

(** [controllerutil.SetControllerReference], which is not among the sources:
    it answers with the owner references the service is to carry, or with an
    error. *)
Variable SetControllerReference :
  avov1alpha1.VpcEndpoint → corev1.Service → error + list metav1.OwnerReference.

(** [resource] is a pointer and may be nil. *)
Definition generateExternalNameService (r : VpcEndpointReconciler)
    (resource : option ServiceResource) : outcome corev1.Service :=
  match resource with
  | None => Err (errorString "resource must be specified")
  | Some resource =>
      if decide (avov1alpha1.SubdomainName
                   (avov1alpha1.Spec (sr_resource resource)) = "") then
        Err (errorString "subdomainName is a required field")
      else
        match r_clusterInfo r with
        | None => Panic
        | Some ci =>
            if decide (domainName ci = "") then
              Err (errorString "empty domainName")
            else
              let svc :=
                {| corev1.Name := sr_serviceName resource;
                   corev1.Namespace := sr_serviceNamespace resource;
                   corev1.OwnerReferences := [];
                   corev1.ServiceType := "ExternalName";
                   corev1.ExternalName :=
                     avov1alpha1.SubdomainName
                       (avov1alpha1.Spec (sr_resource resource))
                     +:+ "." +:+ domainName ci |} in
              match SetControllerReference (sr_resource resource) svc with
              | inl err => Err err
              | inr owners =>
                  Ok {| corev1.Name := corev1.Name svc;
                        corev1.Namespace := corev1.Namespace svc;
                        corev1.OwnerReferences := owners;
                        corev1.ServiceType := corev1.ServiceType svc;
                        corev1.ExternalName := corev1.ExternalName svc |}
              end
        end
  end.

End ExternalName.

(** ** More of the helpers: [parseClusterInfo] *)

(** What the steps of [parseClusterInfo] obtain from outside: the cluster's
    objects, a new session, the client's [GetVPCId].  None of them is among
    the sources; each is the answer of its call. *)
Record ClusterSources := {
  GetAWSRegion : error + string;
  NewSession : string → error + ();
  GetInfrastructureName : error + string;
  GetClusterTagKey : string → error + string;
  GetVPCId : string → error + string;
  GetPrivateHostedZoneDomainName : error + string
}.

Definition emptyClusterInfo : clusterInfo :=
  {| region := ""; infraName := ""; clusterTag := ""; vpcId := "";
     domainName := "" |}.

Definition setRegion (v : string) (ci : clusterInfo) : clusterInfo :=
  {| region := v; infraName := infraName ci; clusterTag := clusterTag ci;
     vpcId := vpcId ci; domainName := domainName ci |}.

Definition setInfraName (v : string) (ci : clusterInfo) : clusterInfo :=
  {| region := region ci; infraName := v; clusterTag := clusterTag ci;
     vpcId := vpcId ci; domainName := domainName ci |}.

Definition setClusterTag (v : string) (ci : clusterInfo) : clusterInfo :=
  {| region := region ci; infraName := infraName ci; clusterTag := v;
     vpcId := vpcId ci; domainName := domainName ci |}.

Definition setVpcId (v : string) (ci : clusterInfo) : clusterInfo :=
  {| region := region ci; infraName := infraName ci; clusterTag := clusterTag ci;
     vpcId := v; domainName := domainName ci |}.

Definition setDomainName (v : string) (ci : clusterInfo) : clusterInfo :=
  {| region := region ci; infraName := infraName ci; clusterTag := clusterTag ci;
     vpcId := vpcId ci; domainName := v |}.

(** The method mutates [r.clusterInfo]: the result is the error, if any
    ([None] is nil), and the reconciler as the method leaves it.  The new
    session only replaces [r.awsClient], which is taken to be set when
    [GetVPCId] is called on it. *)
Definition parseClusterInfo (src : ClusterSources) (refreshAWSSession : bool)
    (r : VpcEndpointReconciler) : option error * VpcEndpointReconciler :=
  let ci := emptyClusterInfo in
  match GetAWSRegion src with
  | inl err => (Some err, {| r_clusterInfo := Some ci |})
  | inr region =>
      let ci := setRegion region ci in
      match (if refreshAWSSession then NewSession src region else inr ()) with
      | inl err => (Some err, {| r_clusterInfo := Some ci |})
      | inr _ =>
          match GetInfrastructureName src with
          | inl err => (Some err, {| r_clusterInfo := Some ci |})
          | inr infraName =>
              let ci := setInfraName infraName ci in
              match GetClusterTagKey src infraName with
              | inl err => (Some err, {| r_clusterInfo := Some ci |})
              | inr clusterTag =>
                  let ci := setClusterTag clusterTag ci in
                  match GetVPCId src clusterTag with
                  | inl err => (Some err, {| r_clusterInfo := Some ci |})
                  | inr vpcId =>
                      let ci := setVpcId vpcId ci in
                      match GetPrivateHostedZoneDomainName src with
                      | inl err => (Some err, {| r_clusterInfo := Some ci |})
                      | inr domainName =>
                          (None, {| r_clusterInfo := Some (setDomainName domainName ci) |})
                      end
                  end
              end
          end
      end
  end.

(** ** Sample data for the further properties *)

Module samples.

(** VPCs with their tags.  A VPC answers a request when, for every filter
    [tag:<key>], it carries that key with one of the filter's values. *)
Record vpc := { v_id : string; v_tags : list avov1alpha2.Tag }.

Definition vpcMatches (v : vpc) (f : ec2.Filter) : bool :=
  bool_decide
    (Exists (λ t, "tag:" +:+ avov1alpha2.Key t = ec2.Name f
                  ∧ avov1alpha2.Value t ∈ ec2.Values f) (v_tags v)).

#[global] Instance vpcsApi : VpcsEC2API (list vpc) :=
  λ input w,
    inr {| ec2vpcs.Vpcs :=
             map (λ v, {| ec2vpcs.VpcId := Some (v_id v) |})
                 (filter (λ v, forallb (vpcMatches v) (ec2vpcs.Filters input)) w) |}.

Definition showTag (t : avov1alpha2.Tag) : string :=
  "{" +:+ avov1alpha2.Key t +:+ " " +:+ avov1alpha2.Value t +:+ "}".

Definition showTags (tags : list avov1alpha2.Tag) : string :=
  "[" +:+ String.concat " " (map showTag tags) +:+ "]".

Definition clusterTags : list avov1alpha2.Tag :=
  [ {| avov1alpha2.Key := "cluster"; avov1alpha2.Value := "infra" |} ].

Definition otherTags : list avov1alpha2.Tag :=
  [ {| avov1alpha2.Key := "cluster"; avov1alpha2.Value := "other" |} ].

Definition vpcs : list vpc :=
  [ {| v_id := "vpc-1"; v_tags := clusterTags |};
    {| v_id := "vpc-2"; v_tags := otherTags |};
    {| v_id := "vpc-3"; v_tags := clusterTags |} ].

(** An EC2 interface that refuses every request. *)
Definition throttle : error := APIError "RequestLimitExceeded" "Request limit exceeded.".

Definition throttledApi : VpcEndpointEC2API fake.cloud := {|
  EC2API_DescribeVpcEndpoints := λ _ _, inl throttle;
  EC2API_CreateVpcEndpoint := λ _ w, (inl throttle, w);
  EC2API_ModifyVpcEndpoint := λ _ w, (inl throttle, w)
|}.

(** Pages that list an endpoint of [v9], which is no candidate. *)
Definition strayPages : list (error + ec2.DescribeVpcEndpointsOutput) :=
  [placement.pageOf ["v9"; "v1"]].

(** A resource that asks for the service [svc] in the namespace [ns]. *)
Definition serviceResource (subdomain : string) : ServiceResource :=
  {| sr_resource :=
       {| avov1alpha1.Name := "ep";
          avov1alpha1.Spec := {| avov1alpha1.ServiceName := "svc";
                                 avov1alpha1.SubdomainName := subdomain |};
          avov1alpha1.Status := {| avov1alpha1.VPCEndpointId := "";
                                   avov1alpha1.SecurityGroupId := "" |} |};
     sr_serviceName := "svc";
     sr_serviceNamespace := "ns" |}.

Definition owner (resource : avov1alpha1.VpcEndpoint) : metav1.OwnerReference :=
  {| metav1.APIVersion := "avo.openshift.io/v1alpha1";
     metav1.Kind := "VpcEndpoint";
     metav1.Name := avov1alpha1.Name resource;
     metav1.UID := "uid-1";
     metav1.Controller := Some true;
     metav1.BlockOwnerDeletion := Some true |}.

Definition setOwner (resource : avov1alpha1.VpcEndpoint) (svc : corev1.Service)
  : error + list metav1.OwnerReference :=
  inr [owner resource].

(** Sources that answer every step, and sources whose VPC lookup fails. *)
Definition sources : ClusterSources :=
  {| GetAWSRegion := inr "us-east-1";
     NewSession := λ _, inr ();
     GetInfrastructureName := inr "infra";
     GetClusterTagKey := λ infra, inr ("kubernetes.io/cluster/" +:+ infra);
     GetVPCId := λ tag, inr "vpc-1";
     GetPrivateHostedZoneDomainName := inr "example.com" |}.

Definition sourcesWithoutVpc : ClusterSources :=
  {| GetAWSRegion := inr "us-east-1";
     NewSession := λ _, inr ();
     GetInfrastructureName := inr "infra";
     GetClusterTagKey := λ infra, inr ("kubernetes.io/cluster/" +:+ infra);
     GetVPCId := λ tag, inl (errorString "no VPC found");
     GetPrivateHostedZoneDomainName := inr "example.com" |}.

Definition noReconciler : VpcEndpointReconciler := {| r_clusterInfo := None |}.

Definition someTags : list (option ec2v1.Tag) :=
  [tagOf "Name" "infra-ep"; tagOf "operator" "avo"].

Definition wanted : gmap string string :=
  <["operator" := "avo"]> (<["Name" := "infra-ep"]> ∅).

End samples.

(** * Properties *)

(** ** Placement *)

Section PlacementFacts.
Import placement.

(** The count map after [for _, id := range ids { vpcePerVpc[id] = 0 }]. *)
Lemma init_lookup (ids : list string) (m : gmap string Z) (k : string) :
  foldl (λ m id, <[id := 0]> m) m ids !! k
  = if decide (k ∈ ids) then Some 0 else m !! k.
Proof.
  revert m. induction ids as [|id ids IH]; intros m; simpl.
  - destruct (decide (k ∈ [])) as [Hin|_]; [by apply elem_of_nil in Hin | done].
  - rewrite IH.
    destruct (decide (k ∈ ids)) as [Hin|Hin], (decide (k ∈ id :: ids)) as [Hin'|Hin'];
      try done.
    + exfalso. apply Hin'. by right.
    + apply elem_of_cons in Hin' as [->|?]; [|done]. by rewrite lookup_insert_eq.
    + apply lookup_insert_ne. intros ->. apply Hin'. by left.
Qed.

Lemma occurrences_cons k x xs :
  occurrences k (x :: xs)
  = (if decide (x = k) then 1 else 0) + occurrences k xs.
Proof.
  unfold occurrences. rewrite filter_cons. case_decide; simpl; lia.
Qed.

Lemma occurrences_bounds k xs :
  0 ≤ occurrences k xs ≤ Z.of_nat (length xs).
Proof.
  unfold occurrences. pose proof (length_filter (λ x, x = k) xs). lia.
Qed.

Lemma wrap_small z : - 2 ^ 63 ≤ z < 2 ^ 63 → wrap z = z.
Proof.
  intros Hz. unfold wrap. rewrite Z.mod_small; lia.
Qed.

(** Counting does not overflow as long as the counts stay below [MaxInt]. *)
Lemma countAll_lookup (xs : list string) (m : gmap string Z) (k : string) :
  (∀ k, 0 ≤ default 0 (m !! k)
        ∧ default 0 (m !! k) + Z.of_nat (length xs) ≤ MaxInt) →
  default 0 (countAll xs m !! k) = default 0 (m !! k) + occurrences k xs ∧
  (is_Some (countAll xs m !! k) ↔ is_Some (m !! k) ∨ k ∈ xs).
Proof.
  unfold countAll, MaxInt. revert m.
  induction xs as [|x xs IH]; intros m Hm; simpl.
  - unfold occurrences; simpl. split; [lia|].
    split; [by left | intros [?|Hin]; [done | by apply elem_of_nil in Hin]].
  - pose proof (Hm x) as Hx. simpl in Hx.
    assert (Hw : wrap (default 0 (m !! x) + 1) = default 0 (m !! x) + 1)
      by (apply wrap_small; lia).
    destruct (IH (increment x m)) as [IH1 IH2].
    { intros k'. unfold increment. rewrite Hw.
      destruct (decide (x = k')) as [->|Hne].
      - rewrite lookup_insert_eq. simpl. lia.
      - rewrite lookup_insert_ne by done.
        specialize (Hm k'). simpl in Hm. lia. }
    rewrite IH1, IH2, occurrences_cons. unfold increment. rewrite Hw.
    destruct (decide (x = k)) as [->|Hne].
    + rewrite lookup_insert_eq. simpl. split; [lia|].
      split; [intros _; right; by left | intros _; left; eauto].
    + rewrite lookup_insert_ne by done. split; [lia|].
      rewrite elem_of_cons. intuition congruence.
Qed.

Lemma countEndpoints_countAll (vpces : list ec2.VpcEndpoint) (xs : list string)
    (m : gmap string Z) :
  map ec2.VpcId vpces = map Some xs →
  countEndpoints vpces m = Ok (countAll xs m).
Proof.
  revert xs m. induction vpces as [|e vpces IH]; intros [|x xs] m H;
    simpl in *; try done.
  injection H as He Hrest. rewrite He. by apply IH.
Qed.

Lemma countAll_app xs ys m : countAll (xs ++ ys) m = countAll ys (countAll xs m).
Proof. unfold countAll. by rewrite foldl_app. Qed.

Lemma countPages_countAll pages xs m :
  pagesList pages xs → countPages pages m = Ok (countAll xs m).
Proof.
  unfold pagesList, vpcIds. revert xs m.
  induction pages as [|p pages IH]; intros xs m [Hall Hids]; simpl in *.
  - destruct xs; [done | discriminate].
  - inversion Hall as [|? ? [resp ->] Hall']; subst.
    symmetry in Hids. apply fmap_app_inv in Hids as (ys & zs & Hy & Hz & ->).
    rewrite (countEndpoints_countAll _ ys) by done.
    rewrite countAll_app. apply IH. by split.
Qed.

(** The loop over the map keeps the smallest count seen so far, and the
    entry it was seen at. *)
Lemma pickMin_foldl (l : list (string * Z)) (acc : string * Z) :
  let r := foldl pickMin acc l in
  r.2 ≤ acc.2 ∧ (∀ kv, kv ∈ l → r.2 ≤ kv.2) ∧ (r = acc ∨ r ∈ l).
Proof.
  revert acc. induction l as [|kv l IH]; intros acc; simpl.
  - split; [lia|]. split; [|by left].
    intros kv Hin. by apply elem_of_nil in Hin.
  - destruct (IH (pickMin acc kv)) as (H1 & H2 & H3).
    unfold pickMin in *. destruct (decide (kv.2 < acc.2)); simpl in *.
    + split; [lia|]. split.
      * intros kv' [->|Hin]%elem_of_cons; [lia | by apply H2].
      * right. destruct H3 as [->|H3]; [destruct kv; left | right]; done.
    + split; [lia|]. split.
      * intros kv' [->|Hin]%elem_of_cons; [lia | by apply H2].
      * destruct H3 as [->|H3]; [by left | right; by right].
Qed.

End PlacementFacts.

Section PlacementTheorems.
Import placement.

Lemma endpointsIn_occurrences pages xs id :
  vpcIds pages = map Some xs → endpointsIn pages id = occurrences id xs.
Proof.
  intros H. unfold endpointsIn, occurrences. rewrite H. f_equal. clear H.
  induction xs as [|x xs IH]; [done|]. simpl.
  rewrite !filter_cons.
  destruct (decide (Some x = Some id)) as [Heq|Hne], (decide (x = id)) as [Heq'|Hne'];
    simpl; congruence.
Qed.

Lemma pages_ids (ids : list string) pages :
  Forall (λ p, ∃ resp, p = inr resp ∧
               Forall (λ vpce, ∃ id, ec2.VpcId vpce = Some id ∧ id ∈ ids)
                      (ec2.VpcEndpoints resp)) pages →
  ∃ xs, pagesList pages xs ∧ Forall (λ x, x ∈ ids) xs.
Proof.
  unfold pagesList, vpcIds. induction 1 as [|p pages (resp & -> & Hp) _ (xs & [Hall Hxs] & Hin)].
  - exists []. repeat split; constructor.
  - assert (∃ ys, map ec2.VpcId (ec2.VpcEndpoints resp) = map Some ys
                  ∧ Forall (λ x, x ∈ ids) ys) as (ys & Hys & Hyin).
    { clear -Hp. induction Hp as [|e es (id & He & Hid) _ (ys & Hys & Hyin)].
      - exists []. split; [done | constructor].
      - exists (id :: ys). simpl. rewrite He, Hys. split; [done | by constructor]. }
    exists (ys ++ xs). simpl. rewrite Hys, Hxs, map_app. repeat split.
    + constructor; eauto.
    + by apply Forall_app.
Qed.

(** C2, as the code has it: for a non-empty list of candidates, none of
    them the empty string, pages without an error that list endpoints of
    the candidate VPCs only (the [vpc-id] filter) and fewer than [MaxInt]
    endpoints, [SelectVPCForVPCEndpoint] returns a candidate with the
    fewest endpoints, whatever the order in which [range] visits the count
    map.  Which of several equally loaded candidates it returns is left to
    that order. *)
Theorem SelectVPCForVPCEndpoint_least_loaded
    (rangeMap : gmap string Z → list (string * Z))
    (pages : list (error + ec2.DescribeVpcEndpointsOutput))
    (ids : list string) :
  validRange rangeMap →
  ids ≠ [] →
  "" ∉ ids →
  Forall (λ p, ∃ resp, p = inr resp ∧
               Forall (λ vpce, ∃ id, ec2.VpcId vpce = Some id ∧ id ∈ ids)
                      (ec2.VpcEndpoints resp)) pages →
  Z.of_nat (length (vpcIds pages)) < MaxInt →
  ∃ v, SelectVPCForVPCEndpoint rangeMap pages ids = Ok v ∧
       v ∈ ids ∧
       ∀ id, id ∈ ids → endpointsIn pages v ≤ endpointsIn pages id.
Proof.
  intros Hrange Hne Hempty Hpages Hlen.
  destruct (pages_ids ids pages Hpages) as (xs & Hxs & Hin).
  pose proof Hxs as [_ Hids].
  assert (Hlen' : Z.of_nat (length xs) < MaxInt).
  { rewrite Hids in Hlen. by rewrite length_map in Hlen. }
  unfold SelectVPCForVPCEndpoint.
  destruct (decide (length ids = 0%nat)) as [Hz|_];
    [by destruct ids|].
  rewrite (countPages_countAll pages xs) by done.
  set (m0 := foldl (λ m id, <[id:=0]> m) ∅ ids).
  set (m := countAll xs m0).
  assert (Hm0 : ∀ k, m0 !! k = if decide (k ∈ ids) then Some 0 else None).
  { intros k. unfold m0. by rewrite init_lookup, lookup_empty. }
  assert (Hm : ∀ k, m !! k = if decide (k ∈ ids) then Some (occurrences k xs) else None).
  { intros k. destruct (countAll_lookup xs m0 k) as [Hv Hs].
    { intros k'. rewrite Hm0. destruct (decide (k' ∈ ids)); simpl; lia. }
    fold m in Hv, Hs. rewrite Hm0 in Hv, Hs.
    destruct (decide (k ∈ ids)) as [Hk|Hk]; simpl in *.
    - destruct (m !! k) as [v|]; simpl in *.
      + f_equal. lia.
      + destruct Hs as [_ Hs]. destruct Hs as [? [=]]. left; eauto.
    - destruct (m !! k) as [v|] eqn:E; [|done].
      destruct Hs as [Hs _]. destruct Hs as [[? [=]]|Hk']; [eauto|].
      exfalso. apply Hk. by eapply Forall_forall in Hin. }
  assert (Hentries : ∀ k c, (k, c) ∈ rangeMap m ↔ k ∈ ids ∧ c = occurrences k xs).
  { intros k c. rewrite (Hrange m), elem_of_map_to_list, Hm.
    destruct (decide (k ∈ ids)); split.
    - intros [= <-]. done.
    - intros [_ ->]. done.
    - done.
    - intros [? _]. done. }
  pose proof (pickMin_foldl (rangeMap m) ("", MaxInt)) as (H1 & H2 & H3).
  destruct (foldl pickMin ("", MaxInt) (rangeMap m)) as [k c] eqn:Efold.
  simpl in *.
  destruct ids as [|id0 ids']; [done|].
  assert (Hc : c < MaxInt).
  { specialize (H2 (id0, occurrences id0 xs)). simpl in H2.
    pose proof (occurrences_bounds id0 xs).
    assert (c ≤ occurrences id0 xs); [|lia].
    apply H2, Hentries. split; [by left | done]. }
  destruct H3 as [[= -> ->]|H3]; [lia|].
  apply Hentries in H3 as [Hk ->].
  destruct (decide (k = "")) as [->|_]; [done|].
  exists k. split; [done|]. split; [done|].
  intros id Hid. rewrite !(endpointsIn_occurrences pages xs) by done.
  apply (H2 (id, occurrences id xs)), Hentries. done.
Qed.

Lemma validRange_rangeFrom (k : string) : validRange (rangeFrom k).
Proof. intros m. apply filter_app_complement. Qed.

(** C2, witness: the specification's example, the map visited in the
    order [map_to_list] gives. *)
Lemma SelectVPCForVPCEndpoint_least_loaded_witness :
  ∃ v, SelectVPCForVPCEndpoint map_to_list examplePages ["v1"; "v2"; "v3"] = Ok v ∧
       v ∈ ["v1"; "v2"; "v3"] ∧
       ∀ id, id ∈ ["v1"; "v2"; "v3"] →
             endpointsIn examplePages v ≤ endpointsIn examplePages id.
Proof.
  apply (SelectVPCForVPCEndpoint_least_loaded map_to_list examplePages
           ["v1"; "v2"; "v3"]).
  - intros m. reflexivity.
  - discriminate.
  - intros H. repeat (apply elem_of_cons in H as [H|H]; [discriminate H|]).
    by apply elem_of_nil in H.
  - unfold examplePages, pageOf. simpl.
    repeat first
      [ apply Forall_nil_2
      | apply Forall_cons_2
      | eexists; split; [reflexivity|]
      | apply (bool_decide_unpack _); vm_compute; exact I ].
  - vm_compute. reflexivity.
Defined.

(** C2, counterexample: on the specification's example the candidate list
    is [v1, v2, v3] and the first minimum in input order is [v2], yet a run
    in which [range] visits the entry of [v3] first returns [v3]; a run
    that visits [v2] first returns [v2]. *)
Lemma SelectVPCForVPCEndpoint_tie_not_first_minimum :
  validRange (rangeFrom "v3") ∧
  firstMinimum (endpointsIn examplePages) ["v1"; "v2"; "v3"] = Some "v2" ∧
  SelectVPCForVPCEndpoint (rangeFrom "v3") examplePages ["v1"; "v2"; "v3"] = Ok "v3" ∧
  validRange (rangeFrom "v2") ∧
  SelectVPCForVPCEndpoint (rangeFrom "v2") examplePages ["v1"; "v2"; "v3"] = Ok "v2".
Proof.
  split; [apply validRange_rangeFrom|].
  split; [vm_compute; reflexivity|].
  split; [vm_compute; reflexivity|].
  split; [apply validRange_rangeFrom|].
  vm_compute; reflexivity.
Qed.

End PlacementTheorems.

(** ** The diff *)

Section DiffTheorems.

Lemma idSet_filter_notin (l excluded : list string) :
  idSet (filter (λ x, x ∉ excluded) l) = idSet l ∖ idSet excluded.
Proof.
  unfold idSet. apply set_eq. intros x.
  rewrite elem_of_difference, !elem_of_list_to_set, list_elem_of_filter.
  tauto.
Qed.

Lemma filter_notin_nil (l excluded : list string) :
  filter (λ x, x ∉ excluded) l = [] ↔ idSet l ⊆ idSet excluded.
Proof.
  unfold idSet. split.
  - intros H x Hx%elem_of_list_to_set. apply elem_of_list_to_set.
    destruct (decide (x ∈ excluded)) as [|Hnot]; [done|].
    assert (Hin : x ∈ filter (λ x, x ∉ excluded) l)
      by (apply list_elem_of_filter; done).
    rewrite H in Hin. by apply elem_of_nil in Hin.
  - intros H. induction l as [|a l IH]; [done|].
    rewrite filter_cons. destruct (decide (a ∉ excluded)) as [Hnot|_].
    + exfalso. apply Hnot. apply (elem_of_list_to_set (C := gset string)).
      apply H. apply elem_of_list_to_set. by left.
    + apply IH. intros x Hx. apply H. simpl. apply elem_of_union. by right.
Qed.

(** C3: the diff returns [toAdd = desired − current] and
    [toRemove = current − desired]; the two are disjoint, adding [toAdd] to
    [current] and removing [toRemove] gives [desired], and the diff of a
    slice with itself is empty on both sides.  The function is a pure one:
    it has no cloud state to act on. *)
Theorem StringSliceTwoWayDiff_sets (current desired : list string) :
  idSet (util.StringSliceTwoWayDiff current desired).1
  = idSet desired ∖ idSet current ∧
  idSet (util.StringSliceTwoWayDiff current desired).2
  = idSet current ∖ idSet desired ∧
  idSet (util.StringSliceTwoWayDiff current desired).1
    ∩ idSet (util.StringSliceTwoWayDiff current desired).2 = ∅ ∧
  (idSet current ∪ idSet (util.StringSliceTwoWayDiff current desired).1)
    ∖ idSet (util.StringSliceTwoWayDiff current desired).2 = idSet desired ∧
  util.StringSliceTwoWayDiff current current = ([], []).
Proof.
  unfold util.StringSliceTwoWayDiff. simpl.
  rewrite !idSet_filter_notin.
  split; [done|]. split; [done|].
  split; [|split].
  - apply set_eq. intros x.
    rewrite elem_of_intersection, !elem_of_difference, elem_of_empty. tauto.
  - apply set_eq. intros x.
    rewrite !elem_of_difference, elem_of_union, !elem_of_difference.
    destruct (decide (x ∈ idSet current)), (decide (x ∈ idSet desired)); tauto.
  - assert (H : filter (λ x, x ∉ current) current = [])
      by (by apply filter_notin_nil).
    by rewrite H.
Qed.

End DiffTheorems.

(** ** The client and the helpers *)

Section ClientFacts.
Context {W : Type} `{!VpcEndpointEC2API W, !PrivateSubnetsAPI W, !Util}.

Lemma DescribeSingleVPCEndpointById_empty (w : W) :
  DescribeSingleVPCEndpointById "" w
  = (Ok (Some {| ec2.VpcEndpoints := [] |}), w, []).
Proof. reflexivity. Qed.

Lemma DescribeSingleVPCEndpointById_run (id : string) (w : W) :
  id ≠ "" →
  DescribeSingleVPCEndpointById id w
  = (singleResult (EC2API_DescribeVpcEndpoints (byId id) w), w,
     [CallDescribeVpcEndpoints (byId id)]).
Proof.
  intros Hid. unfold DescribeSingleVPCEndpointById, singleResult, byId,
    callDescribeVpcEndpoints.
  destruct (decide (id = "")) as [|_]; [done|]. unfold_monad.
  destruct (EC2API_DescribeVpcEndpoints _ w) as [[code msg|s]|resp]; simpl.
  - destruct (decide (code = _)); reflexivity.
  - reflexivity.
  - destruct (decide (length (ec2.VpcEndpoints resp) ≠ 1%nat)); reflexivity.
Qed.

(** The lookup by identifier reads the cloud and issues at most its one
    describe request. *)
Lemma DescribeSingleVPCEndpointById_reads (id : string) (w : W) :
  cloudOf (DescribeSingleVPCEndpointById id w) = w ∧
  (callsOf (DescribeSingleVPCEndpointById id w) = []
   ∨ callsOf (DescribeSingleVPCEndpointById id w)
     = [CallDescribeVpcEndpoints (byId id)]).
Proof.
  destruct (decide (id = "")) as [->|Hid].
  - rewrite DescribeSingleVPCEndpointById_empty. split; [done | by left].
  - rewrite DescribeSingleVPCEndpointById_run by done. split; [done | by right].
Qed.

Lemma singleResult_one res resp :
  singleResult res = Ok (Some resp) →
  res = inr resp ∧ length (ec2.VpcEndpoints resp) = 1%nat.
Proof.
  unfold singleResult. destruct res as [[code msg|s]|resp']; [| done |].
  - destruct (decide (code = _)); discriminate.
  - destruct (decide (length (ec2.VpcEndpoints resp') ≠ 1%nat)) as [|Hone];
      [discriminate|].
    intros [= ->]. split; [done|]. apply dec_stable in Hone. done.
Qed.

Lemma FilterVPCEndpointByDefaultTags_empty (vpceNameTag : string) (w : W) :
  FilterVPCEndpointByDefaultTags "" vpceNameTag w
  = (Ok (Some {| ec2.VpcEndpoints := [] |}), w, []).
Proof. reflexivity. Qed.

Lemma FilterVPCEndpointByDefaultTags_run (clusterTag vpceNameTag : string) (w : W) :
  clusterTag ≠ "" →
  FilterVPCEndpointByDefaultTags clusterTag vpceNameTag w
  = (match EC2API_DescribeVpcEndpoints (byDefaultTags clusterTag vpceNameTag) w with
     | inl err => Err err
     | inr resp => Ok (Some resp)
     end, w, [CallDescribeVpcEndpoints (byDefaultTags clusterTag vpceNameTag)]).
Proof.
  intros Htag. unfold FilterVPCEndpointByDefaultTags, byDefaultTags,
    callDescribeVpcEndpoints.
  destruct (decide (clusterTag = "")) as [|_]; [done|]. unfold_monad.
  destruct (EC2API_DescribeVpcEndpoints _ w); reflexivity.
Qed.

Lemma FilterVPCEndpointByDefaultTags_reads (clusterTag vpceNameTag : string) (w : W) :
  cloudOf (FilterVPCEndpointByDefaultTags clusterTag vpceNameTag w) = w ∧
  filter isCreate (callsOf (FilterVPCEndpointByDefaultTags clusterTag vpceNameTag w)) = [].
Proof.
  destruct (decide (clusterTag = "")) as [->|Htag].
  - by rewrite FilterVPCEndpointByDefaultTags_empty.
  - by rewrite FilterVPCEndpointByDefaultTags_run.
Qed.

Lemma generateRoute53Record_run (resource : avov1alpha1.VpcEndpoint) (w : W) :
  recordedId resource ≠ "" →
  generateRoute53Record resource w
  = (match singleResult (EC2API_DescribeVpcEndpoints (byId (recordedId resource)) w) with
     | Ok None => Ok None
     | Ok (Some resp) =>
         match ec2.VpcEndpoints resp with
         | [] => Ok None
         | vpce :: _ => recordOf vpce
         end
     | Err e => Err e
     | Panic => Panic
     end, w, [CallDescribeVpcEndpoints (byId (recordedId resource))]).
Proof.
  unfold recordedId. set (id := avov1alpha1.VPCEndpointId _).
  intros Hid. unfold generateRoute53Record. fold id.
  destruct (decide (id = "")) as [|_]; [done|].
  unfold mbind at 1, M_bind at 1, bind.
  rewrite DescribeSingleVPCEndpointById_run by done.
  destruct (singleResult _) as [[resp|]|e|]; try reflexivity.
  unfold noEndpoints, firstEndpoint, recordOf.
  destruct (ec2.VpcEndpoints resp) as [|vpce rest]; [reflexivity|]. simpl.
  unfold_monad. unfold deref. simpl.
  destruct (ec2.State vpce) as [state|]; [|reflexivity]. simpl. unfold_monad.
  destruct (decide (state ≠ "available")); [reflexivity|].
  destruct (ec2.DnsEntries vpce); reflexivity.
Qed.

Lemma firstEndpoint_run resp (w : W) : firstEndpoint resp w = (firstOf resp, w, []).
Proof.
  unfold firstEndpoint, firstOf. destruct resp as [resp|]; [|done].
  destruct (ec2.VpcEndpoints resp); done.
Qed.

Lemma firstOf_found resp : noEndpoints resp = false → ∃ vpce, firstOf resp = Ok vpce.
Proof.
  unfold noEndpoints, firstOf. destruct resp as [resp|]; [|done].
  destruct (ec2.VpcEndpoints resp) as [|vpce rest]; [done | eauto].
Qed.

(** The locator is the step-by-step form. *)
Lemma findOrCreateVpcEndpoint_run nameTag r resource (w : W) :
  findOrCreateVpcEndpoint nameTag r resource w = locate nameTag r resource w.
Proof.
  unfold findOrCreateVpcEndpoint, locate, recordedId.
  set (id := avov1alpha1.VPCEndpointId (avov1alpha1.Status resource)).
  unfold mbind at 1, M_bind at 1, bind.
  destruct (DescribeSingleVPCEndpointById_reads id w) as [Hw _].
  destruct (DescribeSingleVPCEndpointById id w) as [[o1 w1] l1].
  unfold outcomeOf, cloudOf, callsOf in *. simpl in *. subst w1.
  destruct o1 as [byId|e|]; [|done|done].
  destruct (noEndpoints byId).
  2:{ rewrite firstEndpoint_run. by rewrite app_nil_r. }
  unfold deref. destruct (r_clusterInfo r) as [ci|]; unfold_monad; simpl;
    [|by rewrite app_nil_r].
  destruct (FilterVPCEndpointByDefaultTags_reads (clusterTag ci) nameTag w) as [Hw _].
  destruct (FilterVPCEndpointByDefaultTags (clusterTag ci) nameTag w) as [[o2 w2] l2].
  unfold outcomeOf, cloudOf, callsOf in *. simpl in *. subst w2.
  destruct o2 as [byTag|e|]; [|done|done].
  destruct (noEndpoints byTag).
  2:{ rewrite firstEndpoint_run. by rewrite app_nil_r. }
  destruct (GenerateVPCEndpointName _ _) as [err|name]; [by rewrite app_nil_r|].
  unfold wrapErr, CreateDefaultInterfaceVPCEndpoint, creationInput, callCreateVpcEndpoint.
  destruct (GenerateAwsTags name (clusterTag ci)) as [err|tags]; simpl;
    [by rewrite app_nil_r|].
  unfold_monad.
  destruct (EC2API_CreateVpcEndpoint _ w) as [[err|resp] w']; simpl; [done|].
  unfold createdOf. simpl.
  destruct (ec2.VpcEndpoint_ resp) as [vpce|]; simpl; [|done].
  destruct (ec2.VpcEndpointId vpce); simpl; by rewrite ?app_nil_r.
Qed.

Lemma DescribeSingleVPCEndpointById_no_create (id : string) (w : W) :
  filter isCreate (callsOf (DescribeSingleVPCEndpointById id w)) = [] ∧
  filter isTagSearch (callsOf (DescribeSingleVPCEndpointById id w)) = [] ∧
  filter isMutating (callsOf (DescribeSingleVPCEndpointById id w)) = [].
Proof.
  destruct (DescribeSingleVPCEndpointById_reads id w) as [_ [-> | ->]]; done.
Qed.

(** The requests of the two lookups, and when they yield nothing. *)
Lemma DescribeSingleVPCEndpointById_calls (id : string) (w : W) :
  callsOf (DescribeSingleVPCEndpointById id w) = lookupRequests id.
Proof.
  unfold lookupRequests. destruct (decide (id = "")) as [->|Hid].
  - by rewrite DescribeSingleVPCEndpointById_empty.
  - by rewrite DescribeSingleVPCEndpointById_run.
Qed.

Lemma FilterVPCEndpointByDefaultTags_calls (clusterTag vpceNameTag : string) (w : W) :
  callsOf (FilterVPCEndpointByDefaultTags clusterTag vpceNameTag w)
  = searchRequests clusterTag vpceNameTag.
Proof.
  unfold searchRequests. destruct (decide (clusterTag = "")) as [->|Htag].
  - by rewrite FilterVPCEndpointByDefaultTags_empty.
  - by rewrite FilterVPCEndpointByDefaultTags_run.
Qed.

Lemma lookupRequests_reads (id : string) :
  filter isTagSearch (lookupRequests id) = [] ∧
  filter isCreate (lookupRequests id) = [].
Proof. unfold lookupRequests. by destruct (decide (id = "")). Qed.

Lemma lookupYieldsNothing_iff (id : string) (w : W) :
  lookupYieldsNothing id w ↔
  ∃ found, outcomeOf (DescribeSingleVPCEndpointById id w) = Ok found ∧
           noEndpoints found = true.
Proof.
  unfold lookupYieldsNothing. destruct (decide (id = "")) as [->|Hid].
  - rewrite DescribeSingleVPCEndpointById_empty. split; [|by left].
    intros _. by eexists.
  - rewrite DescribeSingleVPCEndpointById_run by done.
    unfold outcomeOf, singleResult. simpl. split.
    + intros [?|[message ->]]; [done|]. by exists None.
    + intros (found & Hres & Hno). right.
      destruct (EC2API_DescribeVpcEndpoints _ w) as [[code message|s]|resp];
        [| done |].
      * destruct (decide (code = "InvalidVpcEndpointId.NotFound")) as [->|];
          [by eexists | done].
      * destruct (decide (length (ec2.VpcEndpoints resp) ≠ 1%nat)) as [|Hone];
          [done|].
        injection Hres as <-. apply dec_stable in Hone. simpl in Hno.
        apply bool_decide_eq_true in Hno. congruence.
Qed.

Lemma searchYieldsNothing_iff (clusterTag vpceNameTag : string) (w : W) :
  searchYieldsNothing clusterTag vpceNameTag w ↔
  ∃ found, outcomeOf (FilterVPCEndpointByDefaultTags clusterTag vpceNameTag w)
           = Ok found ∧
           noEndpoints found = true.
Proof.
  unfold searchYieldsNothing. destruct (decide (clusterTag = "")) as [->|Htag].
  - rewrite FilterVPCEndpointByDefaultTags_empty. split; [|by left].
    intros _. by eexists.
  - rewrite FilterVPCEndpointByDefaultTags_run by done. unfold outcomeOf. simpl.
    split.
    + intros [?|(resp & -> & Hnone)]; [done|]. exists (Some resp).
      split; [done|]. simpl. by rewrite Hnone.
    + intros (byTag & Hres & Hno). right.
      destruct (EC2API_DescribeVpcEndpoints _ w) as [err|resp]; [done|].
      injection Hres as <-. exists resp. split; [done|]. simpl in Hno.
      apply bool_decide_eq_true in Hno. by apply nil_length_inv.
Qed.

(** The locator when the lookup by identifier returns an endpoint. *)
Lemma findOrCreateVpcEndpoint_found nameTag r resource (w : W) vpce :
  recordedId resource ≠ "" →
  EC2API_DescribeVpcEndpoints (byId (recordedId resource)) w
  = inr {| ec2.VpcEndpoints := [vpce] |} →
  findOrCreateVpcEndpoint nameTag r resource w
  = (Ok vpce, w, [CallDescribeVpcEndpoints (byId (recordedId resource))]).
Proof.
  intros Hid Hdesc. rewrite findOrCreateVpcEndpoint_run. unfold locate.
  rewrite DescribeSingleVPCEndpointById_run by done. by rewrite Hdesc.
Qed.

(** The locator when the lookup by identifier yields nothing. *)
Lemma findOrCreateVpcEndpoint_missed nameTag r resource (w : W) ci :
  lookupYieldsNothing (recordedId resource) w →
  r_clusterInfo r = Some ci →
  findOrCreateVpcEndpoint nameTag r resource w
  = let requests :=
      lookupRequests (recordedId resource)
      ++ searchRequests (clusterTag ci) nameTag in
    match outcomeOf (FilterVPCEndpointByDefaultTags (clusterTag ci) nameTag w) with
    | Err e => (Err e, w, requests)
    | Panic => (Panic, w, requests)
    | Ok byTag =>
        if noEndpoints byTag then
          match GenerateVPCEndpointName (infraName ci) (avov1alpha1.Name resource) with
          | inl err => (Err err, w, requests)
          | inr name =>
              match GenerateAwsTags name (clusterTag ci) with
              | inl err =>
                  (Err (errorString ("failed to create vpc endpoint: "
                                     +:+ Error err)), w, requests)
              | inr tags =>
                  let input := creationInput ci resource tags in
                  (createdOf (EC2API_CreateVpcEndpoint input w).1,
                   (EC2API_CreateVpcEndpoint input w).2,
                   requests ++ [CallCreateVpcEndpoint input])
              end
          end
        else (firstOf byTag, w, requests)
    end.
Proof.
  intros Hmiss Hci. apply lookupYieldsNothing_iff in Hmiss as (found & Ho1 & Hno1).
  rewrite findOrCreateVpcEndpoint_run. unfold locate.
  rewrite DescribeSingleVPCEndpointById_calls, Ho1, Hno1, Hci.
  rewrite FilterVPCEndpointByDefaultTags_calls. simpl.
  destruct (outcomeOf (FilterVPCEndpointByDefaultTags _ _ w)) as [byTag|e|];
    [|done|done].
  destruct (noEndpoints byTag); [|done].
  destruct (GenerateVPCEndpointName _ _) as [err|name]; [done|].
  destruct (GenerateAwsTags _ _) as [err|tags]; [done|].
  by rewrite app_assoc.
Qed.

Lemma ModifyVpcEndpoint_run (input : ec2.ModifyVpcEndpointInput.t) (w : W) :
  ModifyVpcEndpoint input w
  = (match (EC2API_ModifyVpcEndpoint input w).1 with
     | inl err => Err err
     | inr out => Ok out
     end, (EC2API_ModifyVpcEndpoint input w).2, [CallModifyVpcEndpoint input]).
Proof.
  unfold ModifyVpcEndpoint, callModifyVpcEndpoint. unfold_monad.
  destruct (EC2API_ModifyVpcEndpoint input w) as [[err|out] w']; reflexivity.
Qed.

Lemma diffVpcEndpointSubnets_run r vpce (w : W) ci :
  r_clusterInfo r = Some ci →
  clusterTag ci ≠ "" →
  diffVpcEndpointSubnets r vpce w
  = (match DescribePrivateSubnets (clusterTag ci) w with
     | inl err => Err err
     | inr subnetsResp => Ok (subnetDiff vpce subnetsResp)
     end, w, [CallDescribePrivateSubnets (clusterTag ci)]).
Proof.
  intros Hci Htag. unfold diffVpcEndpointSubnets, subnetDiff,
    callDescribePrivateSubnets. rewrite Hci.
  destruct (decide (clusterTag ci = "")) as [|_]; [done|]. unfold_monad.
  destruct (DescribePrivateSubnets (clusterTag ci) w); reflexivity.
Qed.

(** The subnet synchronizer, once the diff is known. *)
Lemma ensureVpcEndpointSubnets_run r vpce (w : W) ci subnetsResp :
  r_clusterInfo r = Some ci →
  clusterTag ci ≠ "" →
  DescribePrivateSubnets (clusterTag ci) w = inr subnetsResp →
  let toAdd := (subnetDiff vpce subnetsResp).1 in
  let toRemove := (subnetDiff vpce subnetsResp).2 in
  let removal := EC2API_ModifyVpcEndpoint (removeSubnets toRemove vpce) w in
  let w1 := if decide (0 < length toRemove)%nat then removal.2 else w in
  let addition := EC2API_ModifyVpcEndpoint (addSubnets toAdd vpce) w1 in
  ensureVpcEndpointSubnets r vpce w
  = if decide (0 < length toRemove)%nat then
      match removal.1 with
      | inl err =>
          (Err err, w1,
           [CallDescribePrivateSubnets (clusterTag ci);
            CallModifyVpcEndpoint (removeSubnets toRemove vpce)])
      | inr _ =>
          if decide (0 < length toAdd)%nat then
            (match addition.1 with inl err => Err err | inr out => Ok out end,
             addition.2,
             [CallDescribePrivateSubnets (clusterTag ci);
              CallModifyVpcEndpoint (removeSubnets toRemove vpce);
              CallModifyVpcEndpoint (addSubnets toAdd vpce)])
          else
            (Ok (), w1,
             [CallDescribePrivateSubnets (clusterTag ci);
              CallModifyVpcEndpoint (removeSubnets toRemove vpce)])
      end
    else if decide (0 < length toAdd)%nat then
      (match addition.1 with inl err => Err err | inr out => Ok out end,
       addition.2,
       [CallDescribePrivateSubnets (clusterTag ci);
        CallModifyVpcEndpoint (addSubnets toAdd vpce)])
    else (Ok (), w, [CallDescribePrivateSubnets (clusterTag ci)]).
Proof.
  intros Hci Htag Hsub. simpl.
  unfold ensureVpcEndpointSubnets.
  unfold mbind at 1, M_bind at 1, bind.
  rewrite (diffVpcEndpointSubnets_run r vpce w ci) by done. rewrite Hsub.
  destruct (subnetDiff vpce subnetsResp) as [toAdd toRemove]. simpl.
  unfold mbind, M_bind, bind. fold (removeSubnets toRemove vpce).
  fold (addSubnets toAdd vpce).
  destruct (decide (0 < length toRemove)%nat).
  - rewrite ModifyVpcEndpoint_run.
    destruct (EC2API_ModifyVpcEndpoint (removeSubnets toRemove vpce) w)
      as [[err|[]] w1]; simpl; [done|].
    destruct (decide (0 < length toAdd)%nat).
    + rewrite ModifyVpcEndpoint_run.
      destruct (EC2API_ModifyVpcEndpoint (addSubnets toAdd vpce) w1)
        as [[err|[]] w2]; done.
    + done.
  - unfold mret, M_ret, ret. simpl.
    destruct (decide (0 < length toAdd)%nat).
    + rewrite ModifyVpcEndpoint_run.
      destruct (EC2API_ModifyVpcEndpoint (addSubnets toAdd vpce) w)
        as [[err|[]] w2]; done.
    + done.
Qed.

(** The security-group synchronizer. *)
Lemma ensureVpcEndpointSecurityGroups_run vpce resource (w : W) :
  let toAdd := (securityGroupDiff vpce resource).1 in
  let toRemove := (securityGroupDiff vpce resource).2 in
  let addition := EC2API_ModifyVpcEndpoint (addSecurityGroups toAdd vpce) w in
  let w1 := if decide (0 < length toAdd)%nat then addition.2 else w in
  let removal := EC2API_ModifyVpcEndpoint (removeSecurityGroups toRemove vpce) w1 in
  ensureVpcEndpointSecurityGroups vpce resource w
  = if decide (0 < length toAdd)%nat then
      match addition.1 with
      | inl err =>
          (Err err, w1, [CallModifyVpcEndpoint (addSecurityGroups toAdd vpce)])
      | inr _ =>
          if decide (0 < length toRemove)%nat then
            (match removal.1 with inl err => Err err | inr out => Ok out end,
             removal.2,
             [CallModifyVpcEndpoint (addSecurityGroups toAdd vpce);
              CallModifyVpcEndpoint (removeSecurityGroups toRemove vpce)])
          else (Ok (), w1, [CallModifyVpcEndpoint (addSecurityGroups toAdd vpce)])
      end
    else if decide (0 < length toRemove)%nat then
      (match removal.1 with inl err => Err err | inr out => Ok out end,
       removal.2,
       [CallModifyVpcEndpoint (removeSecurityGroups toRemove vpce)])
    else (Ok (), w, []).
Proof.
  simpl. unfold ensureVpcEndpointSecurityGroups, diffVpcEndpointSecurityGroups.
  unfold mbind at 1, M_bind at 1, bind. unfold mret at 1, M_ret at 1, ret.
  fold (securityGroupDiff vpce resource).
  destruct (securityGroupDiff vpce resource) as [toAdd toRemove]. simpl.
  unfold mbind, M_bind, bind. fold (removeSecurityGroups toRemove vpce).
  fold (addSecurityGroups toAdd vpce).
  destruct (decide (0 < length toAdd)%nat).
  - rewrite ModifyVpcEndpoint_run.
    destruct (EC2API_ModifyVpcEndpoint (addSecurityGroups toAdd vpce) w)
      as [[err|[]] w1]; simpl; [done|].
    destruct (decide (0 < length toRemove)%nat).
    + rewrite ModifyVpcEndpoint_run.
      destruct (EC2API_ModifyVpcEndpoint (removeSecurityGroups toRemove vpce) w1)
        as [[err|[]] w2]; done.
    + done.
  - unfold mret, M_ret, ret. simpl.
    destruct (decide (0 < length toRemove)%nat).
    + rewrite ModifyVpcEndpoint_run.
      destruct (EC2API_ModifyVpcEndpoint (removeSecurityGroups toRemove vpce) w)
        as [[err|[]] w2]; done.
    + done.
Qed.

End ClientFacts.

Section ClientTheorems.
Context {W : Type} `{!VpcEndpointEC2API W, !PrivateSubnetsAPI W, !Util}.

(** C10: for the empty identifier [DescribeSingleVPCEndpointById] returns
    an empty result and no error and issues no request; for a non-empty
    identifier it issues its one describe request, an answer that holds a
    number of endpoints other than one becomes an error, and a response it
    returns holds exactly one endpoint. *)
Theorem DescribeSingleVPCEndpointById_exactly_one (id : string) (w : W) :
  id ≠ "" →
  DescribeSingleVPCEndpointById "" w
  = (Ok (Some {| ec2.VpcEndpoints := [] |}), w, []) ∧
  callsOf (DescribeSingleVPCEndpointById id w)
  = [CallDescribeVpcEndpoints (byId id)] ∧
  (∀ resp, EC2API_DescribeVpcEndpoints (byId id) w = inr resp →
           length (ec2.VpcEndpoints resp) ≠ 1%nat →
           outcomeOf (DescribeSingleVPCEndpointById id w)
           = Err (errorString ("expected 1 VPC endpoint, got "
                               +:+ pretty (length (ec2.VpcEndpoints resp))))) ∧
  (∀ resp, outcomeOf (DescribeSingleVPCEndpointById id w) = Ok (Some resp) →
           length (ec2.VpcEndpoints resp) = 1%nat).
Proof.
  intros Hid. split; [reflexivity|].
  rewrite DescribeSingleVPCEndpointById_run by done. unfold_monad. simpl.
  split; [reflexivity|]. split.
  - intros resp -> Hlen. simpl.
    destruct (decide (length (ec2.VpcEndpoints resp) ≠ 1%nat)); done.
  - intros resp Hres. by apply singleResult_one in Hres as [_ ?].
Qed.

(** C8: for an endpoint that the lookup has found, [generateRoute53Record]
    fails when the state is not [available], whatever the DNS entries;
    fails when the state is [available] and there are no DNS entries; and
    otherwise returns the name of the first DNS entry as it is. *)
Theorem generateRoute53Record_found (resource : avov1alpha1.VpcEndpoint) (w : W)
    (vpce : ec2.VpcEndpoint) :
  recordedId resource ≠ "" →
  EC2API_DescribeVpcEndpoints (byId (recordedId resource)) w
  = inr {| ec2.VpcEndpoints := [vpce] |} →
  (ec2.State vpce ≠ Some "available" →
     ∀ record, outcomeOf (generateRoute53Record resource w) ≠ Ok record) ∧
  (∀ state, ec2.State vpce = Some state → state ≠ "available" →
     outcomeOf (generateRoute53Record resource w)
     = Err (errorString "VPCEndpoint is not in the available state")) ∧
  (ec2.State vpce = Some "available" → ec2.DnsEntries vpce = [] →
     outcomeOf (generateRoute53Record resource w)
     = Err (errorString "VPCEndpoint has no DNS entries")) ∧
  (∀ entry rest, ec2.State vpce = Some "available" →
     ec2.DnsEntries vpce = entry :: rest →
     outcomeOf (generateRoute53Record resource w)
     = Ok (Some {| route53.Value := ec2.DnsName entry |})).
Proof.
  intros Hid Hdesc.
  rewrite generateRoute53Record_run by done. rewrite Hdesc.
  unfold_monad. simpl. unfold recordOf.
  split; [|split; [|split]].
  - intros Hstate record. destruct (ec2.State vpce) as [state|]; [|done].
    destruct (decide (state ≠ "available")) as [|Heq]; [done|].
    apply dec_stable in Heq. congruence.
  - intros state -> Hne. destruct (decide (state ≠ "available")); done.
  - intros -> ->. reflexivity.
  - intros entry rest -> ->. reflexivity.
Qed.

(** C6, as the code has it: when the recorded identifier is not empty and
    the cloud answers that no endpoint has it, [generateRoute53Record]
    returns no record and no error. *)
Theorem generateRoute53Record_absent (resource : avov1alpha1.VpcEndpoint) (w : W)
    (message : string) :
  recordedId resource ≠ "" →
  EC2API_DescribeVpcEndpoints (byId (recordedId resource)) w
  = inl (APIError "InvalidVpcEndpointId.NotFound" message) →
  generateRoute53Record resource w
  = (Ok None, w, [CallDescribeVpcEndpoints (byId (recordedId resource))]).
Proof.
  intros Hid Hdesc.
  rewrite generateRoute53Record_run by done. by rewrite Hdesc.
Qed.

(** C1, as the code has it: when both sides of both diffs are non-empty,
    the subnet synchronizer issues the removal request first and the
    addition request after it (and only if the removal succeeded), while
    the security-group synchronizer issues the addition request first and
    the removal request after it (and only if the addition succeeded). *)
Theorem attachment_request_order (r : VpcEndpointReconciler)
    (vpce : ec2.VpcEndpoint) (resource : avov1alpha1.VpcEndpoint) (w : W)
    (ci : clusterInfo) (subnetsResp : ec2.DescribeSubnetsOutput) :
  r_clusterInfo r = Some ci →
  clusterTag ci ≠ "" →
  DescribePrivateSubnets (clusterTag ci) w = inr subnetsResp →
  (subnetDiff vpce subnetsResp).1 ≠ [] →
  (subnetDiff vpce subnetsResp).2 ≠ [] →
  (securityGroupDiff vpce resource).1 ≠ [] →
  (securityGroupDiff vpce resource).2 ≠ [] →
  callsOf (ensureVpcEndpointSubnets r vpce w)
  = [CallDescribePrivateSubnets (clusterTag ci);
     CallModifyVpcEndpoint (removeSubnets (subnetDiff vpce subnetsResp).2 vpce)]
    ++ match (EC2API_ModifyVpcEndpoint
                (removeSubnets (subnetDiff vpce subnetsResp).2 vpce) w).1 with
       | inl _ => []
       | inr _ =>
           [CallModifyVpcEndpoint (addSubnets (subnetDiff vpce subnetsResp).1 vpce)]
       end ∧
  callsOf (ensureVpcEndpointSecurityGroups vpce resource w)
  = [CallModifyVpcEndpoint
       (addSecurityGroups (securityGroupDiff vpce resource).1 vpce)]
    ++ match (EC2API_ModifyVpcEndpoint
                (addSecurityGroups (securityGroupDiff vpce resource).1 vpce) w).1 with
       | inl _ => []
       | inr _ =>
           [CallModifyVpcEndpoint
              (removeSecurityGroups (securityGroupDiff vpce resource).2 vpce)]
       end.
Proof.
  intros Hci Htag Hsub Ha Hr Hga Hgr.
  assert (Hlen : ∀ l : list string, l ≠ [] → (0 < length l)%nat)
    by (intros [|? ?] ?; simpl; [done | lia]).
  split.
  - rewrite (ensureVpcEndpointSubnets_run r vpce w ci subnetsResp) by done.
    destruct (decide (0 < length (subnetDiff vpce subnetsResp).2)%nat) as [_|Hn];
      [|by apply Hlen in Hr].
    destruct (EC2API_ModifyVpcEndpoint _ w).1; [done|].
    destruct (decide (0 < length (subnetDiff vpce subnetsResp).1)%nat) as [_|Hn];
      [done | by apply Hlen in Ha].
  - rewrite ensureVpcEndpointSecurityGroups_run.
    destruct (decide (0 < length (securityGroupDiff vpce resource).1)%nat) as [_|Hn];
      [|by apply Hlen in Hga].
    destruct (EC2API_ModifyVpcEndpoint _ w).1; [done|].
    destruct (decide (0 < length (securityGroupDiff vpce resource).2)%nat) as [_|Hn];
      [done | by apply Hlen in Hgr].
Qed.

Lemma findOrCreateVpcEndpoint_creations nameTag r resource (w : W) :
  filter isCreate (callsOf (findOrCreateVpcEndpoint nameTag r resource w))
  = creations nameTag r resource w.
Proof.
  rewrite findOrCreateVpcEndpoint_run. unfold locate, creations.
  destruct (DescribeSingleVPCEndpointById_no_create (recordedId resource) w)
    as (Hc1 & _ & _).
  destruct (DescribeSingleVPCEndpointById (recordedId resource) w) as [[o1 w1] l1].
  unfold outcomeOf, callsOf in *. simpl in *.
  destruct o1 as [byId|e|]; simpl; [|done|done].
  destruct (noEndpoints byId); simpl.
  2:{ destruct (r_clusterInfo r) as [ci|]; [|done].
      by destruct (FilterVPCEndpointByDefaultTags (clusterTag ci) nameTag w).1.1. }
  destruct (r_clusterInfo r) as [ci|]; [|done].
  destruct (FilterVPCEndpointByDefaultTags_reads (clusterTag ci) nameTag w) as [_ Hc2].
  destruct (FilterVPCEndpointByDefaultTags (clusterTag ci) nameTag w) as [[o2 w2] l2].
  unfold outcomeOf, callsOf in *. simpl in *.
  destruct o2 as [byTag|e|]; simpl; rewrite ?filter_app, ?Hc1, ?Hc2; try done.
  destruct (noEndpoints byTag); simpl; rewrite ?filter_app, ?Hc1, ?Hc2; try done.
  destruct (GenerateVPCEndpointName _ _) as [err|name]; simpl;
    rewrite ?filter_app, ?Hc1, ?Hc2; try done.
  destruct (GenerateAwsTags _ _) as [err|tags]; simpl;
    rewrite ?filter_app, ?Hc1, ?Hc2; done.
Qed.

(** C9: the locator takes its three steps in strict order, each only if the
    previous one has yielded nothing.  (1) When the lookup by identifier
    returns an endpoint, that endpoint is the result and the lookup's
    request is the only request: no tag search, no creation.  (2) When the
    lookup yields nothing and the tag search returns endpoints, the first
    of them is the result and the requests are the lookup's followed by the
    tag search: no creation.  (3) When both yield nothing and the name and
    the tags can be generated, the requests are the lookup's, the tag
    search's and then exactly one creation request, which carries the tags
    generated from the synthesized name and the cluster tag.  (4) In every
    run the requests are the lookup's, then at most the tag search, then at
    most one creation request, in this order.  (5) A tag search is issued
    only if the lookup has yielded nothing, and a creation request only if
    the lookup and the tag search have both yielded nothing. *)
Theorem findOrCreateVpcEndpoint_steps (nameTag : string)
    (r : VpcEndpointReconciler) (resource : avov1alpha1.VpcEndpoint) (w : W) :
  let id := recordedId resource in
  let run := findOrCreateVpcEndpoint nameTag r resource w in
  (∀ vpce,
     id ≠ "" →
     EC2API_DescribeVpcEndpoints (byId id) w = inr {| ec2.VpcEndpoints := [vpce] |} →
     run = (Ok vpce, w, [CallDescribeVpcEndpoints (byId id)])) ∧
  (∀ ci resp vpce rest,
     lookupYieldsNothing id w →
     r_clusterInfo r = Some ci →
     clusterTag ci ≠ "" →
     EC2API_DescribeVpcEndpoints (byDefaultTags (clusterTag ci) nameTag) w
     = inr resp →
     ec2.VpcEndpoints resp = vpce :: rest →
     run = (Ok vpce, w,
            lookupRequests id
            ++ [CallDescribeVpcEndpoints (byDefaultTags (clusterTag ci) nameTag)])) ∧
  (∀ ci name tags,
     lookupYieldsNothing id w →
     r_clusterInfo r = Some ci →
     searchYieldsNothing (clusterTag ci) nameTag w →
     GenerateVPCEndpointName (infraName ci) (avov1alpha1.Name resource) = inr name →
     GenerateAwsTags name (clusterTag ci) = inr tags →
     run = (createdOf (EC2API_CreateVpcEndpoint (creationInput ci resource tags) w).1,
            (EC2API_CreateVpcEndpoint (creationInput ci resource tags) w).2,
            lookupRequests id
            ++ searchRequests (clusterTag ci) nameTag
            ++ [CallCreateVpcEndpoint (creationInput ci resource tags)])) ∧
  (∃ search create,
     callsOf run = lookupRequests id ++ search ++ create ∧
     (search = [] ∨
      ∃ ci, r_clusterInfo r = Some ci ∧
            search
            = [CallDescribeVpcEndpoints (byDefaultTags (clusterTag ci) nameTag)]) ∧
     (create = [] ∨
      ∃ ci name tags,
        r_clusterInfo r = Some ci ∧
        GenerateVPCEndpointName (infraName ci) (avov1alpha1.Name resource)
        = inr name ∧
        GenerateAwsTags name (clusterTag ci) = inr tags ∧
        create = [CallCreateVpcEndpoint (creationInput ci resource tags)])) ∧
  (filter isTagSearch (callsOf run) ≠ [] → lookupYieldsNothing id w) ∧
  (filter isCreate (callsOf run) ≠ [] →
     lookupYieldsNothing id w ∧
     ∃ ci, r_clusterInfo r = Some ci ∧
           searchYieldsNothing (clusterTag ci) nameTag w) ∧
  (length (filter isCreate (callsOf run)) ≤ 1)%nat.
Proof.
  intros id run. subst id run.
  split; [|split; [|split; [|split; [|split; [|split]]]]].
  - intros vpce Hid Hdesc. by apply findOrCreateVpcEndpoint_found.
  - intros ci resp vpce rest Hmiss Hci Htag Hdesc Hfirst.
    rewrite (findOrCreateVpcEndpoint_missed nameTag r resource w ci) by done.
    rewrite FilterVPCEndpointByDefaultTags_run by done. rewrite Hdesc.
    unfold outcomeOf, searchRequests, firstOf. simpl. rewrite Hfirst. simpl.
    by destruct (decide (clusterTag ci = "")).
  - intros ci name tags Hmiss Hci Hnone Hname Htags.
    rewrite (findOrCreateVpcEndpoint_missed nameTag r resource w ci) by done.
    apply searchYieldsNothing_iff in Hnone as (found & -> & ->).
    simpl. rewrite Hname, Htags. by rewrite <- app_assoc.
  - rewrite findOrCreateVpcEndpoint_run. unfold locate.
    rewrite DescribeSingleVPCEndpointById_calls.
    assert (Hstop : ∀ (o : outcome ec2.VpcEndpoint) (w' : W),
              ∃ search create,
                callsOf (o, w', lookupRequests (recordedId resource))
                = lookupRequests (recordedId resource) ++ search ++ create ∧
                (search = [] ∨
                 ∃ ci, r_clusterInfo r = Some ci ∧
                       search = [CallDescribeVpcEndpoints
                                   (byDefaultTags (clusterTag ci) nameTag)]) ∧
                (create = [] ∨
                 ∃ ci name tags,
                   r_clusterInfo r = Some ci ∧
                   GenerateVPCEndpointName (infraName ci) (avov1alpha1.Name resource)
                   = inr name ∧
                   GenerateAwsTags name (clusterTag ci) = inr tags ∧
                   create = [CallCreateVpcEndpoint (creationInput ci resource tags)])).
    { intros o w'. exists [], []. rewrite !app_nil_r. split; [done|].
      split; by left. }
    destruct (outcomeOf (DescribeSingleVPCEndpointById _ w)) as [found|e|];
      [|apply Hstop|apply Hstop].
    destruct (noEndpoints found); [|apply Hstop].
    destruct (r_clusterInfo r) as [ci|] eqn:Hci; [|apply Hstop].
    rewrite FilterVPCEndpointByDefaultTags_calls.
    assert (Hsearch :
              searchRequests (clusterTag ci) nameTag = [] ∨
              ∃ ci', Some ci = Some ci' ∧
                     searchRequests (clusterTag ci) nameTag
                     = [CallDescribeVpcEndpoints
                          (byDefaultTags (clusterTag ci') nameTag)]).
    { unfold searchRequests. destruct (decide (clusterTag ci = "")); [by left|].
      right. by exists ci. }
    assert (Hgo : ∀ (o : outcome ec2.VpcEndpoint) (w' : W),
              ∃ search create,
                callsOf (o, w', lookupRequests (recordedId resource)
                                ++ searchRequests (clusterTag ci) nameTag)
                = lookupRequests (recordedId resource) ++ search ++ create ∧
                (search = [] ∨
                 ∃ ci', Some ci = Some ci' ∧
                        search = [CallDescribeVpcEndpoints
                                    (byDefaultTags (clusterTag ci') nameTag)]) ∧
                (create = [] ∨
                 ∃ ci' name tags,
                   Some ci = Some ci' ∧
                   GenerateVPCEndpointName (infraName ci') (avov1alpha1.Name resource)
                   = inr name ∧
                   GenerateAwsTags name (clusterTag ci') = inr tags ∧
                   create = [CallCreateVpcEndpoint (creationInput ci' resource tags)])).
    { intros o w'. exists (searchRequests (clusterTag ci) nameTag), [].
      rewrite !app_nil_r. split; [done|]. split; [done | by left]. }
    destruct (outcomeOf (FilterVPCEndpointByDefaultTags _ _ w)) as [byTag|e|];
      [|apply Hgo|apply Hgo].
    destruct (noEndpoints byTag); [|apply Hgo].
    destruct (GenerateVPCEndpointName _ _) as [err|name] eqn:Hname; [apply Hgo|].
    destruct (GenerateAwsTags _ _) as [err|tags] eqn:Htags; [apply Hgo|].
    exists (searchRequests (clusterTag ci) nameTag),
           [CallCreateVpcEndpoint (creationInput ci resource tags)].
    split; [done|]. split; [done|]. right. by exists ci, name, tags.
  - rewrite findOrCreateVpcEndpoint_run. unfold locate.
    rewrite DescribeSingleVPCEndpointById_calls.
    destruct (lookupRequests_reads (recordedId resource)) as [Hnone _].
    destruct (outcomeOf (DescribeSingleVPCEndpointById _ w)) as [found|e|] eqn:Ho1;
      [|done|done].
    destruct (noEndpoints found) eqn:Hno1; [|done].
    intros _. apply lookupYieldsNothing_iff. by exists found.
  - rewrite findOrCreateVpcEndpoint_creations. unfold creations. intros Hne.
    destruct (outcomeOf (DescribeSingleVPCEndpointById _ w)) as [found|e|] eqn:Ho1;
      try done.
    destruct (r_clusterInfo r) as [ci|]; [|done].
    destruct (outcomeOf (FilterVPCEndpointByDefaultTags _ _ w)) as [byTag|e|] eqn:Ho2;
      try done.
    destruct (noEndpoints found) eqn:Hno1, (noEndpoints byTag) eqn:Hno2; try done.
    split; [apply lookupYieldsNothing_iff; by exists found|].
    exists ci. split; [done|]. apply searchYieldsNothing_iff. by exists byTag.
  - rewrite findOrCreateVpcEndpoint_creations. unfold creations.
    repeat (case_match; simpl; try lia).
Qed.

(** C5, what the code does: when the lookup by identifier returns nothing
    and the tag search returns two endpoints or more, the locator returns
    the first of them and no error. *)
Theorem findOrCreateVpcEndpoint_ambiguous_first (nameTag : string)
    (r : VpcEndpointReconciler) (resource : avov1alpha1.VpcEndpoint) (w : W)
    (ci : clusterInfo) (byId : option ec2.DescribeVpcEndpointsOutput)
    (first second : ec2.VpcEndpoint) (rest : list ec2.VpcEndpoint) :
  r_clusterInfo r = Some ci →
  outcomeOf (DescribeSingleVPCEndpointById (recordedId resource) w) = Ok byId →
  noEndpoints byId = true →
  outcomeOf (FilterVPCEndpointByDefaultTags (clusterTag ci) nameTag w)
  = Ok (Some {| ec2.VpcEndpoints := first :: second :: rest |}) →
  outcomeOf (findOrCreateVpcEndpoint nameTag r resource w) = Ok first.
Proof.
  intros Hci Ho1 Hno1 Ho2.
  rewrite findOrCreateVpcEndpoint_run. unfold locate.
  by rewrite Ho1, Hno1, Hci, Ho2.
Qed.

(** C7, as the code has it: the locator has no check of the cluster tag of
    its own.  With an empty cluster tag, (1) the tag search issues no
    request and returns an empty result and no error; (2) when the lookup
    by identifier returns an endpoint, the locator returns that endpoint
    and no error, after the lookup's one request; (3) when the lookup
    yields nothing, the locator goes to the creation step with the empty
    tag, where a failure of [GenerateVPCEndpointName] is returned as it is
    and a refusal of the empty tag by [GenerateAwsTags] is returned as
    [failed to create vpc endpoint: ...], in both cases with no request
    beyond the lookup's and the cloud unchanged; so that (4) with a
    [GenerateAwsTags] that refuses the empty tag, the locator fails
    whenever the lookup yields nothing; and (5) a creation request is
    issued only if the lookup has yielded nothing and [GenerateAwsTags]
    has accepted the empty tag. *)
Theorem findOrCreateVpcEndpoint_empty_cluster_tag (nameTag : string)
    (r : VpcEndpointReconciler) (resource : avov1alpha1.VpcEndpoint) (w : W)
    (ci : clusterInfo) :
  r_clusterInfo r = Some ci →
  clusterTag ci = "" →
  let id := recordedId resource in
  let run := findOrCreateVpcEndpoint nameTag r resource w in
  FilterVPCEndpointByDefaultTags (clusterTag ci) nameTag w
  = (Ok (Some {| ec2.VpcEndpoints := [] |}), w, []) ∧
  (∀ vpce,
     id ≠ "" →
     EC2API_DescribeVpcEndpoints (byId id) w = inr {| ec2.VpcEndpoints := [vpce] |} →
     run = (Ok vpce, w, [CallDescribeVpcEndpoints (byId id)])) ∧
  (∀ err,
     lookupYieldsNothing id w →
     GenerateVPCEndpointName (infraName ci) (avov1alpha1.Name resource) = inl err →
     run = (Err err, w, lookupRequests id)) ∧
  (∀ name err,
     lookupYieldsNothing id w →
     GenerateVPCEndpointName (infraName ci) (avov1alpha1.Name resource) = inr name →
     GenerateAwsTags name "" = inl err →
     run = (Err (errorString ("failed to create vpc endpoint: " +:+ Error err)),
            w, lookupRequests id)) ∧
  ((∀ name, ∃ err, GenerateAwsTags name "" = inl err) →
     lookupYieldsNothing id w →
     ∃ e, run = (Err e, w, lookupRequests id)) ∧
  (filter isCreate (callsOf run) ≠ [] →
     lookupYieldsNothing id w ∧
     ∃ name tags,
       GenerateVPCEndpointName (infraName ci) (avov1alpha1.Name resource) = inr name ∧
       GenerateAwsTags name "" = inr tags ∧
       callsOf run
       = lookupRequests id ++ [CallCreateVpcEndpoint (creationInput ci resource tags)]).
Proof.
  intros Hci Htag id run. subst id run.
  assert (Hmissed : lookupYieldsNothing (recordedId resource) w →
            findOrCreateVpcEndpoint nameTag r resource w
            = match GenerateVPCEndpointName (infraName ci) (avov1alpha1.Name resource) with
              | inl err => (Err err, w, lookupRequests (recordedId resource))
              | inr name =>
                  match GenerateAwsTags name "" with
                  | inl err =>
                      (Err (errorString ("failed to create vpc endpoint: "
                                         +:+ Error err)), w,
                       lookupRequests (recordedId resource))
                  | inr tags =>
                      (createdOf (EC2API_CreateVpcEndpoint
                                    (creationInput ci resource tags) w).1,
                       (EC2API_CreateVpcEndpoint (creationInput ci resource tags) w).2,
                       lookupRequests (recordedId resource)
                       ++ [CallCreateVpcEndpoint (creationInput ci resource tags)])
                  end
              end).
  { intros Hmiss.
    rewrite (findOrCreateVpcEndpoint_missed nameTag r resource w ci) by done.
    rewrite Htag, FilterVPCEndpointByDefaultTags_empty. unfold searchRequests.
    simpl. rewrite !app_nil_r.
    destruct (GenerateVPCEndpointName _ _) as [err|name]; [done|].
    by destruct (GenerateAwsTags name "") as [err|tags]. }
  split; [rewrite Htag; apply FilterVPCEndpointByDefaultTags_empty|].
  split; [intros vpce Hid Hdesc; by apply findOrCreateVpcEndpoint_found|].
  split; [|split; [|split]].
  - intros err Hmiss Hname. by rewrite Hmissed, Hname.
  - intros name err Hmiss Hname Htags. by rewrite Hmissed, Hname, Htags.
  - intros Hrefuse Hmiss. rewrite Hmissed by done.
    destruct (GenerateVPCEndpointName _ _) as [err|name]; [by eexists|].
    destruct (Hrefuse name) as [err ->]. by eexists.
  - intros Hne.
    assert (Hmiss : lookupYieldsNothing (recordedId resource) w).
    { rewrite findOrCreateVpcEndpoint_creations in Hne. unfold creations in Hne.
      destruct (outcomeOf (DescribeSingleVPCEndpointById _ w)) as [found|e|] eqn:Ho1;
        try done.
      rewrite Hci in Hne.
      destruct (outcomeOf (FilterVPCEndpointByDefaultTags _ _ w)) as [byTag|e|];
        try done.
      destruct (noEndpoints found) eqn:Hno1; [|done].
      apply lookupYieldsNothing_iff. by exists found. }
    split; [done|]. rewrite Hmissed in Hne |- * by done.
    destruct (lookupRequests_reads (recordedId resource)) as [_ Hnone].
    destruct (GenerateVPCEndpointName _ _) as [err|name] eqn:Hname; [done|].
    destruct (GenerateAwsTags name "") as [err|tags] eqn:Htags; [done|].
    by exists name, tags.
Qed.

End ClientTheorems.

(** ** The reconcile pass, twice *)

Section PassFacts.
Context {W : Type} `{!VpcEndpointEC2API W, !PrivateSubnetsAPI W, !Util}.

Lemma bind_run {A B} (m : M W A) (f : A → M W B) (w : W) :
  (m ≫= f) w
  = match outcomeOf (m w) with
    | Ok a => (outcomeOf (f a (cloudOf (m w))), cloudOf (f a (cloudOf (m w))),
               callsOf (m w) ++ callsOf (f a (cloudOf (m w))))
    | Err e => (Err e, cloudOf (m w), callsOf (m w))
    | Panic => (Panic, cloudOf (m w), callsOf (m w))
    end.
Proof.
  unfold_monad. destruct (m w) as [[[a|e|] w1] l1]; simpl; [|done|done].
  by destruct (f a w1) as [[o2 w2] l2].
Qed.

Lemma generateRoute53Record_reads (resource : avov1alpha1.VpcEndpoint) (w : W) :
  cloudOf (generateRoute53Record resource w) = w ∧
  filter isMutating (callsOf (generateRoute53Record resource w)) = [].
Proof.
  destruct (decide (recordedId resource = "")) as [Hid|Hid].
  - unfold generateRoute53Record. unfold recordedId in Hid. rewrite Hid. done.
  - rewrite generateRoute53Record_run by done. done.
Qed.

Lemma bestEffort_reads (resource : avov1alpha1.VpcEndpoint) (w : W) :
  cloudOf (bestEffort (generateRoute53Record resource) w) = w ∧
  filter isMutating (callsOf (bestEffort (generateRoute53Record resource) w)) = [].
Proof.
  destruct (generateRoute53Record_reads resource w) as [Hw Hl].
  unfold bestEffort.
  destruct (generateRoute53Record resource w) as [[[a|e|] w1] l1]; done.
Qed.

(** The pass, step by step. *)
Lemma reconcilePass_run nameTag r resource (w : W) :
  reconcilePass nameTag r resource w
  = let located := findOrCreateVpcEndpoint nameTag r resource w in
    match outcomeOf located with
    | Err e => (Err e, cloudOf located, callsOf located)
    | Panic => (Panic, cloudOf located, callsOf located)
    | Ok vpce =>
        match ec2.VpcEndpointId vpce with
        | None => (Panic, cloudOf located, callsOf located)
        | Some id =>
            let resource' := recordEndpointId id resource in
            let subnets := ensureVpcEndpointSubnets r vpce (cloudOf located) in
            match outcomeOf subnets with
            | Err e => (Err e, cloudOf subnets, callsOf located ++ callsOf subnets)
            | Panic => (Panic, cloudOf subnets, callsOf located ++ callsOf subnets)
            | Ok _ =>
                let groups :=
                  ensureVpcEndpointSecurityGroups vpce resource' (cloudOf subnets) in
                match outcomeOf groups with
                | Err e =>
                    (Err e, cloudOf groups,
                     callsOf located ++ callsOf subnets ++ callsOf groups)
                | Panic =>
                    (Panic, cloudOf groups,
                     callsOf located ++ callsOf subnets ++ callsOf groups)
                | Ok _ =>
                    let dns :=
                      bestEffort (generateRoute53Record resource') (cloudOf groups) in
                    (match outcomeOf dns with
                     | Ok _ => Ok resource'
                     | Err e => Err e
                     | Panic => Panic
                     end, cloudOf groups,
                     callsOf located ++ callsOf subnets ++ callsOf groups
                       ++ callsOf dns)
                end
            end
        end
    end.
Proof.
  unfold reconcilePass. unfold_monad. simpl.
  destruct (findOrCreateVpcEndpoint nameTag r resource w) as [[[vpce|e|] w1] l1];
    simpl; [|done|done].
  unfold deref. destruct (ec2.VpcEndpointId vpce) as [id|]; simpl;
    [|by rewrite app_nil_r].
  destruct (ensureVpcEndpointSubnets r vpce w1) as [[[u|e|] w2] l2];
    simpl; [|done|done].
  destruct (ensureVpcEndpointSecurityGroups vpce _ w2) as [[[u'|e|] w3] l3];
    simpl; [|done|done].
  destruct (bestEffort_reads (recordEndpointId id resource) w3) as [Hw _].
  destruct (bestEffort (generateRoute53Record _) w3) as [[[rec|e|] w4] l4];
    unfold cloudOf in Hw; simpl in *; subst w4; by rewrite ?app_nil_r.
Qed.
End PassFacts.

Section PassTheorems.
Context {W : Type} `{!VpcEndpointEC2API W, !PrivateSubnetsAPI W, !Util}.
Context `{!CloudLaws W}.

(** The helper [StringSliceTwoWayDiff] is the diff of the specification. *)
Hypothesis diff_spec :
  ∀ current desired,
    StringSliceTwoWayDiff current desired
    = util.StringSliceTwoWayDiff current desired.

Lemma diff_of_equal_sets (current desired : list string) :
  idSet current = idSet desired →
  StringSliceTwoWayDiff current desired = ([], []).
Proof.
  intros Heq. rewrite diff_spec. unfold util.StringSliceTwoWayDiff.
  assert (H1 : filter (λ x, x ∉ current) desired = [])
    by (apply filter_notin_nil; by rewrite Heq).
  assert (H2 : filter (λ x, x ∉ desired) current = [])
    by (apply filter_notin_nil; by rewrite Heq).
  by rewrite H1, H2.
Qed.

(** Removing [toRemove] and adding [toAdd], in either order, turns
    [current] into [desired]. *)
Lemma diff_applied (current desired : list string) (s : gset string) :
  let toAdd := (StringSliceTwoWayDiff current desired).1 in
  let toRemove := (StringSliceTwoWayDiff current desired).2 in
  s = (idSet current ∖ idSet toRemove) ∪ idSet toAdd
  ∨ s = (idSet current ∪ idSet toAdd) ∖ idSet toRemove →
  s = idSet desired.
Proof.
  simpl. rewrite diff_spec. unfold util.StringSliceTwoWayDiff. simpl.
  rewrite !idSet_filter_notin.
  intros [-> | ->]; apply set_eq; intros x;
    rewrite ?elem_of_union, ?elem_of_difference, ?elem_of_union,
      ?elem_of_difference;
    destruct (decide (x ∈ idSet current)), (decide (x ∈ idSet desired)); tauto.
Qed.

Lemma nil_of_length (l : list string) : ¬ (0 < length l)%nat → l = [].
Proof. destruct l; simpl; [done | lia]. Qed.

Lemma located_sound nameTag r resource (w : W) vpce w1 l1 :
  findOrCreateVpcEndpoint nameTag r resource w = (Ok vpce, w1, l1) →
  ∃ id, ec2.VpcEndpointId vpce = Some id ∧ id ≠ "" ∧ endpointAt w1 id = Some vpce.
Proof.
  rewrite findOrCreateVpcEndpoint_run. unfold locate.
  assert (Hid : ∀ byId,
    outcomeOf (DescribeSingleVPCEndpointById (recordedId resource) w) = Ok byId →
    noEndpoints byId = false → firstOf byId = Ok vpce →
    ∃ id, ec2.VpcEndpointId vpce = Some id ∧ id ≠ "" ∧ endpointAt w id = Some vpce).
  { intros byId Ho Hno Hfirst.
    destruct (decide (recordedId resource = "")) as [He|Hne].
    - rewrite He, DescribeSingleVPCEndpointById_empty in Ho.
      injection Ho as <-. done.
    - rewrite DescribeSingleVPCEndpointById_run in Ho by done.
      unfold outcomeOf in Ho. simpl in Ho.
      destruct byId as [resp|]; [|done].
      apply singleResult_one in Ho as [Hdesc _].
      unfold firstOf in Hfirst.
      destruct (ec2.VpcEndpoints resp) as [|v rest] eqn:Hv; [done|].
      injection Hfirst as ->.
      apply (describe_sound _ _ _ vpce Hdesc). rewrite Hv. by left. }
  assert (Htag : ∀ ci byTag,
    outcomeOf (FilterVPCEndpointByDefaultTags (clusterTag ci) nameTag w) = Ok byTag →
    noEndpoints byTag = false → firstOf byTag = Ok vpce →
    ∃ id, ec2.VpcEndpointId vpce = Some id ∧ id ≠ "" ∧ endpointAt w id = Some vpce).
  { intros ci byTag Ho Hno Hfirst.
    destruct (decide (clusterTag ci = "")) as [He|Hne].
    - rewrite He, FilterVPCEndpointByDefaultTags_empty in Ho.
      injection Ho as <-. done.
    - rewrite FilterVPCEndpointByDefaultTags_run in Ho by done.
      unfold outcomeOf in Ho. simpl in Ho.
      destruct (EC2API_DescribeVpcEndpoints _ w) as [err|resp] eqn:Hdesc; [done|].
      injection Ho as <-. unfold firstOf in Hfirst.
      destruct (ec2.VpcEndpoints resp) as [|v rest] eqn:Hv; [done|].
      injection Hfirst as ->.
      apply (describe_sound _ _ _ vpce Hdesc). rewrite Hv. by left. }
  destruct (outcomeOf (DescribeSingleVPCEndpointById _ w)) as [byId|e|];
    [|done|done].
  destruct (noEndpoints byId) eqn:Hno1.
  2:{ intros [= Hf <- _]. by apply (Hid byId). }
  destruct (r_clusterInfo r) as [ci|]; [|done].
  destruct (outcomeOf (FilterVPCEndpointByDefaultTags _ _ w)) as [byTag|e|] eqn:Ho2;
    [|done|done].
  destruct (noEndpoints byTag) eqn:Hno2.
  2:{ intros [= Hf <- _]. by apply (Htag ci byTag). }
  destruct (GenerateVPCEndpointName _ _) as [err|name]; [done|].
  destruct (GenerateAwsTags _ _) as [err|tags]; [done|].
  destruct (EC2API_CreateVpcEndpoint _ w) as [[err|resp] w'] eqn:Hcreate;
    simpl; [done|].
  intros [= Hf <- _].
  destruct (create_sound _ _ _ _ Hcreate) as (vpce' & id & Hresp & Hvid & Hne & Hat).
  rewrite Hresp, Hvid in Hf. injection Hf as <-. eauto.
Qed.

Lemma idSet_nil : idSet [] = ∅.
Proof. reflexivity. Qed.

Lemma gset_union_empty (s : gset string) : s ∪ ∅ = s.
Proof. apply set_eq. intros x. rewrite elem_of_union, elem_of_empty. tauto. Qed.

Lemma gset_difference_empty (s : gset string) : s ∖ ∅ = s.
Proof. apply set_eq. intros x. rewrite elem_of_difference, elem_of_empty. tauto. Qed.

Ltac tidy_sets :=
  rewrite ?idSet_nil, ?gset_difference_empty, ?gset_union_empty in *.

(** What one request of the synchronizer does to the endpoint. *)
Lemma modify_attachments (input : ec2.ModifyVpcEndpointInput.t) (w : W) out w'
    id vpce :
  EC2API_ModifyVpcEndpoint input w = (inr out, w') →
  ec2.ModifyVpcEndpointInput.VpcEndpointId input = Some id →
  endpointAt w id = Some vpce →
  (∀ tag, DescribePrivateSubnets tag w' = DescribePrivateSubnets tag w) ∧
  ∃ vpce',
    endpointAt w' id = Some vpce' ∧
    idSet (ec2.SubnetIds vpce')
    = (idSet (ec2.SubnetIds vpce)
         ∖ idSet (ec2.ModifyVpcEndpointInput.RemoveSubnetIds input))
        ∪ idSet (ec2.ModifyVpcEndpointInput.AddSubnetIds input) ∧
    idSet (map ec2.GroupId (ec2.Groups vpce'))
    = (idSet (map ec2.GroupId (ec2.Groups vpce))
         ∖ idSet (ec2.ModifyVpcEndpointInput.RemoveSecurityGroupIds input))
        ∪ idSet (ec2.ModifyVpcEndpointInput.AddSecurityGroupIds input).
Proof.
  intros Hmod Hid Hat. split.
  - intros tag. by eapply modify_private_subnets.
  - by eapply modify_sound.
Qed.

Lemma subnets_synced r vpce (w1 : W) u w2 l2 id :
  ensureVpcEndpointSubnets r vpce w1 = (Ok u, w2, l2) →
  ec2.VpcEndpointId vpce = Some id →
  endpointAt w1 id = Some vpce →
  ∃ ci subnetsResp vpce2,
    r_clusterInfo r = Some ci ∧
    clusterTag ci ≠ "" ∧
    DescribePrivateSubnets (clusterTag ci) w2 = inr subnetsResp ∧
    endpointAt w2 id = Some vpce2 ∧
    idSet (ec2.SubnetIds vpce2) = idSet (map ec2.SubnetId (ec2.Subnets subnetsResp)) ∧
    idSet (map ec2.GroupId (ec2.Groups vpce2))
    = idSet (map ec2.GroupId (ec2.Groups vpce)).
Proof.
  intros Hrun Hid Hat.
  destruct (r_clusterInfo r) as [ci|] eqn:Hci.
  2:{ unfold ensureVpcEndpointSubnets, diffVpcEndpointSubnets in Hrun.
      rewrite Hci in Hrun. discriminate Hrun. }
  destruct (decide (clusterTag ci = "")) as [Htag|Htag].
  { unfold ensureVpcEndpointSubnets, diffVpcEndpointSubnets in Hrun.
    rewrite Hci in Hrun. unfold_monad.
    destruct (decide (clusterTag ci = "")); [discriminate Hrun | done]. }
  destruct (DescribePrivateSubnets (clusterTag ci) w1) as [err|subnetsResp] eqn:Hsub.
  { unfold ensureVpcEndpointSubnets in Hrun. unfold mbind at 1, M_bind at 1, bind in Hrun.
    rewrite (diffVpcEndpointSubnets_run r vpce w1 ci) in Hrun by done.
    rewrite Hsub in Hrun. discriminate Hrun. }
  rewrite (ensureVpcEndpointSubnets_run r vpce w1 ci subnetsResp) in Hrun by done.
  pose proof (diff_applied (ec2.SubnetIds vpce)
                (map ec2.SubnetId (ec2.Subnets subnetsResp))) as Happ.
  simpl in Happ. fold (subnetDiff vpce subnetsResp) in Happ.
  exists ci, subnetsResp.
  destruct (decide (0 < length (subnetDiff vpce subnetsResp).2)%nat) as [_|HR].
  - destruct (EC2API_ModifyVpcEndpoint (removeSubnets _ vpce) w1)
      as [[err|out] w1'] eqn:Hrem; simpl in Hrun; [discriminate Hrun|].
    destruct (modify_attachments _ _ _ _ id vpce Hrem Hid Hat)
      as (Hp1 & vpce1 & Hat1 & Hs1 & Hg1). simpl in Hs1, Hg1. tidy_sets.
    destruct (decide (0 < length (subnetDiff vpce subnetsResp).1)%nat) as [_|HA].
    + destruct (EC2API_ModifyVpcEndpoint (addSubnets _ vpce) w1')
        as [[err|out'] w2'] eqn:Hadd; simpl in Hrun; [discriminate Hrun|].
      injection Hrun as _ <- _.
      destruct (modify_attachments _ _ _ _ id vpce1 Hadd Hid Hat1)
        as (Hp2 & vpce2 & Hat2 & Hs2 & Hg2). simpl in Hs2, Hg2. tidy_sets.
      exists vpce2. rewrite Hp2, Hp1.
      repeat split; try done.
      * apply Happ. left. by rewrite Hs2, Hs1.
      * by rewrite Hg2, Hg1.
    + injection Hrun as _ <- _. apply nil_of_length in HA.
      exists vpce1. rewrite Hp1. repeat split; try done.
      apply Happ. left. rewrite Hs1, HA. by tidy_sets.
  - apply nil_of_length in HR.
    destruct (decide (0 < length (subnetDiff vpce subnetsResp).1)%nat) as [_|HA].
    + destruct (EC2API_ModifyVpcEndpoint (addSubnets _ vpce) w1)
        as [[err|out'] w2'] eqn:Hadd; simpl in Hrun; [discriminate Hrun|].
      injection Hrun as _ <- _.
      destruct (modify_attachments _ _ _ _ id vpce Hadd Hid Hat)
        as (Hp2 & vpce2 & Hat2 & Hs2 & Hg2). simpl in Hs2, Hg2. tidy_sets.
      exists vpce2. rewrite Hp2. repeat split; try done.
      apply Happ. left. rewrite Hs2, HR. by tidy_sets.
    + injection Hrun as _ <- _. apply nil_of_length in HA.
      exists vpce. repeat split; try done.
      apply Happ. left. rewrite HR, HA. by tidy_sets.
Qed.

Lemma groups_synced vpce resource (w2 : W) u w3 l3 id vpce2 :
  ensureVpcEndpointSecurityGroups vpce resource w2 = (Ok u, w3, l3) →
  ec2.VpcEndpointId vpce = Some id →
  endpointAt w2 id = Some vpce2 →
  idSet (map ec2.GroupId (ec2.Groups vpce2))
  = idSet (map ec2.GroupId (ec2.Groups vpce)) →
  (∀ tag, DescribePrivateSubnets tag w3 = DescribePrivateSubnets tag w2) ∧
  ∃ vpce3,
    endpointAt w3 id = Some vpce3 ∧
    idSet (ec2.SubnetIds vpce3) = idSet (ec2.SubnetIds vpce2) ∧
    idSet (map ec2.GroupId (ec2.Groups vpce3))
    = idSet [avov1alpha1.SecurityGroupId (avov1alpha1.Status resource)].
Proof.
  intros Hrun Hid Hat Hgroups.
  rewrite ensureVpcEndpointSecurityGroups_run in Hrun.
  pose proof (diff_applied (map ec2.GroupId (ec2.Groups vpce))
                [avov1alpha1.SecurityGroupId (avov1alpha1.Status resource)]) as Happ.
  simpl in Happ. fold (securityGroupDiff vpce resource) in Happ.
  destruct (decide (0 < length (securityGroupDiff vpce resource).1)%nat) as [_|HA].
  - destruct (EC2API_ModifyVpcEndpoint (addSecurityGroups _ vpce) w2)
      as [[err|out] w2'] eqn:Hadd; simpl in Hrun; [discriminate Hrun|].
    destruct (modify_attachments _ _ _ _ id vpce2 Hadd Hid Hat)
      as (Hp1 & vpce2' & Hat1 & Hs1 & Hg1). simpl in Hs1, Hg1. tidy_sets.
    destruct (decide (0 < length (securityGroupDiff vpce resource).2)%nat) as [_|HR].
    + destruct (EC2API_ModifyVpcEndpoint (removeSecurityGroups _ vpce) w2')
        as [[err|out'] w3'] eqn:Hrem; simpl in Hrun; [discriminate Hrun|].
      injection Hrun as _ <- _.
      destruct (modify_attachments _ _ _ _ id vpce2' Hrem Hid Hat1)
        as (Hp2 & vpce3 & Hat2 & Hs2 & Hg2). simpl in Hs2, Hg2. tidy_sets.
      split; [intros tag; by rewrite Hp2, Hp1|].
      exists vpce3. repeat split; try done.
      * by rewrite Hs2, Hs1.
      * apply Happ. right. by rewrite Hg2, Hg1, Hgroups.
    + injection Hrun as _ <- _. apply nil_of_length in HR.
      split; [done|].
      exists vpce2'. repeat split; try done.
      apply Happ. right. rewrite Hg1, Hgroups, HR. by tidy_sets.
  - apply nil_of_length in HA.
    destruct (decide (0 < length (securityGroupDiff vpce resource).2)%nat) as [_|HR].
    + destruct (EC2API_ModifyVpcEndpoint (removeSecurityGroups _ vpce) w2)
        as [[err|out'] w3'] eqn:Hrem; simpl in Hrun; [discriminate Hrun|].
      injection Hrun as _ <- _.
      destruct (modify_attachments _ _ _ _ id vpce2 Hrem Hid Hat)
        as (Hp2 & vpce3 & Hat2 & Hs2 & Hg2). simpl in Hs2, Hg2. tidy_sets.
      split; [done|].
      exists vpce3. repeat split; try done.
      apply Happ. right. rewrite Hg2, Hgroups, HA. by tidy_sets.
    + injection Hrun as _ <- _. apply nil_of_length in HR.
      split; [done|].
      exists vpce2. repeat split; try done.
      apply Happ. right. rewrite Hgroups, HR, HA. by tidy_sets.
Qed.

(** A pass that succeeds leaves the cloud converged. *)
Lemma reconcilePass_converges nameTag r resource (w : W) resource' w' calls :
  reconcilePass nameTag r resource w = (Ok resource', w', calls) →
  converged r resource' w'.
Proof.
  rewrite reconcilePass_run. simpl.
  destruct (findOrCreateVpcEndpoint nameTag r resource w) as [[o1 w1] l1] eqn:Hloc.
  unfold outcomeOf, cloudOf, callsOf. simpl.
  destruct o1 as [vpce|e|]; [|done|done].
  destruct (located_sound _ _ _ _ _ _ _ Hloc) as (id & Hid & Hne & Hat).
  rewrite Hid.
  destruct (ensureVpcEndpointSubnets r vpce w1) as [[o2 w2] l2] eqn:Hsub. simpl.
  destruct o2 as [u|e|]; [|done|done].
  destruct (subnets_synced _ _ _ _ _ _ _ Hsub Hid Hat)
    as (ci & subnetsResp & vpce2 & Hci & Htag & Hpriv & Hat2 & Hs2 & Hg2).
  destruct (ensureVpcEndpointSecurityGroups vpce (recordEndpointId id resource) w2)
    as [[o3 w3] l3] eqn:Hgrp. simpl.
  destruct o3 as [u'|e|]; [|done|done].
  destruct (groups_synced _ _ _ _ _ _ _ _ Hgrp Hid Hat2 Hg2)
    as (Hp3 & vpce3 & Hat3 & Hs3 & Hg3).
  destruct (bestEffort _ w3).1.1; [|done|done].
  intros [= <- <- _]. split; [done|].
  exists ci, subnetsResp, vpce3. rewrite Hp3.
  repeat split; try done. by rewrite Hs3.
Qed.

(** A pass over a converged cloud changes nothing. *)
Lemma reconcilePass_converged_reads nameTag r resource (w : W) :
  converged r resource w →
  mutatingCalls (reconcilePass nameTag r resource w) = [].
Proof.
  intros (Hne & ci & subnetsResp & vpce & Hci & Htag & Hpriv & Hat & Hs & Hg).
  unfold mutatingCalls. rewrite reconcilePass_run. simpl.
  assert (Hloc : findOrCreateVpcEndpoint nameTag r resource w
                 = (Ok vpce, w, [CallDescribeVpcEndpoints (byId (recordedId resource))])).
  { rewrite findOrCreateVpcEndpoint_run. unfold locate.
    rewrite DescribeSingleVPCEndpointById_run by done.
    pose proof (describe_by_id _ _ _ Hat) as Hdesc.
    fold (byId (recordedId resource)) in Hdesc. rewrite Hdesc. reflexivity. }
  rewrite Hloc. unfold outcomeOf, cloudOf, callsOf. simpl.
  destruct (ec2.VpcEndpointId vpce) as [id|]; [|done].
  rewrite (ensureVpcEndpointSubnets_run r vpce w ci subnetsResp) by done.
  unfold subnetDiff. rewrite (diff_of_equal_sets _ _ Hs). simpl.
  rewrite ensureVpcEndpointSecurityGroups_run.
  unfold securityGroupDiff. simpl. rewrite (diff_of_equal_sets _ _ Hg). simpl.
  destruct (bestEffort_reads (recordEndpointId id resource) w) as [_ Hdns].
  destruct (bestEffort _ w) as [[o4 w4] l4]. unfold callsOf in Hdns.
  simpl in *. by destruct o4.
Qed.

(** C4: when a reconcile pass has completed successfully, the pass run
    again on the cloud it has left, with the identifier it has recorded,
    issues no creation request and no modify request. *)
Theorem reconcilePass_idempotent (nameTag : string) (r : VpcEndpointReconciler)
    (resource resource' : avov1alpha1.VpcEndpoint) (w w' : W)
    (calls : list Call) :
  reconcilePass nameTag r resource w = (Ok resource', w', calls) →
  mutatingCalls (reconcilePass nameTag r resource' w') = [].
Proof.
  intros Hpass. apply reconcilePass_converged_reads.
  by eapply reconcilePass_converges.
Qed.

End PassTheorems.

(** ** The in-memory cloud keeps the laws *)

Section FakeLaws.
Import fake.

Lemma lookupEndpoint_Some (w : cloud) (id : string) (vpce : ec2.VpcEndpoint) :
  lookupEndpoint w id = Some vpce ↔
  id ≠ "" ∧ ∃ e, endpoints w !! id = Some e ∧ vpce = view id e.
Proof.
  unfold lookupEndpoint. destruct (decide (id = "")) as [->|Hne].
  - split; [done | by intros [? _]].
  - destruct (endpoints w !! id) as [e|]; simpl.
    + split.
      * intros [= <-]. eauto.
      * intros (_ & e' & [= <-] & ->). done.
    + split; [done | by intros (_ & e' & ? & _)].
Qed.

Lemma groupIds_view (id : string) (e : endpoint) :
  map ec2.GroupId (ec2.Groups (view id e)) = e_groups e.
Proof.
  simpl. induction (e_groups e) as [|g gs IH]; simpl; [done | by rewrite IH].
Qed.

Lemma idSet_attach (remove add current : list string) :
  idSet (attach remove add current) = (idSet current ∖ idSet remove) ∪ idSet add.
Proof.
  unfold attach. rewrite <- (idSet_filter_notin current remove).
  unfold idSet. apply list_to_set_app_L.
Qed.

Lemma fake_describe_sound input (w : cloud) resp vpce :
  describeVpcEndpoints input w = inr resp →
  vpce ∈ ec2.VpcEndpoints resp →
  ∃ id, ec2.VpcEndpointId vpce = Some id ∧ id ≠ "" ∧ lookupEndpoint w id = Some vpce.
Proof.
  unfold describeVpcEndpoints. intros Hdesc Hin.
  assert (Hview : ∀ id, lookupEndpoint w id = Some vpce →
            ∃ id, ec2.VpcEndpointId vpce = Some id ∧ id ≠ ""
                  ∧ lookupEndpoint w id = Some vpce).
  { intros id Hl. exists id. pose proof Hl as Hl'.
    apply lookupEndpoint_Some in Hl' as (Hne & e & _ & ->). done. }
  destruct (ec2.VpcEndpointIds input) as [|id0 ids].
  - injection Hdesc as <-. simpl in Hin.
    apply list_elem_of_omap in Hin as ([k e] & _ & Hf). simpl in Hf.
    destruct (forallb _ _); [|done]. by apply (Hview k).
  - destruct (mapM (lookupEndpoint w) (id0 :: ids)) as [vpces|] eqn:Hm; [|done].
    injection Hdesc as <-. simpl in Hin.
    apply mapM_Some in Hm.
    apply list_elem_of_lookup in Hin as [i Hi].
    destruct (Forall2_lookup_r _ _ _ _ _ Hm Hi) as (id & _ & Hl).
    by apply (Hview id).
Qed.

#[global] Instance fake_laws : CloudLaws cloud.
Proof.
  refine {| endpointAt := lookupEndpoint |}.
  - apply fake_describe_sound.
  - intros w id vpce Hat. simpl. unfold describeVpcEndpoints. simpl.
    by rewrite Hat.
  - intros input w resp w' Hcreate. simpl in Hcreate.
    unfold createVpcEndpoint in Hcreate. injection Hcreate as <- <-.
    eexists _, _. split; [reflexivity|]. split; [reflexivity|]. split.
    + discriminate.
    + apply lookupEndpoint_Some. split; [discriminate|].
      eexists. split; [apply lookup_insert_eq | reflexivity].
  - intros input w out w' id vpce Hmod Hid Hat. simpl in Hmod.
    unfold modifyVpcEndpoint in Hmod. rewrite Hid in Hmod.
    apply lookupEndpoint_Some in Hat as (Hne & e & He & ->).
    destruct (decide (id = "")) as [|_]; [done|]. rewrite He in Hmod.
    injection Hmod as _ <-.
    eexists. split.
    + apply lookupEndpoint_Some. split; [done|].
      eexists. split; [apply lookup_insert_eq | reflexivity].
    + rewrite !groupIds_view. simpl. by rewrite !idSet_attach.
  - intros input w res w' tag Hmod. simpl in Hmod.
    unfold modifyVpcEndpoint in Hmod.
    unfold DescribePrivateSubnets, subnetsApi.
    destruct (ec2.ModifyVpcEndpointInput.VpcEndpointId input) as [id|];
      [|by injection Hmod as _ <-].
    destruct (if decide (id = "") then None else endpoints w !! id);
      by injection Hmod as _ <-.
Defined.

End FakeLaws.

(** ** The theorems at work on the in-memory cloud *)

Section Witnesses.
Import fake.

(** C1, witness: endpoint [vpce-a] is attached to [s1], [s2] and [sg-0]
    while [s2], [s3] and [sg-1] are wanted. *)
Lemma attachment_request_order_witness :
  callsOf (ensureVpcEndpointSubnets (reconciler clusterTagA) vpceA cloudA)
  = [CallDescribePrivateSubnets clusterTagA;
     CallModifyVpcEndpoint (removeSubnets ["s1"] vpceA);
     CallModifyVpcEndpoint (addSubnets ["s3"] vpceA)] ∧
  callsOf (ensureVpcEndpointSecurityGroups vpceA (resource "vpce-a" "sg-1") cloudA)
  = [CallModifyVpcEndpoint (addSecurityGroups ["sg-1"] vpceA);
     CallModifyVpcEndpoint (removeSecurityGroups ["sg-0"] vpceA)].
Proof.
  pose proof (attachment_request_order (reconciler clusterTagA) vpceA
                (resource "vpce-a" "sg-1") cloudA (info clusterTagA)
                {| ec2.Subnets := [ {| ec2.SubnetId := "s2" |};
                                    {| ec2.SubnetId := "s3" |} ] |}) as H.
  vm_compute in H. vm_compute.
  apply H; first [reflexivity | discriminate].
Defined.

(** C1, counterexample: for the security groups of [vpce-a], with [sg-1]
    to add and [sg-0] to remove, the first request is the addition and the
    removal comes second. *)
Lemma ensureVpcEndpointSecurityGroups_adds_first :
  securityGroupDiff vpceA (resource "vpce-a" "sg-1") = (["sg-1"], ["sg-0"]) ∧
  callsOf (ensureVpcEndpointSecurityGroups vpceA (resource "vpce-a" "sg-1") cloudA)
  = [CallModifyVpcEndpoint
       {| ec2.ModifyVpcEndpointInput.AddSubnetIds := [];
          ec2.ModifyVpcEndpointInput.RemoveSubnetIds := [];
          ec2.ModifyVpcEndpointInput.AddSecurityGroupIds := ["sg-1"];
          ec2.ModifyVpcEndpointInput.RemoveSecurityGroupIds := [];
          ec2.ModifyVpcEndpointInput.VpcEndpointId := Some "vpce-a" |};
     CallModifyVpcEndpoint
       {| ec2.ModifyVpcEndpointInput.AddSubnetIds := [];
          ec2.ModifyVpcEndpointInput.RemoveSubnetIds := [];
          ec2.ModifyVpcEndpointInput.AddSecurityGroupIds := [];
          ec2.ModifyVpcEndpointInput.RemoveSecurityGroupIds := ["sg-0"];
          ec2.ModifyVpcEndpointInput.VpcEndpointId := Some "vpce-a" |}].
Proof. split; vm_compute; reflexivity. Qed.

(** C4, witness: a first pass over [cloudA] with no identifier recorded
    finds [vpce-a] by its tags and synchronizes it; the second pass changes
    nothing. *)
Lemma reconcilePass_idempotent_witness :
  outcomeOf (reconcilePass "infra-ep" (reconciler clusterTagA)
               (resource "" "sg-1") cloudA)
  = Ok (resource "vpce-a" "sg-1") ∧
  mutatingCalls
    (reconcilePass "infra-ep" (reconciler clusterTagA) (resource "vpce-a" "sg-1")
       (cloudOf (reconcilePass "infra-ep" (reconciler clusterTagA)
                   (resource "" "sg-1") cloudA)))
  = [].
Proof.
  split; [vm_compute; reflexivity|].
  apply (@reconcilePass_idempotent cloud api subnetsApi helpers fake_laws
           (λ _ _, eq_refl) "infra-ep"
           (reconciler clusterTagA) (resource "" "sg-1") (resource "vpce-a" "sg-1")
           cloudA _
           (callsOf (reconcilePass "infra-ep" (reconciler clusterTagA)
                       (resource "" "sg-1") cloudA))).
  vm_compute. reflexivity.
Defined.

(** C5, the failing input: two endpoints carry the default tags, no
    identifier is recorded; the locator returns [vpce-a] and no error. *)
Lemma findOrCreateVpcEndpoint_ambiguous_first_witness :
  outcomeOf (FilterVPCEndpointByDefaultTags clusterTagA "infra-ep" cloudAB)
  = Ok (Some {| ec2.VpcEndpoints := [vpceA; vpceB] |}) ∧
  outcomeOf (findOrCreateVpcEndpoint "infra-ep" (reconciler clusterTagA)
               (resource "" "sg-1") cloudAB)
  = Ok vpceA.
Proof.
  split; [vm_compute; reflexivity|].
  apply (findOrCreateVpcEndpoint_ambiguous_first "infra-ep"
           (reconciler clusterTagA) (resource "" "sg-1") cloudAB
           (info clusterTagA) (Some {| ec2.VpcEndpoints := [] |}) vpceA vpceB []).
  - reflexivity.
  - reflexivity.
  - reflexivity.
  - vm_compute. reflexivity.
Defined.

(** C6, witness: no endpoint is held under [vpce-x]. *)
Lemma generateRoute53Record_absent_witness :
  generateRoute53Record (resource "vpce-x" "sg-1") cloudNone
  = (Ok None, cloudNone, [CallDescribeVpcEndpoints (byId "vpce-x")]).
Proof.
  apply (generateRoute53Record_absent (resource "vpce-x" "sg-1") cloudNone
           "The VpcEndpoint does not exist").
  - discriminate.
  - vm_compute. reflexivity.
Defined.

(** C6, counterexample: the recorded identifier [vpce-gone] is not empty,
    the cloud answers that no endpoint has it, and the outcome is no
    record and no error. *)
Lemma generateRoute53Record_absent_no_error :
  recordedId (resource "vpce-gone" "sg-1") = "vpce-gone" ∧
  EC2API_DescribeVpcEndpoints (byId "vpce-gone") cloudA
  = inl (APIError "InvalidVpcEndpointId.NotFound" "The VpcEndpoint does not exist") ∧
  outcomeOf (generateRoute53Record (resource "vpce-gone" "sg-1") cloudA) = Ok None.
Proof. repeat split; vm_compute; reflexivity. Qed.

(** C7, witness: the cluster tag is empty and the helpers refuse an empty
    tag.  The recorded endpoint [vpce-a] is returned without an error; with
    no identifier recorded the locator fails at the creation step and
    issues no request. *)
Lemma findOrCreateVpcEndpoint_empty_cluster_tag_witness :
  @FilterVPCEndpointByDefaultTags cloud api strictHelpers "" "infra-ep" cloudA
  = (Ok (Some {| ec2.VpcEndpoints := [] |}), cloudA, []) ∧
  @findOrCreateVpcEndpoint cloud api strictHelpers "infra-ep" (reconciler "")
    (resource "vpce-a" "sg-1") cloudA
  = (Ok vpceA, cloudA, [CallDescribeVpcEndpoints (byId "vpce-a")]) ∧
  @findOrCreateVpcEndpoint cloud api strictHelpers "infra-ep" (reconciler "")
    (resource "" "sg-1") cloudA
  = (Err (errorString
            "failed to create vpc endpoint: name and tag key must not be empty"),
     cloudA, []).
Proof.
  split; [|split].
  - destruct (@findOrCreateVpcEndpoint_empty_cluster_tag cloud api strictHelpers
                "infra-ep" (reconciler "") (resource "" "sg-1") cloudA (info "")
                eq_refl eq_refl) as (Hsearch & _).
    exact Hsearch.
  - destruct (@findOrCreateVpcEndpoint_empty_cluster_tag cloud api strictHelpers
                "infra-ep" (reconciler "") (resource "vpce-a" "sg-1") cloudA (info "")
                eq_refl eq_refl) as (_ & Hfound & _).
    apply Hfound; [discriminate | vm_compute; reflexivity].
  - destruct (@findOrCreateVpcEndpoint_empty_cluster_tag cloud api strictHelpers
                "infra-ep" (reconciler "") (resource "" "sg-1") cloudA (info "")
                eq_refl eq_refl) as (_ & _ & _ & Hrefused & _).
    apply (Hrefused "infra-ep" refusal); [by left | reflexivity | reflexivity].
Defined.

(** C7, counterexample: with an empty cluster tag the tag search returns
    an empty result and no error, and the locator returns the endpoint it
    has found by identifier: no error is reported. *)
Lemma findOrCreateVpcEndpoint_empty_cluster_tag_no_error :
  clusterTag (info "") = "" ∧
  outcomeOf (FilterVPCEndpointByDefaultTags "" "infra-ep" cloudA)
  = Ok (Some {| ec2.VpcEndpoints := [] |}) ∧
  outcomeOf (findOrCreateVpcEndpoint "infra-ep" (reconciler "")
               (resource "vpce-a" "sg-1") cloudA)
  = Ok vpceA.
Proof. repeat split; vm_compute; reflexivity. Qed.

(** C8, witness: [vpce-a] is available and has the DNS entries [a] and
    [b]; [vpce-b] is pending and has a DNS entry; [vpce-c] is available and
    has none. *)
Lemma generateRoute53Record_found_witness :
  outcomeOf (generateRoute53Record (resource "vpce-a" "sg-1") cloudA)
  = Ok (Some {| route53.Value := Some "a" |}) ∧
  outcomeOf (generateRoute53Record (resource "vpce-b" "sg-1") cloudAB)
  = Err (errorString "VPCEndpoint is not in the available state") ∧
  outcomeOf (generateRoute53Record (resource "vpce-c" "sg-1") cloudC)
  = Err (errorString "VPCEndpoint has no DNS entries").
Proof.
  split; [|split].
  - destruct (generateRoute53Record_found (resource "vpce-a" "sg-1") cloudA vpceA)
      as (_ & _ & _ & Hok).
    + discriminate.
    + vm_compute. reflexivity.
    + exact (Hok {| ec2.DnsName := Some "a" |} [ {| ec2.DnsName := Some "b" |} ]
               eq_refl eq_refl).
  - destruct (generateRoute53Record_found (resource "vpce-b" "sg-1") cloudAB vpceB)
      as (_ & Hpending & _ & _).
    + discriminate.
    + vm_compute. reflexivity.
    + apply (Hpending "pending"); [reflexivity | discriminate].
  - destruct (generateRoute53Record_found (resource "vpce-c" "sg-1") cloudC vpceC)
      as (_ & _ & Hnone & _).
    + discriminate.
    + vm_compute. reflexivity.
    + apply Hnone; reflexivity.
Defined.

(** C9, witness: [vpce-a] is recorded and found: one request.  A stale
    identifier is recorded and [vpce-a] is found by its tags: the lookup,
    then the tag search.  Nothing is found in [cloudNone]: the lookup, the
    tag search, then one creation request. *)
Lemma findOrCreateVpcEndpoint_steps_witness :
  findOrCreateVpcEndpoint "infra-ep" (reconciler clusterTagA)
    (resource "vpce-a" "sg-1") cloudA
  = (Ok vpceA, cloudA, [CallDescribeVpcEndpoints (byId "vpce-a")]) ∧
  findOrCreateVpcEndpoint "infra-ep" (reconciler clusterTagA)
    (resource "vpce-gone" "sg-1") cloudA
  = (Ok vpceA, cloudA,
     [CallDescribeVpcEndpoints (byId "vpce-gone");
      CallDescribeVpcEndpoints (byDefaultTags clusterTagA "infra-ep")]) ∧
  callsOf (findOrCreateVpcEndpoint "infra-ep" (reconciler clusterTagA)
             (resource "vpce-gone" "sg-1") cloudNone)
  = [CallDescribeVpcEndpoints (byId "vpce-gone");
     CallDescribeVpcEndpoints (byDefaultTags clusterTagA "infra-ep");
     CallCreateVpcEndpoint
       (creationInput (info clusterTagA) (resource "vpce-gone" "sg-1") ownedTags)].
Proof.
  split; [|split].
  - destruct (findOrCreateVpcEndpoint_steps "infra-ep" (reconciler clusterTagA)
                (resource "vpce-a" "sg-1") cloudA) as (Hfound & _).
    apply Hfound; [discriminate | vm_compute; reflexivity].
  - destruct (findOrCreateVpcEndpoint_steps "infra-ep" (reconciler clusterTagA)
                (resource "vpce-gone" "sg-1") cloudA) as (_ & Htags & _).
    apply (Htags (info clusterTagA) {| ec2.VpcEndpoints := [vpceA] |} vpceA []).
    + right. exists "The VpcEndpoint does not exist". vm_compute. reflexivity.
    + reflexivity.
    + discriminate.
    + vm_compute. reflexivity.
    + reflexivity.
  - destruct (findOrCreateVpcEndpoint_steps "infra-ep" (reconciler clusterTagA)
                (resource "vpce-gone" "sg-1") cloudNone) as (_ & _ & Hcreate & _).
    rewrite (Hcreate (info clusterTagA) "infra-ep" ownedTags).
    + reflexivity.
    + right. exists "The VpcEndpoint does not exist". vm_compute. reflexivity.
    + reflexivity.
    + right. exists {| ec2.VpcEndpoints := [] |}. split; vm_compute; reflexivity.
    + reflexivity.
    + reflexivity.
Defined.

(** C10, witness: the lookup of [vpce-a] in [cloudA]; and the same lookup
    through an interface that lists both endpoints of [cloudAB]. *)
Lemma DescribeSingleVPCEndpointById_exactly_one_witness :
  DescribeSingleVPCEndpointById "" cloudA
  = (Ok (Some {| ec2.VpcEndpoints := [] |}), cloudA, []) ∧
  DescribeSingleVPCEndpointById "vpce-a" cloudA
  = (Ok (Some {| ec2.VpcEndpoints := [vpceA] |}), cloudA,
     [CallDescribeVpcEndpoints (byId "vpce-a")]) ∧
  outcomeOf (@DescribeSingleVPCEndpointById cloud looseApi "vpce-a" cloudAB)
  = Err (errorString "expected 1 VPC endpoint, got 2").
Proof.
  split; [|split].
  - destruct (DescribeSingleVPCEndpointById_exactly_one "vpce-a" cloudA)
      as (Hempty & _); [discriminate | exact Hempty].
  - vm_compute. reflexivity.
  - destruct (@DescribeSingleVPCEndpointById_exactly_one cloud looseApi
                "vpce-a" cloudAB) as (_ & _ & Hmany & _); [discriminate|].
    apply (Hmany {| ec2.VpcEndpoints := [vpceA; vpceB] |}).
    + vm_compute. reflexivity.
    + discriminate.
Defined.

End Witnesses.

(** * Further properties of the code *)

(** ** Placement *)

Section MorePlacement.
Import placement.

Lemma countEndpoints_Ok_inv (vpces : list ec2.VpcEndpoint) (m m' : gmap string Z) :
  countEndpoints vpces m = Ok m' →
  ∃ xs, map ec2.VpcId vpces = map Some xs ∧ m' = countAll xs m.
Proof.
  revert m. induction vpces as [|e vpces IH]; intros m H; simpl in H.
  - injection H as <-. by exists [].
  - destruct (ec2.VpcId e) as [id|] eqn:He; [|done].
    destruct (IH _ H) as (xs & Hxs & ->).
    exists (id :: xs). simpl. by rewrite He, Hxs.
Qed.

Lemma countPages_Ok_inv pages (m m' : gmap string Z) :
  countPages pages m = Ok m' →
  ∃ xs, pagesList pages xs ∧ m' = countAll xs m.
Proof.
  unfold pagesList, vpcIds. revert m.
  induction pages as [|[err|resp] pages IH]; intros m H; simpl in H.
  - injection H as <-. exists []. repeat split. constructor.
  - done.
  - destruct (countEndpoints (ec2.VpcEndpoints resp) m) as [m1|e|] eqn:Hc;
      [|done|done].
    apply countEndpoints_Ok_inv in Hc as (ys & Hys & ->).
    destruct (IH _ H) as (xs & [Hall Hxs] & ->).
    exists (ys ++ xs). simpl. rewrite Hys, Hxs, map_app, countAll_app.
    repeat split. constructor; eauto.
Qed.

(** The keys of the count map: the candidates and the VPCs counted. *)
Lemma countAll_keys (xs : list string) (m : gmap string Z) (k : string) :
  is_Some (countAll xs m !! k) ↔ is_Some (m !! k) ∨ k ∈ xs.
Proof.
  unfold countAll. revert m. induction xs as [|x xs IH]; intros m; simpl.
  - split; [by left | intros [?|Hin]; [done | by apply elem_of_nil in Hin]].
  - rewrite IH. unfold increment. rewrite elem_of_cons.
    destruct (decide (x = k)) as [->|Hne].
    + rewrite lookup_insert_eq. split; [intros _; right; by left | intros _; left; eauto].
    + rewrite lookup_insert_ne by done. intuition congruence.
Qed.

Lemma pagesList_elem pages xs (k : string) :
  pagesList pages xs → k ∈ xs → Some k ∈ vpcIds pages.
Proof.
  intros [_ ->] Hin. apply list_elem_of_fmap. eauto.
Qed.

(** X1: whatever the pages and the order of the map, a VPC that
    [SelectVPCForVPCEndpoint] returns is never the empty string, and it is a
    candidate or the VPC of an endpoint that the pages list. *)
Theorem SelectVPCForVPCEndpoint_result_counted
    (rangeMap : gmap string Z → list (string * Z))
    (pages : list (error + ec2.DescribeVpcEndpointsOutput))
    (ids : list string) (v : string) :
  validRange rangeMap →
  SelectVPCForVPCEndpoint rangeMap pages ids = Ok v →
  v ≠ "" ∧ (v ∈ ids ∨ Some v ∈ vpcIds pages).
Proof.
  intros Hrange. unfold SelectVPCForVPCEndpoint.
  destruct (decide (length ids = 0%nat)); [done|].
  destruct (countPages pages _) as [m|e|] eqn:Hcount; [|done|done].
  apply countPages_Ok_inv in Hcount as (xs & Hpages & ->).
  pose proof (pickMin_foldl (rangeMap (countAll xs (foldl (λ m id, <[id:=0]> m) ∅ ids)))
                ("", MaxInt)) as (_ & _ & Hin).
  destruct (foldl pickMin _ _) as [k c]. simpl in Hin.
  destruct (decide (k = "")) as [|Hne]; [done|].
  intros [= <-]. split; [done|].
  destruct Hin as [[= -> _]|Hin]; [done|].
  rewrite (Hrange _) in Hin. apply elem_of_map_to_list in Hin.
  assert (Hsome : is_Some (countAll xs (foldl (λ m id, <[id:=0]> m) ∅ ids) !! k))
    by eauto.
  apply countAll_keys in Hsome as [Hinit|Hxs].
  - left. rewrite init_lookup, lookup_empty in Hinit.
    destruct (decide (k ∈ ids)); [done | by destruct Hinit].
  - right. by eapply pagesList_elem.
Qed.

Lemma countPages_app good xs rest (m : gmap string Z) :
  pagesList good xs →
  countPages (good ++ rest) m = countPages rest (countAll xs m).
Proof.
  unfold pagesList, vpcIds. revert xs m.
  induction good as [|p good IH]; intros xs m [Hall Hids]; simpl in *.
  - by destruct xs.
  - inversion Hall as [|? ? [resp ->] Hall']; subst.
    symmetry in Hids. apply fmap_app_inv in Hids as (ys & zs & Hy & Hz & ->).
    rewrite (countEndpoints_countAll _ ys) by done.
    rewrite countAll_app. apply IH. by split.
Qed.

(** X2: with no candidate [SelectVPCForVPCEndpoint] fails whatever the
    pages, with or without an error among them; with candidates, the error
    of the first page that fails is the result, unchanged, whatever the
    pages after it, the pages before it being counted without a nil VPC. *)
Theorem SelectVPCForVPCEndpoint_errors
    (rangeMap : gmap string Z → list (string * Z))
    (pages good rest : list (error + ec2.DescribeVpcEndpointsOutput))
    (err : error) (ids xs : list string) :
  ids ≠ [] →
  pagesList good xs →
  SelectVPCForVPCEndpoint rangeMap pages []
  = Err (errorString "must specify vpc id when counting VPC Endpoints per VPC") ∧
  SelectVPCForVPCEndpoint rangeMap (good ++ inl err :: rest) ids = Err err.
Proof.
  intros Hids Hgood. split; [reflexivity|].
  unfold SelectVPCForVPCEndpoint.
  destruct (decide (length ids = 0%nat)); [by destruct ids|].
  by rewrite (countPages_app good xs).
Qed.

(** X3: without the [vpc-id] filter being relied on: for candidates none of
    which is the empty string and pages without error that list fewer than
    [MaxInt] endpoints, none of them in a VPC named by the empty string,
    [SelectVPCForVPCEndpoint] returns a VPC with the fewest endpoints among
    the candidates and the VPCs listed; it returns a VPC that is not a
    candidate only when every candidate has an endpoint. *)
Theorem SelectVPCForVPCEndpoint_fewest_counted
    (rangeMap : gmap string Z → list (string * Z))
    (pages : list (error + ec2.DescribeVpcEndpointsOutput))
    (ids xs : list string) :
  validRange rangeMap →
  ids ≠ [] →
  "" ∉ ids →
  "" ∉ xs →
  pagesList pages xs →
  Z.of_nat (length xs) < MaxInt →
  ∃ v, SelectVPCForVPCEndpoint rangeMap pages ids = Ok v ∧
       (v ∈ ids ∨ v ∈ xs) ∧
       (∀ k, k ∈ ids ∨ k ∈ xs → endpointsIn pages v ≤ endpointsIn pages k) ∧
       (v ∉ ids → ∀ id, id ∈ ids → 1 ≤ endpointsIn pages id).
Proof.
  intros Hrange Hne Hempty Hempty' Hxs Hlen.
  pose proof Hxs as [_ Hids].
  unfold SelectVPCForVPCEndpoint.
  destruct (decide (length ids = 0%nat)) as [Hz|_]; [by destruct ids|].
  rewrite (countPages_countAll pages xs) by done.
  set (m0 := foldl (λ m id, <[id:=0]> m) ∅ ids).
  set (m := countAll xs m0).
  assert (Hm0 : ∀ k, m0 !! k = if decide (k ∈ ids) then Some 0 else None).
  { intros k. unfold m0. by rewrite init_lookup, lookup_empty. }
  assert (Hm : ∀ k c, m !! k = Some c ↔ (k ∈ ids ∨ k ∈ xs) ∧ c = occurrences k xs).
  { intros k c. destruct (countAll_lookup xs m0 k) as [Hv Hs].
    { intros k'. rewrite Hm0. unfold MaxInt in *.
      destruct (decide (k' ∈ ids)); simpl; lia. }
    fold m in Hv, Hs.
    assert (Hz : default 0 (m0 !! k) = 0)
      by (rewrite Hm0; by destruct (decide (k ∈ ids))).
    rewrite Hz in Hv.
    assert (Hd : is_Some (m0 !! k) ↔ k ∈ ids).
    { rewrite Hm0. destruct (decide (k ∈ ids)) as [Hin|Hin]; split; intros H';
        first [done | by eexists | by destruct H']. }
    rewrite Hd in Hs. split.
    - intros E. rewrite E in Hv, Hs. simpl in Hv. split; [apply Hs; eauto | lia].
    - intros [Hk ->]. apply Hs in Hk as [c' E]. rewrite E in Hv. simpl in Hv.
      rewrite E. f_equal. lia. }
  assert (Hentries : ∀ k c, (k, c) ∈ rangeMap m ↔ (k ∈ ids ∨ k ∈ xs) ∧ c = occurrences k xs).
  { intros k c. by rewrite (Hrange m), elem_of_map_to_list, Hm. }
  pose proof (pickMin_foldl (rangeMap m) ("", MaxInt)) as (H1 & H2 & H3).
  destruct (foldl pickMin ("", MaxInt) (rangeMap m)) as [k c] eqn:Efold.
  simpl in *.
  destruct ids as [|id0 ids']; [done|].
  assert (Hc : c < MaxInt).
  { specialize (H2 (id0, occurrences id0 xs)). simpl in H2.
    pose proof (occurrences_bounds id0 xs).
    assert (c ≤ occurrences id0 xs); [|lia].
    apply H2, Hentries. split; [left; by left | done]. }
  destruct H3 as [[= -> ->]|H3]; [lia|].
  apply Hentries in H3 as [Hk ->].
  destruct (decide (k = "")) as [->|_]; [by destruct Hk|].
  exists k. split; [done|]. split; [done|].
  assert (Hmin : ∀ k', k' ∈ id0 :: ids' ∨ k' ∈ xs →
            occurrences k xs ≤ occurrences k' xs).
  { intros k' Hk'. apply (H2 (k', occurrences k' xs)), Hentries. done. }
  split.
  - intros k' Hk'. rewrite !(endpointsIn_occurrences pages xs) by done. by apply Hmin.
  - intros Hnot id Hid. rewrite (endpointsIn_occurrences pages xs) by done.
    destruct Hk as [?|Hk]; [done|].
    assert (1 ≤ occurrences k xs).
    { unfold occurrences.
      assert (Hf : k ∈ filter (λ x, x = k) xs) by (by apply list_elem_of_filter).
      destruct (filter (λ x, x = k) xs); [by apply elem_of_nil in Hf | simpl; lia]. }
    specialize (Hmin id (or_introl Hid)). lia.
Qed.

End MorePlacement.

(** ** [FilterVpcIdsByTags] *)

Section MoreVpcs.
Context {W : Type} `{!VpcsEC2API W}.
Variable showTags : list avov1alpha2.Tag → string.

Lemma vpcIdsOf_Ok (vpcs : list ec2vpcs.Vpc) (ids : list string) :
  vpcIdsOf vpcs = Ok ids ↔ map ec2vpcs.VpcId vpcs = map Some ids.
Proof.
  revert ids. induction vpcs as [|vpc vpcs IH]; intros ids; simpl.
  - split; [by intros [= <-] | by destruct ids].
  - destruct (ec2vpcs.VpcId vpc) as [id|].
    + destruct (vpcIdsOf vpcs) as [ids'|e|] eqn:Hrest.
      * split.
        -- intros [= <-]. simpl. f_equal. by apply IH.
        -- destruct ids as [|id' ids'']; [done|]. simpl.
           intros [= -> Hmap]. apply IH in Hmap. by injection Hmap as ->.
      * split; [done|]. destruct ids as [|id' ids'']; [done|]. simpl.
        intros [= -> Hmap]. by apply IH in Hmap.
      * split; [done|]. destruct ids as [|id' ids'']; [done|]. simpl.
        intros [= -> Hmap]. by apply IH in Hmap.
    + split; [done | by destruct ids].
Qed.

(** X4: a list of VPC identifiers that [FilterVpcIdsByTags] returns is
    never empty; it holds the identifiers of the VPCs of the answer, in
    their order, and comes from one request that carries, tag by tag, the
    filter [tag:<key>] with the tag's value. *)
Theorem FilterVpcIdsByTags_success (tags : list avov1alpha2.Tag) (w : W)
    (ids : list string) (requests : list ec2vpcs.DescribeVpcsInput) :
  FilterVpcIdsByTags showTags tags w = (Ok ids, requests) →
  ids ≠ [] ∧
  tags ≠ [] ∧
  requests = [ {| ec2vpcs.Filters := map tagFilter tags |} ] ∧
  ∃ resp,
    EC2API_DescribeVpcs {| ec2vpcs.Filters := map tagFilter tags |} w = inr resp ∧
    map ec2vpcs.VpcId (ec2vpcs.Vpcs resp) = map Some ids.
Proof.
  unfold FilterVpcIdsByTags.
  destruct (decide (length tags = 0%nat)) as [|Hlen]; [done|].
  destruct (EC2API_DescribeVpcs _ w) as [err|resp] eqn:Hdesc; [done|].
  destruct (decide (length (ec2vpcs.Vpcs resp) = 0%nat)) as [|Hn]; [done|].
  intros [= Hids <-]. apply vpcIdsOf_Ok in Hids.
  split.
  - intros ->. destruct (ec2vpcs.Vpcs resp); [done | discriminate].
  - split; [by intros -> |]. split; [done|]. eauto.
Qed.

(** X5: [FilterVpcIdsByTags] fails without a request when no tag is
    given; it returns the error of the request as it is; and an answer
    without a VPC is an error, not an empty list. *)
Theorem FilterVpcIdsByTags_failures (tags : list avov1alpha2.Tag) (w : W) :
  tags ≠ [] →
  FilterVpcIdsByTags showTags [] w
  = (Err (errorString "must specify tags when filtering VPCs by tags"), []) ∧
  (∀ err,
     EC2API_DescribeVpcs {| ec2vpcs.Filters := map tagFilter tags |} w = inl err →
     FilterVpcIdsByTags showTags tags w
     = (Err err, [ {| ec2vpcs.Filters := map tagFilter tags |} ])) ∧
  (EC2API_DescribeVpcs {| ec2vpcs.Filters := map tagFilter tags |} w
   = inr {| ec2vpcs.Vpcs := [] |} →
   FilterVpcIdsByTags showTags tags w
   = (Err (errorString ("no VPCs found when filtering by tags: " +:+ showTags tags)),
      [ {| ec2vpcs.Filters := map tagFilter tags |} ])).
Proof.
  intros Htags. split; [reflexivity|].
  unfold FilterVpcIdsByTags.
  destruct (decide (length tags = 0%nat)) as [Hz|_]; [by destruct tags|].
  split.
  - by intros err ->.
  - by intros ->.
Qed.

End MoreVpcs.

(** ** The client and the helpers, further *)

Section MoreClient.
Context {W : Type} `{!VpcEndpointEC2API W, !PrivateSubnetsAPI W, !Util}.

(** X6: [DescribeSingleVPCEndpointById] absorbs one error only: the answer
    that no endpoint has the identifier becomes an empty result without
    error; every other error of the request is returned as it is.  In both
    cases the cloud is left as it was. *)
Theorem DescribeSingleVPCEndpointById_errors (id : string) (w : W) (err : error) :
  id ≠ "" →
  EC2API_DescribeVpcEndpoints (byId id) w = inl err →
  DescribeSingleVPCEndpointById id w
  = (match err with
     | APIError code _ =>
         if decide (code = "InvalidVpcEndpointId.NotFound") then Ok None else Err err
     | errorString _ => Err err
     end, w, [CallDescribeVpcEndpoints (byId id)]) ∧
  ((∀ message, err ≠ APIError "InvalidVpcEndpointId.NotFound" message) →
   outcomeOf (DescribeSingleVPCEndpointById id w) = Err err).
Proof.
  intros Hid Hdesc. rewrite DescribeSingleVPCEndpointById_run by done.
  rewrite Hdesc. unfold singleResult. split.
  - by destruct err.
  - intros Hnot. unfold outcomeOf. simpl. destruct err as [code message|s]; [|done].
    destruct (decide (code = "InvalidVpcEndpointId.NotFound")) as [->|]; [|done].
    by destruct (Hnot message).
Qed.

Lemma FilterVPCEndpointByDefaultTags_no_mutation (tag nameTag : string) (w : W) :
  filter isMutating (callsOf (FilterVPCEndpointByDefaultTags tag nameTag w)) = [].
Proof.
  destruct (decide (tag = "")) as [->|Htag].
  - by rewrite FilterVPCEndpointByDefaultTags_empty.
  - by rewrite FilterVPCEndpointByDefaultTags_run.
Qed.

(** X7: an error of the cloud reaches the caller of the locator as it is:
    the error of the lookup by identifier, unless it says that no endpoint
    has the identifier, and any error of the tag search.  The locator stops
    there: no further request, and the cloud as it was. *)
Theorem findOrCreateVpcEndpoint_cloud_errors (nameTag : string)
    (r : VpcEndpointReconciler) (resource : avov1alpha1.VpcEndpoint) (w : W)
    (err : error) :
  (recordedId resource ≠ "" →
   EC2API_DescribeVpcEndpoints (byId (recordedId resource)) w = inl err →
   (∀ message, err ≠ APIError "InvalidVpcEndpointId.NotFound" message) →
   findOrCreateVpcEndpoint nameTag r resource w
   = (Err err, w, [CallDescribeVpcEndpoints (byId (recordedId resource))])) ∧
  (∀ ci byId,
     r_clusterInfo r = Some ci →
     clusterTag ci ≠ "" →
     outcomeOf (DescribeSingleVPCEndpointById (recordedId resource) w) = Ok byId →
     noEndpoints byId = true →
     EC2API_DescribeVpcEndpoints (byDefaultTags (clusterTag ci) nameTag) w = inl err →
     findOrCreateVpcEndpoint nameTag r resource w
     = (Err err, w,
        callsOf (DescribeSingleVPCEndpointById (recordedId resource) w)
        ++ [CallDescribeVpcEndpoints (byDefaultTags (clusterTag ci) nameTag)])).
Proof.
  split.
  - intros Hid Hdesc Hnot.
    rewrite findOrCreateVpcEndpoint_run. unfold locate.
    rewrite DescribeSingleVPCEndpointById_run by done. rewrite Hdesc.
    unfold outcomeOf, callsOf, singleResult. simpl.
    destruct err as [code message|s]; [|done].
    destruct (decide (code = "InvalidVpcEndpointId.NotFound")) as [->|]; [|done].
    by destruct (Hnot message).
  - intros ci byId Hci Htag Ho1 Hno Hdesc.
    rewrite findOrCreateVpcEndpoint_run. unfold locate.
    rewrite Ho1, Hno, Hci.
    rewrite FilterVPCEndpointByDefaultTags_run by done. by rewrite Hdesc.
Qed.

(** X8: the locator changes the cloud by creating an endpoint and in no
    other way: every request of its that changes the cloud is a creation
    request, and without one the cloud is left as it was. *)
Theorem findOrCreateVpcEndpoint_only_creates (nameTag : string)
    (r : VpcEndpointReconciler) (resource : avov1alpha1.VpcEndpoint) (w : W) :
  filter isMutating (callsOf (findOrCreateVpcEndpoint nameTag r resource w))
  = filter isCreate (callsOf (findOrCreateVpcEndpoint nameTag r resource w)) ∧
  (filter isCreate (callsOf (findOrCreateVpcEndpoint nameTag r resource w)) = [] →
   cloudOf (findOrCreateVpcEndpoint nameTag r resource w) = w).
Proof.
  rewrite findOrCreateVpcEndpoint_run. unfold locate.
  destruct (DescribeSingleVPCEndpointById_no_create (recordedId resource) w)
    as (Hc1 & _ & Hm1).
  destruct (DescribeSingleVPCEndpointById (recordedId resource) w) as [[o1 w1] l1].
  unfold outcomeOf, callsOf, cloudOf in *. simpl in *.
  destruct o1 as [byId|e|]; simpl; rewrite ?Hc1, ?Hm1; [|done|done].
  destruct (noEndpoints byId); simpl; rewrite ?Hc1, ?Hm1; [|done].
  destruct (r_clusterInfo r) as [ci|]; simpl; rewrite ?Hc1, ?Hm1; [|done].
  destruct (FilterVPCEndpointByDefaultTags_reads (clusterTag ci) nameTag w) as [_ Hc2].
  pose proof (FilterVPCEndpointByDefaultTags_no_mutation (clusterTag ci) nameTag w) as Hm2.
  destruct (FilterVPCEndpointByDefaultTags (clusterTag ci) nameTag w) as [[o2 w2] l2].
  unfold outcomeOf, callsOf, cloudOf in *. simpl in *.
  destruct o2 as [byTag|e|]; simpl; rewrite ?filter_app, ?Hc1, ?Hm1, ?Hc2, ?Hm2;
    [|done|done].
  destruct (noEndpoints byTag); simpl; rewrite ?filter_app, ?Hc1, ?Hm1, ?Hc2, ?Hm2;
    [|done].
  destruct (GenerateVPCEndpointName _ _) as [err|name]; simpl;
    rewrite ?filter_app, ?Hc1, ?Hm1, ?Hc2, ?Hm2; [done|].
  destruct (GenerateAwsTags _ _) as [err|tags]; simpl;
    rewrite ?filter_app, ?Hc1, ?Hm1, ?Hc2, ?Hm2; [done|].
  split; [done|]. simpl. discriminate.
Qed.

(** X9: when nothing is found and the endpoint has to be created, a failure
    to generate the name is returned as it is, while a failure to generate
    the tags and a failure of the creation request are both returned under
    the prefix [failed to create vpc endpoint: ]; the tag failure without
    any creation request. *)
Theorem findOrCreateVpcEndpoint_creation_errors (nameTag : string)
    (r : VpcEndpointReconciler) (resource : avov1alpha1.VpcEndpoint) (w : W)
    (ci : clusterInfo) (byId byTag : option ec2.DescribeVpcEndpointsOutput) :
  r_clusterInfo r = Some ci →
  outcomeOf (DescribeSingleVPCEndpointById (recordedId resource) w) = Ok byId →
  noEndpoints byId = true →
  outcomeOf (FilterVPCEndpointByDefaultTags (clusterTag ci) nameTag w) = Ok byTag →
  noEndpoints byTag = true →
  (∀ err,
     GenerateVPCEndpointName (infraName ci) (avov1alpha1.Name resource) = inl err →
     outcomeOf (findOrCreateVpcEndpoint nameTag r resource w) = Err err ∧
     filter isCreate (callsOf (findOrCreateVpcEndpoint nameTag r resource w)) = []) ∧
  (∀ name err,
     GenerateVPCEndpointName (infraName ci) (avov1alpha1.Name resource) = inr name →
     GenerateAwsTags name (clusterTag ci) = inl err →
     outcomeOf (findOrCreateVpcEndpoint nameTag r resource w)
     = Err (errorString ("failed to create vpc endpoint: " +:+ Error err)) ∧
     filter isCreate (callsOf (findOrCreateVpcEndpoint nameTag r resource w)) = []) ∧
  (∀ name tags err w',
     GenerateVPCEndpointName (infraName ci) (avov1alpha1.Name resource) = inr name →
     GenerateAwsTags name (clusterTag ci) = inr tags →
     EC2API_CreateVpcEndpoint (creationInput ci resource tags) w = (inl err, w') →
     outcomeOf (findOrCreateVpcEndpoint nameTag r resource w)
     = Err (errorString ("failed to create vpc endpoint: " +:+ Error err))).
Proof.
  intros Hci Ho1 Hno1 Ho2 Hno2.
  rewrite !findOrCreateVpcEndpoint_creations.
  rewrite findOrCreateVpcEndpoint_run. unfold locate, creations.
  rewrite Ho1, Hno1, Hci, Ho2, Hno2. simpl.
  split; [|split].
  - by intros err ->.
  - by intros name err -> ->.
  - intros name tags err w' -> -> Hcreate. unfold outcomeOf. simpl.
    by rewrite Hcreate.
Qed.

(** X10: [r.clusterInfo] is read only when the lookup by identifier has
    returned nothing: with a nil [r.clusterInfo] the locator still returns
    the endpoint that the lookup has found, and it panics, after the lookup
    and without a further request, when the lookup has found none. *)
Theorem findOrCreateVpcEndpoint_nil_clusterInfo (nameTag : string)
    (r : VpcEndpointReconciler) (resource : avov1alpha1.VpcEndpoint) (w : W)
    (byId : option ec2.DescribeVpcEndpointsOutput) :
  r_clusterInfo r = None →
  outcomeOf (DescribeSingleVPCEndpointById (recordedId resource) w) = Ok byId →
  findOrCreateVpcEndpoint nameTag r resource w
  = (if noEndpoints byId then Panic else firstOf byId, w,
     callsOf (DescribeSingleVPCEndpointById (recordedId resource) w)) ∧
  (noEndpoints byId = false →
   ∃ vpce, outcomeOf (findOrCreateVpcEndpoint nameTag r resource w) = Ok vpce).
Proof.
  intros Hci Ho1. rewrite findOrCreateVpcEndpoint_run. unfold locate.
  rewrite Ho1, Hci. split; [by destruct (noEndpoints byId)|].
  intros Hno. rewrite Hno. by apply firstOf_found.
Qed.

(** The subnet synchronizer when the diff cannot be computed. *)
Lemma ensureVpcEndpointSubnets_diff_fails r vpce (w : W) e w' l :
  diffVpcEndpointSubnets r vpce w = (Err e, w', l) →
  ensureVpcEndpointSubnets r vpce w = (Err e, w', l).
Proof.
  intros Hdiff. unfold ensureVpcEndpointSubnets.
  unfold mbind at 1, M_bind at 1, bind. by rewrite Hdiff.
Qed.

(** X11: without cluster information, or with an empty cluster tag, the
    subnet diff and the subnet synchronizer fail before any request: no
    call is issued and the cloud is left as it was. *)
Theorem ensureVpcEndpointSubnets_no_cluster_tag (r : VpcEndpointReconciler)
    (vpce : ec2.VpcEndpoint) (w : W) :
  (r_clusterInfo r = None ∨ ∃ ci, r_clusterInfo r = Some ci ∧ clusterTag ci = "") →
  diffVpcEndpointSubnets r vpce w
  = (Err (errorString ("unable to parse cluster tag: "
                       +:+ showClusterInfo (r_clusterInfo r))), w, []) ∧
  ensureVpcEndpointSubnets r vpce w
  = (Err (errorString ("unable to parse cluster tag: "
                       +:+ showClusterInfo (r_clusterInfo r))), w, []).
Proof.
  intros Hr.
  assert (Hdiff : diffVpcEndpointSubnets r vpce w
    = (Err (errorString ("unable to parse cluster tag: "
                         +:+ showClusterInfo (r_clusterInfo r))), w, [])).
  { unfold diffVpcEndpointSubnets.
    destruct Hr as [-> | (ci & -> & Htag)]; [done|].
    destruct (decide (clusterTag ci = "")); done. }
  split; [done|]. by apply ensureVpcEndpointSubnets_diff_fails.
Qed.

(** X12: the requests of the subnet synchronizer: at most the one read of
    the private subnets and then at most two modify requests, each for the
    endpoint it was given, each naming subnets to remove only or subnets to
    add only, at least one of them, and never a security group. *)
Theorem ensureVpcEndpointSubnets_requests (r : VpcEndpointReconciler)
    (vpce : ec2.VpcEndpoint) (w : W) :
  Forall (λ c,
            (∃ tag, c = CallDescribePrivateSubnets tag) ∨
            ∃ ids, ids ≠ [] ∧
                   (c = CallModifyVpcEndpoint (removeSubnets ids vpce) ∨
                    c = CallModifyVpcEndpoint (addSubnets ids vpce)))
         (callsOf (ensureVpcEndpointSubnets r vpce w)) ∧
  (length (filter isMutating (callsOf (ensureVpcEndpointSubnets r vpce w))) ≤ 2)%nat.
Proof.
  assert (Hne : ∀ l : list string, (0 < length l)%nat → l ≠ [])
    by (intros [|? ?] ?; simpl in *; [lia | done]).
  destruct (r_clusterInfo r) as [ci|] eqn:Hci.
  2:{ rewrite (ensureVpcEndpointSubnets_diff_fails r vpce w
                 (errorString ("unable to parse cluster tag: " +:+ showClusterInfo None))
                 w []).
      - split; [constructor | simpl; lia].
      - unfold diffVpcEndpointSubnets. by rewrite Hci. }
  destruct (decide (clusterTag ci = "")) as [Htag|Htag].
  { rewrite (ensureVpcEndpointSubnets_diff_fails r vpce w
               (errorString ("unable to parse cluster tag: "
                             +:+ showClusterInfo (Some ci))) w []).
    - split; [constructor | simpl; lia].
    - unfold diffVpcEndpointSubnets. rewrite Hci.
      by destruct (decide (clusterTag ci = "")). }
  destruct (DescribePrivateSubnets (clusterTag ci) w) as [err|subnetsResp] eqn:Hsub.
  { rewrite (ensureVpcEndpointSubnets_diff_fails r vpce w err w
               [CallDescribePrivateSubnets (clusterTag ci)]).
    - split; [repeat constructor; eauto | simpl; lia].
    - rewrite (diffVpcEndpointSubnets_run r vpce w ci) by done. by rewrite Hsub. }
  rewrite (ensureVpcEndpointSubnets_run r vpce w ci subnetsResp) by done.
  destruct (decide (0 < length (subnetDiff vpce subnetsResp).2)%nat) as [HR|_];
    [destruct (EC2API_ModifyVpcEndpoint (removeSubnets _ vpce) w).1|];
    try destruct (decide (0 < length (subnetDiff vpce subnetsResp).1)%nat) as [HA|_];
    unfold callsOf; simpl;
    (split; [|lia]);
    repeat (apply Forall_cons; split); try apply Forall_nil;
    first [ exact I
          | left; by eexists
          | right; eexists; (split; [|by left]); by apply Hne
          | right; eexists; (split; [|by right]); by apply Hne ].
Qed.

(** X13: the requests of the security-group synchronizer: no read at all
    and at most two modify requests, each for the endpoint it was given,
    each naming security groups to add only or to remove only, at least one
    of them, and never a subnet. *)
Theorem ensureVpcEndpointSecurityGroups_requests (vpce : ec2.VpcEndpoint)
    (resource : avov1alpha1.VpcEndpoint) (w : W) :
  Forall (λ c,
            ∃ ids, ids ≠ [] ∧
                   (c = CallModifyVpcEndpoint (addSecurityGroups ids vpce) ∨
                    c = CallModifyVpcEndpoint (removeSecurityGroups ids vpce)))
         (callsOf (ensureVpcEndpointSecurityGroups vpce resource w)) ∧
  (length (callsOf (ensureVpcEndpointSecurityGroups vpce resource w)) ≤ 2)%nat.
Proof.
  assert (Hne : ∀ l : list string, (0 < length l)%nat → l ≠ [])
    by (intros [|? ?] ?; simpl in *; [lia | done]).
  rewrite ensureVpcEndpointSecurityGroups_run.
  destruct (decide (0 < length (securityGroupDiff vpce resource).1)%nat) as [HA|_];
    [destruct (EC2API_ModifyVpcEndpoint (addSecurityGroups _ vpce) w).1|];
    try destruct (decide (0 < length (securityGroupDiff vpce resource).2)%nat) as [HR|_];
    unfold callsOf; simpl;
    (split; [|lia]);
    repeat (apply Forall_cons; split); try apply Forall_nil;
    first [ exact I
          | eexists; (split; [|by left]); by apply Hne
          | eexists; (split; [|by right]); by apply Hne ].
Qed.

(** X14: [generateRoute53Record] only reads: it leaves the cloud as it was
    and issues no request that changes it; with an empty recorded
    identifier it fails before any request. *)
Theorem generateRoute53Record_read_only (resource : avov1alpha1.VpcEndpoint) (w : W) :
  cloudOf (generateRoute53Record resource w) = w ∧
  filter isMutating (callsOf (generateRoute53Record resource w)) = [] ∧
  (length (callsOf (generateRoute53Record resource w)) ≤ 1)%nat ∧
  (recordedId resource = "" →
   generateRoute53Record resource w
   = (Err (errorString "VPCEndpointID status is missing"), w, [])).
Proof.
  destruct (decide (recordedId resource = "")) as [Hid|Hid].
  - assert (Hrun : generateRoute53Record resource w
                   = (Err (errorString "VPCEndpointID status is missing"), w, [])).
    { unfold generateRoute53Record. unfold recordedId in Hid. by rewrite Hid. }
    rewrite Hrun. repeat split; simpl; lia.
  - rewrite generateRoute53Record_run by done. repeat split; simpl; try lia. done.
Qed.

End MoreClient.

(** ** The helpers on a cloud that keeps the laws *)

Section MoreLaws.
Context {W : Type} `{!VpcEndpointEC2API W, !PrivateSubnetsAPI W, !Util}.
Context `{!CloudLaws W}.

Hypothesis diff_spec :
  ∀ current desired,
    StringSliceTwoWayDiff current desired
    = util.StringSliceTwoWayDiff current desired.

(** X15: what the locator returns can be looked up: the endpoint carries a
    non-empty identifier, and the lookup by that identifier in the cloud the
    locator has left returns exactly that endpoint. *)
Theorem findOrCreateVpcEndpoint_then_lookup (nameTag : string)
    (r : VpcEndpointReconciler) (resource : avov1alpha1.VpcEndpoint) (w w1 : W)
    (vpce : ec2.VpcEndpoint) (calls : list Call) :
  findOrCreateVpcEndpoint nameTag r resource w = (Ok vpce, w1, calls) →
  ∃ id,
    ec2.VpcEndpointId vpce = Some id ∧
    id ≠ "" ∧
    DescribeSingleVPCEndpointById id w1
    = (Ok (Some {| ec2.VpcEndpoints := [vpce] |}), w1,
       [CallDescribeVpcEndpoints (byId id)]).
Proof.
  intros Hloc.
  destruct (located_sound _ _ _ _ _ _ _ Hloc) as (id & Hid & Hne & Hat).
  exists id. split; [done|]. split; [done|].
  rewrite DescribeSingleVPCEndpointById_run by done.
  pose proof (describe_by_id _ _ _ Hat) as Hdesc.
  fold (byId id) in Hdesc. by rewrite Hdesc.
Qed.

Lemma ensureVpcEndpointSubnets_in_sync r vpce (w : W) ci subnetsResp :
  r_clusterInfo r = Some ci →
  clusterTag ci ≠ "" →
  DescribePrivateSubnets (clusterTag ci) w = inr subnetsResp →
  idSet (ec2.SubnetIds vpce) = idSet (map ec2.SubnetId (ec2.Subnets subnetsResp)) →
  ensureVpcEndpointSubnets r vpce w
  = (Ok (), w, [CallDescribePrivateSubnets (clusterTag ci)]).
Proof.
  intros Hci Htag Hsub Hs.
  rewrite (ensureVpcEndpointSubnets_run r vpce w ci subnetsResp) by done.
  unfold subnetDiff. by rewrite (diff_of_equal_sets diff_spec _ _ Hs).
Qed.

Lemma ensureVpcEndpointSecurityGroups_in_sync vpce resource (w : W) :
  idSet (map ec2.GroupId (ec2.Groups vpce))
  = idSet [avov1alpha1.SecurityGroupId (avov1alpha1.Status resource)] →
  ensureVpcEndpointSecurityGroups vpce resource w = (Ok (), w, []).
Proof.
  intros Hg. rewrite ensureVpcEndpointSecurityGroups_run.
  unfold securityGroupDiff. by rewrite (diff_of_equal_sets diff_spec _ _ Hg).
Qed.

(** X16: when the subnet synchronizer succeeds on an endpoint that the
    cloud holds, the cloud then holds that endpoint attached to exactly the
    cluster's private subnets, its security groups being what they were;
    run again on the endpoint as the cloud now holds it, the synchronizer
    reads the private subnets and requests no change. *)
Theorem ensureVpcEndpointSubnets_converges (r : VpcEndpointReconciler)
    (vpce : ec2.VpcEndpoint) (w w' : W) (calls : list Call) (id : string) :
  ensureVpcEndpointSubnets r vpce w = (Ok (), w', calls) →
  ec2.VpcEndpointId vpce = Some id →
  endpointAt w id = Some vpce →
  ∃ ci subnetsResp vpce',
    r_clusterInfo r = Some ci ∧
    DescribePrivateSubnets (clusterTag ci) w' = inr subnetsResp ∧
    endpointAt w' id = Some vpce' ∧
    idSet (ec2.SubnetIds vpce') = idSet (map ec2.SubnetId (ec2.Subnets subnetsResp)) ∧
    idSet (map ec2.GroupId (ec2.Groups vpce'))
    = idSet (map ec2.GroupId (ec2.Groups vpce)) ∧
    ensureVpcEndpointSubnets r vpce' w'
    = (Ok (), w', [CallDescribePrivateSubnets (clusterTag ci)]).
Proof.
  intros Hrun Hid Hat.
  destruct (subnets_synced diff_spec _ _ _ _ _ _ _ Hrun Hid Hat)
    as (ci & subnetsResp & vpce' & Hci & Htag & Hsub & Hat' & Hs & Hg).
  exists ci, subnetsResp, vpce'. repeat split; try done.
  by apply (ensureVpcEndpointSubnets_in_sync r vpce' w' ci subnetsResp).
Qed.

(** X17: when the security-group synchronizer succeeds on an endpoint that
    the cloud holds, the cloud then holds that endpoint attached to the
    security group of the resource's status and to no other, its subnets
    being what they were; run again on the endpoint as the cloud now holds
    it, the synchronizer issues no request. *)
Theorem ensureVpcEndpointSecurityGroups_converges (vpce : ec2.VpcEndpoint)
    (resource : avov1alpha1.VpcEndpoint) (w w' : W) (calls : list Call)
    (id : string) :
  ensureVpcEndpointSecurityGroups vpce resource w = (Ok (), w', calls) →
  ec2.VpcEndpointId vpce = Some id →
  endpointAt w id = Some vpce →
  ∃ vpce',
    endpointAt w' id = Some vpce' ∧
    idSet (map ec2.GroupId (ec2.Groups vpce'))
    = {[ avov1alpha1.SecurityGroupId (avov1alpha1.Status resource) ]} ∧
    idSet (ec2.SubnetIds vpce') = idSet (ec2.SubnetIds vpce) ∧
    ensureVpcEndpointSecurityGroups vpce' resource w' = (Ok (), w', []).
Proof.
  intros Hrun Hid Hat.
  destruct (groups_synced diff_spec _ _ _ _ _ _ _ vpce Hrun Hid Hat eq_refl)
    as (_ & vpce' & Hat' & Hs & Hg).
  exists vpce'. split; [done|]. split.
  - rewrite Hg. unfold idSet. simpl. apply set_eq. intros x.
    rewrite elem_of_union, elem_of_singleton, elem_of_empty. tauto.
  - split; [done|]. by apply ensureVpcEndpointSecurityGroups_in_sync.
Qed.

End MoreLaws.

(** ** [generateExternalNameService] *)

Section MoreExternalName.
Variable SetControllerReference :
  avov1alpha1.VpcEndpoint → corev1.Service → error + list metav1.OwnerReference.

(** X18: a service that [generateExternalNameService] returns is of type
    [ExternalName], carries the name and the namespace that the resource
    asks for and the owner references that [SetControllerReference] has
    answered for the service without owners, and its external name is
    [<subdomain>.<domain>], both parts being non-empty. *)
Theorem generateExternalNameService_success (r : VpcEndpointReconciler)
    (resource : option ServiceResource) (svc : corev1.Service) :
  generateExternalNameService SetControllerReference r resource = Ok svc →
  ∃ res ci,
    resource = Some res ∧
    r_clusterInfo r = Some ci ∧
    avov1alpha1.SubdomainName (avov1alpha1.Spec (sr_resource res)) ≠ "" ∧
    domainName ci ≠ "" ∧
    corev1.ExternalName svc
    = avov1alpha1.SubdomainName (avov1alpha1.Spec (sr_resource res))
      +:+ "." +:+ domainName ci ∧
    corev1.ServiceType svc = "ExternalName" ∧
    corev1.Name svc = sr_serviceName res ∧
    corev1.Namespace svc = sr_serviceNamespace res ∧
    SetControllerReference (sr_resource res)
      {| corev1.Name := corev1.Name svc;
         corev1.Namespace := corev1.Namespace svc;
         corev1.OwnerReferences := [];
         corev1.ServiceType := corev1.ServiceType svc;
         corev1.ExternalName := corev1.ExternalName svc |}
    = inr (corev1.OwnerReferences svc).
Proof.
  unfold generateExternalNameService.
  destruct resource as [res|]; [|done].
  destruct (decide (avov1alpha1.SubdomainName _ = "")) as [|Hsub]; [done|].
  destruct (r_clusterInfo r) as [ci|]; [|done].
  destruct (decide (domainName ci = "")) as [|Hdom]; [done|].
  destruct (SetControllerReference _ _) as [err|owners] eqn:Hset; [done|].
  intros [= <-]. exists res, ci. simpl. repeat split; done.
Qed.

(** X19: the checks of [generateExternalNameService] come in a fixed
    order: a nil resource is reported whatever the reconciler holds; an
    empty subdomain is reported before the cluster information is read, so
    even when that is nil; with a subdomain and nil cluster information the
    function panics; an empty domain is reported before
    [SetControllerReference] is consulted. *)
Theorem generateExternalNameService_checks (r : VpcEndpointReconciler)
    (res : ServiceResource) :
  generateExternalNameService SetControllerReference r None
  = Err (errorString "resource must be specified") ∧
  (avov1alpha1.SubdomainName (avov1alpha1.Spec (sr_resource res)) = "" →
   generateExternalNameService SetControllerReference r (Some res)
   = Err (errorString "subdomainName is a required field")) ∧
  (avov1alpha1.SubdomainName (avov1alpha1.Spec (sr_resource res)) ≠ "" →
   (r_clusterInfo r = None →
    generateExternalNameService SetControllerReference r (Some res) = Panic) ∧
   (∀ ci, r_clusterInfo r = Some ci → domainName ci = "" →
      generateExternalNameService SetControllerReference r (Some res)
      = Err (errorString "empty domainName"))).
Proof.
  split; [reflexivity|]. unfold generateExternalNameService. split.
  - intros ->. reflexivity.
  - intros Hsub.
    destruct (decide (avov1alpha1.SubdomainName _ = "")) as [|_]; [done|].
    split; [by intros ->|].
    intros ci -> ->. reflexivity.
Qed.

End MoreExternalName.

(** ** [tagsContains] *)

Section MoreTags.

Lemma findTag_well_formed (tags : list (option ec2v1.Tag)) (k v : string) :
  Forall wellFormedTag tags →
  findTag tags k v = Ok (bool_decide (tagOf k v ∈ tags)).
Proof.
  induction 1 as [|tag tags (k' & v' & ->) _ IH].
  - simpl. f_equal.
  - simpl findTag.
    assert (Hrest : k' ≠ k ∨ v' ≠ v →
              bool_decide (tagOf k v ∈ tagOf k' v' :: tags)
              = bool_decide (tagOf k v ∈ tags)).
    { intros Hne. apply bool_decide_ext. rewrite elem_of_cons. unfold tagOf.
      split; [|by right]. intros [Heq|?]; [|done].
      injection Heq as -> ->. by destruct Hne. }
    destruct (decide (k' = k)) as [->|Hk].
    + destruct (decide (v' = v)) as [->|Hv].
      * rewrite bool_decide_eq_true_2; [done | by left].
      * rewrite IH, Hrest; [done | by right].
    + rewrite IH, Hrest; [done | by left].
Qed.

Lemma checkTags_well_formed (tags : list (option ec2v1.Tag))
    (entries : list (string * string)) :
  Forall wellFormedTag tags →
  checkTags tags entries
  = Ok (bool_decide (Forall (λ kv, tagOf kv.1 kv.2 ∈ tags) entries)).
Proof.
  intros Hwf. induction entries as [|[k v] entries IH]; simpl.
  - f_equal.
  - rewrite (findTag_well_formed tags k v Hwf).
    destruct (decide (tagOf k v ∈ tags)) as [Hin|Hin].
    + rewrite (bool_decide_eq_true_2 _ Hin), IH. f_equal.
      apply bool_decide_ext. rewrite Forall_cons. simpl. tauto.
    + rewrite (bool_decide_eq_false_2 _ Hin). f_equal. symmetry.
      apply bool_decide_eq_false. rewrite Forall_cons. simpl. tauto.
Qed.

(** X20: on tags without a nil pointer [tagsContains] returns, without a
    panic and whatever the order in which [range] visits the map, whether
    every entry of [tagsToCheck] is the key and the value of one of the
    tags. *)
Theorem tagsContains_all_entries
    (rangeMap : gmap string string → list (string * string))
    (tags : list (option ec2v1.Tag)) (tagsToCheck : gmap string string) :
  validRangeOf rangeMap →
  Forall wellFormedTag tags →
  ∃ b, tagsContains rangeMap tags tagsToCheck = Ok b ∧
       (b = true ↔ ∀ k v, tagsToCheck !! k = Some v → tagOf k v ∈ tags).
Proof.
  intros Hrange Hwf. unfold tagsContains.
  rewrite (checkTags_well_formed _ _ Hwf). eexists. split; [reflexivity|].
  rewrite bool_decide_eq_true, Forall_forall. split.
  - intros Hall k v Hkv. apply (Hall (k, v)).
    rewrite (Hrange tagsToCheck). by apply elem_of_map_to_list.
  - intros Hall [k v] Hin. simpl. apply Hall.
    rewrite (Hrange tagsToCheck) in Hin. by apply elem_of_map_to_list in Hin.
Qed.

(** X21: with nothing to check [tagsContains] returns true whatever the
    tags are, a nil tag or a tag with a nil field included: no tag is read. *)
Theorem tagsContains_nothing_to_check
    (rangeMap : gmap string string → list (string * string))
    (tags : list (option ec2v1.Tag)) :
  validRangeOf rangeMap →
  tagsContains rangeMap tags ∅ = Ok true.
Proof.
  intros Hrange. unfold tagsContains.
  pose proof (Hrange ∅) as Hperm. rewrite map_to_list_empty in Hperm.
  apply Permutation_nil_r in Hperm. by rewrite Hperm.
Qed.

End MoreTags.

(** ** [parseClusterInfo] *)

Section MoreParse.

(** X22: [parseClusterInfo] succeeds exactly when every step does, and
    then the reconciler holds what the steps have answered: the cluster tag
    is the key obtained from the infrastructure name, and the VPC is the one
    looked up with that tag.  A new session is asked for only when
    [refreshAWSSession] is set. *)
Theorem parseClusterInfo_success (src : ClusterSources) (refresh : bool)
    (r r' : VpcEndpointReconciler) :
  parseClusterInfo src refresh r = (None, r') ↔
  ∃ reg infra tag vpc dom,
    GetAWSRegion src = inr reg ∧
    (refresh = true → NewSession src reg = inr ()) ∧
    GetInfrastructureName src = inr infra ∧
    GetClusterTagKey src infra = inr tag ∧
    GetVPCId src tag = inr vpc ∧
    GetPrivateHostedZoneDomainName src = inr dom ∧
    r' = {| r_clusterInfo :=
              Some {| region := reg; infraName := infra; clusterTag := tag;
                      vpcId := vpc; domainName := dom |} |}.
Proof.
  unfold parseClusterInfo. split.
  - destruct (GetAWSRegion src) as [e|reg]; [done|].
    destruct refresh.
    + destruct (NewSession src reg) as [e|[]] eqn:Hsess; [done|].
      destruct (GetInfrastructureName src) as [e|infra]; [done|].
      destruct (GetClusterTagKey src infra) as [e|tag] eqn:Htag; [done|].
      destruct (GetVPCId src tag) as [e|vpc] eqn:Hvpc; [done|].
      destruct (GetPrivateHostedZoneDomainName src) as [e|dom]; [done|].
      intros [= <-]. exists reg, infra, tag, vpc, dom. repeat split; done.
    + destruct (GetInfrastructureName src) as [e|infra]; [done|].
      destruct (GetClusterTagKey src infra) as [e|tag] eqn:Htag; [done|].
      destruct (GetVPCId src tag) as [e|vpc] eqn:Hvpc; [done|].
      destruct (GetPrivateHostedZoneDomainName src) as [e|dom]; [done|].
      intros [= <-]. exists reg, infra, tag, vpc, dom. repeat split; done.
  - intros (reg & infra & tag & vpc & dom & -> & Hsess & -> & -> & -> & -> & ->).
    destruct refresh; [rewrite Hsess by done|]; reflexivity.
Qed.

(** X23: after a [parseClusterInfo] that has failed the reconciler holds
    cluster information, not nil, without a domain name; on it
    [generateExternalNameService] returns an error for every resource: no
    service, and no panic. *)
Theorem parseClusterInfo_failure_no_service (src : ClusterSources) (refresh : bool)
    (r r' : VpcEndpointReconciler) (err : error)
    (SetControllerReference :
       avov1alpha1.VpcEndpoint → corev1.Service → error + list metav1.OwnerReference)
    (resource : option ServiceResource) :
  parseClusterInfo src refresh r = (Some err, r') →
  (∃ ci, r_clusterInfo r' = Some ci ∧ domainName ci = "") ∧
  ∃ e, generateExternalNameService SetControllerReference r' resource = Err e.
Proof.
  intros Hparse.
  assert (Hci : ∃ ci, r_clusterInfo r' = Some ci ∧ domainName ci = "").
  { unfold parseClusterInfo in Hparse.
    destruct (GetAWSRegion src) as [e|reg];
      [injection Hparse as _ <-; by eexists|].
    destruct (if refresh then NewSession src reg else inr ()) as [e|[]];
      [injection Hparse as _ <-; by eexists|].
    destruct (GetInfrastructureName src) as [e|infra];
      [injection Hparse as _ <-; by eexists|].
    destruct (GetClusterTagKey src infra) as [e|tag];
      [injection Hparse as _ <-; by eexists|].
    destruct (GetVPCId src tag) as [e|vpc];
      [injection Hparse as _ <-; by eexists|].
    destruct (GetPrivateHostedZoneDomainName src) as [e|dom];
      [injection Hparse as _ <-; by eexists | done]. }
  split; [done|]. destruct Hci as (ci & Hci & Hdom).
  unfold generateExternalNameService.
  destruct resource as [res|]; [|by eexists].
  destruct (decide (avov1alpha1.SubdomainName _ = "")); [by eexists|].
  rewrite Hci. destruct (decide (domainName ci = "")); [by eexists | done].
Qed.

End MoreParse.

(** ** The further properties at work *)

Section MoreWitnesses.
Import fake samples placement.

(** X1, witness: the example with a stray endpoint; [v2] is returned. *)
Lemma SelectVPCForVPCEndpoint_result_counted_witness :
  "v2" ≠ "" ∧ ("v2" ∈ ["v1"; "v2"] ∨ Some "v2" ∈ vpcIds strayPages).
Proof.
  apply (SelectVPCForVPCEndpoint_result_counted map_to_list strayPages ["v1"; "v2"] "v2").
  - intros m. reflexivity.
  - vm_compute. reflexivity.
Defined.

(** X2, witness: without a candidate the pages of the example, which hold
    no error, give the failure; with candidates the second page fails. *)
Lemma SelectVPCForVPCEndpoint_errors_witness :
  SelectVPCForVPCEndpoint map_to_list examplePages []
  = Err (errorString "must specify vpc id when counting VPC Endpoints per VPC") ∧
  SelectVPCForVPCEndpoint map_to_list
    ([pageOf ["v1"]] ++ inl throttle :: [pageOf ["v2"]]) ["v1"; "v2"]
  = Err throttle.
Proof.
  apply (SelectVPCForVPCEndpoint_errors map_to_list examplePages
           [pageOf ["v1"]] [pageOf ["v2"]] throttle ["v1"; "v2"] ["v1"]).
  - discriminate.
  - split; [|reflexivity]. apply Forall_cons_2; [by eexists | apply Forall_nil_2].
Defined.

(** X3, witness: [v9] is listed without being a candidate, and the
    candidate [v2] has no endpoint. *)
Lemma SelectVPCForVPCEndpoint_fewest_counted_witness :
  ∃ v, SelectVPCForVPCEndpoint map_to_list strayPages ["v1"; "v2"] = Ok v ∧
       (v ∈ ["v1"; "v2"] ∨ v ∈ ["v9"; "v1"]) ∧
       (∀ k, k ∈ ["v1"; "v2"] ∨ k ∈ ["v9"; "v1"] →
             endpointsIn strayPages v ≤ endpointsIn strayPages k) ∧
       (v ∉ ["v1"; "v2"] → ∀ id, id ∈ ["v1"; "v2"] → 1 ≤ endpointsIn strayPages id).
Proof.
  apply (SelectVPCForVPCEndpoint_fewest_counted map_to_list strayPages
           ["v1"; "v2"] ["v9"; "v1"]).
  - intros m. reflexivity.
  - discriminate.
  - apply (bool_decide_unpack _). vm_compute. exact I.
  - apply (bool_decide_unpack _). vm_compute. exact I.
  - split; [|reflexivity]. apply Forall_cons_2; [by eexists | apply Forall_nil_2].
  - vm_compute. reflexivity.
Defined.

(** X4, witness: two of the three VPCs carry the tag. *)
Lemma FilterVpcIdsByTags_success_witness :
  FilterVpcIdsByTags showTags clusterTags vpcs
  = (Ok ["vpc-1"; "vpc-3"], [ {| ec2vpcs.Filters := map tagFilter clusterTags |} ]) ∧
  ["vpc-1"; "vpc-3"] ≠ [].
Proof.
  split; [vm_compute; reflexivity|].
  apply (FilterVpcIdsByTags_success showTags clusterTags vpcs ["vpc-1"; "vpc-3"]
           [ {| ec2vpcs.Filters := map tagFilter clusterTags |} ]).
  vm_compute. reflexivity.
Defined.

(** X5, witness: no VPC carries the tag [cluster = none]. *)
Lemma FilterVpcIdsByTags_failures_witness :
  FilterVpcIdsByTags showTags [] vpcs
  = (Err (errorString "must specify tags when filtering VPCs by tags"), []) ∧
  (FilterVpcIdsByTags showTags
     [ {| avov1alpha2.Key := "cluster"; avov1alpha2.Value := "none" |} ] vpcs).1
  = Err (errorString "no VPCs found when filtering by tags: [{cluster none}]").
Proof.
  destruct (FilterVpcIdsByTags_failures showTags
              [ {| avov1alpha2.Key := "cluster"; avov1alpha2.Value := "none" |} ] vpcs)
    as (Hnone & _ & Hzero); [discriminate|].
  split; [exact Hnone|].
  rewrite Hzero; [reflexivity|].
  vm_compute. reflexivity.
Defined.

(** X6, witness: a throttled lookup, and a lookup of an identifier that no
    endpoint has. *)
Lemma DescribeSingleVPCEndpointById_errors_witness :
  outcomeOf (@DescribeSingleVPCEndpointById cloud throttledApi "vpce-a" cloudA)
  = Err throttle ∧
  outcomeOf (DescribeSingleVPCEndpointById "vpce-gone" cloudA) = Ok None.
Proof.
  split.
  - destruct (@DescribeSingleVPCEndpointById_errors cloud throttledApi
                "vpce-a" cloudA throttle) as [_ Hother].
    + discriminate.
    + reflexivity.
    + apply Hother. discriminate.
  - destruct (DescribeSingleVPCEndpointById_errors "vpce-gone" cloudA
                (APIError "InvalidVpcEndpointId.NotFound"
                   "The VpcEndpoint does not exist")) as [Hrun _].
    + discriminate.
    + vm_compute. reflexivity.
    + rewrite Hrun. reflexivity.
Defined.

(** X7, witness: the lookup by identifier is throttled. *)
Lemma findOrCreateVpcEndpoint_cloud_errors_witness :
  @findOrCreateVpcEndpoint cloud throttledApi helpers "infra-ep"
    (reconciler clusterTagA) (resource "vpce-a" "sg-1") cloudA
  = (Err throttle, cloudA, [CallDescribeVpcEndpoints (byId "vpce-a")]).
Proof.
  destruct (@findOrCreateVpcEndpoint_cloud_errors cloud throttledApi helpers
              "infra-ep" (reconciler clusterTagA) (resource "vpce-a" "sg-1")
              cloudA throttle) as [Hid _].
  apply Hid; [discriminate | reflexivity | discriminate].
Defined.

(** X8, witness: [vpce-a] is found by its identifier and the cloud is left
    as it was. *)
Lemma findOrCreateVpcEndpoint_only_creates_witness :
  cloudOf (findOrCreateVpcEndpoint "infra-ep" (reconciler clusterTagA)
             (resource "vpce-a" "sg-1") cloudA)
  = cloudA.
Proof.
  destruct (findOrCreateVpcEndpoint_only_creates "infra-ep" (reconciler clusterTagA)
              (resource "vpce-a" "sg-1") cloudA) as [_ Hsame].
  apply Hsame. vm_compute. reflexivity.
Defined.

(** X9, witness: nothing is found and the creation request is throttled. *)
Lemma findOrCreateVpcEndpoint_creation_errors_witness :
  outcomeOf (@findOrCreateVpcEndpoint cloud throttledApi helpers "infra-ep"
               (reconciler "") (resource "" "sg-1") cloudA)
  = Err (errorString ("failed to create vpc endpoint: " +:+ Error throttle)).
Proof.
  destruct (@findOrCreateVpcEndpoint_creation_errors cloud throttledApi helpers
              "infra-ep" (reconciler "") (resource "" "sg-1") cloudA (info "")
              (Some {| ec2.VpcEndpoints := [] |}) (Some {| ec2.VpcEndpoints := [] |})
              eq_refl eq_refl eq_refl eq_refl eq_refl) as (_ & _ & Hcreate).
  apply (Hcreate "infra-ep"
           [ {| ec2.Key := "Name"; ec2.Value := "infra-ep" |};
             {| ec2.Key := ""; ec2.Value := "owned" |};
             {| ec2.Key := "operator"; ec2.Value := "avo" |} ] throttle cloudA);
    reflexivity.
Defined.

(** X10, witness: a reconciler without cluster information. *)
Lemma findOrCreateVpcEndpoint_nil_clusterInfo_witness :
  outcomeOf (findOrCreateVpcEndpoint "infra-ep" noReconciler (resource "" "sg-1") cloudA)
  = Panic ∧
  outcomeOf (findOrCreateVpcEndpoint "infra-ep" noReconciler
               (resource "vpce-a" "sg-1") cloudA)
  = Ok vpceA.
Proof.
  split.
  - destruct (findOrCreateVpcEndpoint_nil_clusterInfo "infra-ep" noReconciler
                (resource "" "sg-1") cloudA (Some {| ec2.VpcEndpoints := [] |})
                eq_refl eq_refl) as [Hrun _].
    rewrite Hrun. reflexivity.
  - destruct (findOrCreateVpcEndpoint_nil_clusterInfo "infra-ep" noReconciler
                (resource "vpce-a" "sg-1") cloudA
                (Some {| ec2.VpcEndpoints := [vpceA] |}) eq_refl) as [Hrun _].
    + vm_compute. reflexivity.
    + rewrite Hrun. reflexivity.
Defined.

(** X11, witness: an empty cluster tag, and no cluster information. *)
Lemma ensureVpcEndpointSubnets_no_cluster_tag_witness :
  callsOf (ensureVpcEndpointSubnets (reconciler "") vpceA cloudA) = [] ∧
  ensureVpcEndpointSubnets noReconciler vpceA cloudA
  = (Err (errorString "unable to parse cluster tag: <nil>"), cloudA, []).
Proof.
  split.
  - destruct (ensureVpcEndpointSubnets_no_cluster_tag (reconciler "") vpceA cloudA)
      as [_ Hrun].
    + right. exists (info ""). split; reflexivity.
    + rewrite Hrun. reflexivity.
  - destruct (ensureVpcEndpointSubnets_no_cluster_tag noReconciler vpceA cloudA)
      as [_ Hrun]; [by left | exact Hrun].
Defined.

(** X14, witness: no identifier is recorded. *)
Lemma generateRoute53Record_read_only_witness :
  generateRoute53Record (resource "" "sg-1") cloudA
  = (Err (errorString "VPCEndpointID status is missing"), cloudA, []).
Proof.
  destruct (generateRoute53Record_read_only (resource "" "sg-1") cloudA)
    as (_ & _ & _ & Hempty).
  apply Hempty. reflexivity.
Defined.

(** X15, witness: the endpoint created in [cloudNone] is found again. *)
Lemma findOrCreateVpcEndpoint_then_lookup_witness :
  ∃ id,
    ec2.VpcEndpointId
      (view "vpce-0"
         {| e_vpc := "vpc-1"; e_state := "pending"; e_subnets := [];
            e_groups := []; e_dns := []; e_tags := ownedTags |}) = Some id ∧
    id ≠ "" ∧
    DescribeSingleVPCEndpointById id
      (cloudOf (findOrCreateVpcEndpoint "infra-ep" (reconciler clusterTagA)
                  (resource "" "sg-1") cloudNone))
    = (Ok (Some {| ec2.VpcEndpoints :=
                     [view "vpce-0"
                        {| e_vpc := "vpc-1"; e_state := "pending"; e_subnets := [];
                           e_groups := []; e_dns := []; e_tags := ownedTags |}] |}),
       cloudOf (findOrCreateVpcEndpoint "infra-ep" (reconciler clusterTagA)
                  (resource "" "sg-1") cloudNone),
       [CallDescribeVpcEndpoints (byId id)]).
Proof.
  apply (findOrCreateVpcEndpoint_then_lookup "infra-ep" (reconciler clusterTagA)
           (resource "" "sg-1") cloudNone _ _
           (callsOf (findOrCreateVpcEndpoint "infra-ep" (reconciler clusterTagA)
                       (resource "" "sg-1") cloudNone))).
  vm_compute. reflexivity.
Defined.

(** X16, witness: [vpce-a] in [cloudA], whose subnets are [s1] and [s2]
    while the private subnets are [s2] and [s3]. *)
Lemma ensureVpcEndpointSubnets_converges_witness :
  ∃ ci subnetsResp vpce',
    r_clusterInfo (reconciler clusterTagA) = Some ci ∧
    DescribePrivateSubnets (clusterTag ci)
      (cloudOf (ensureVpcEndpointSubnets (reconciler clusterTagA) vpceA cloudA))
    = inr subnetsResp ∧
    endpointAt (cloudOf (ensureVpcEndpointSubnets (reconciler clusterTagA) vpceA cloudA))
      "vpce-a" = Some vpce' ∧
    idSet (ec2.SubnetIds vpce') = idSet (map ec2.SubnetId (ec2.Subnets subnetsResp)) ∧
    idSet (map ec2.GroupId (ec2.Groups vpce'))
    = idSet (map ec2.GroupId (ec2.Groups vpceA)) ∧
    ensureVpcEndpointSubnets (reconciler clusterTagA) vpce'
      (cloudOf (ensureVpcEndpointSubnets (reconciler clusterTagA) vpceA cloudA))
    = (Ok (),
       cloudOf (ensureVpcEndpointSubnets (reconciler clusterTagA) vpceA cloudA),
       [CallDescribePrivateSubnets (clusterTag ci)]).
Proof.
  apply (@ensureVpcEndpointSubnets_converges cloud api subnetsApi helpers fake_laws
           (λ _ _, eq_refl) (reconciler clusterTagA) vpceA cloudA _
           (callsOf (ensureVpcEndpointSubnets (reconciler clusterTagA) vpceA cloudA))
           "vpce-a").
  - vm_compute. reflexivity.
  - reflexivity.
  - vm_compute. reflexivity.
Defined.

(** X17, witness: [vpce-a] in [cloudA], attached to [sg-0] while [sg-1] is
    wanted. *)
Lemma ensureVpcEndpointSecurityGroups_converges_witness :
  ∃ vpce',
    endpointAt
      (cloudOf (ensureVpcEndpointSecurityGroups vpceA (resource "vpce-a" "sg-1") cloudA))
      "vpce-a" = Some vpce' ∧
    idSet (map ec2.GroupId (ec2.Groups vpce')) = {[ "sg-1" ]} ∧
    idSet (ec2.SubnetIds vpce') = idSet (ec2.SubnetIds vpceA) ∧
    ensureVpcEndpointSecurityGroups vpce' (resource "vpce-a" "sg-1")
      (cloudOf (ensureVpcEndpointSecurityGroups vpceA (resource "vpce-a" "sg-1") cloudA))
    = (Ok (),
       cloudOf (ensureVpcEndpointSecurityGroups vpceA (resource "vpce-a" "sg-1") cloudA),
       []).
Proof.
  apply (@ensureVpcEndpointSecurityGroups_converges cloud api subnetsApi helpers
           fake_laws (λ _ _, eq_refl) vpceA (resource "vpce-a" "sg-1") cloudA _
           (callsOf (ensureVpcEndpointSecurityGroups vpceA
                       (resource "vpce-a" "sg-1") cloudA))
           "vpce-a").
  - vm_compute. reflexivity.
  - reflexivity.
  - vm_compute. reflexivity.
Defined.

(** X18, witness: the service for the subdomain [api] of [example.com]. *)
Lemma generateExternalNameService_success_witness :
  ∃ res ci,
    Some (serviceResource "api") = Some res ∧
    r_clusterInfo (reconciler clusterTagA) = Some ci ∧
    avov1alpha1.SubdomainName (avov1alpha1.Spec (sr_resource res)) ≠ "" ∧
    domainName ci ≠ "" ∧
    "api.example.com"
    = avov1alpha1.SubdomainName (avov1alpha1.Spec (sr_resource res))
      +:+ "." +:+ domainName ci.
Proof.
  destruct (generateExternalNameService_success setOwner (reconciler clusterTagA)
              (Some (serviceResource "api"))
              {| corev1.Name := "svc"; corev1.Namespace := "ns";
                 corev1.OwnerReferences :=
                   [owner (sr_resource (serviceResource "api"))];
                 corev1.ServiceType := "ExternalName";
                 corev1.ExternalName := "api.example.com" |})
    as (res & ci & H1 & H2 & H3 & H4 & H5 & _).
  - vm_compute. reflexivity.
  - exists res, ci. repeat split; assumption.
Defined.

(** X19, witness: no subdomain, and no cluster information. *)
Lemma generateExternalNameService_checks_witness :
  generateExternalNameService setOwner noReconciler (Some (serviceResource ""))
  = Err (errorString "subdomainName is a required field") ∧
  generateExternalNameService setOwner noReconciler (Some (serviceResource "api"))
  = Panic.
Proof.
  split.
  - destruct (generateExternalNameService_checks setOwner noReconciler
                (serviceResource "")) as (_ & Hsub & _).
    apply Hsub. reflexivity.
  - destruct (generateExternalNameService_checks setOwner noReconciler
                (serviceResource "api")) as (_ & _ & Hrest).
    destruct Hrest as [Hnil _]; [discriminate|]. apply Hnil. reflexivity.
Defined.

(** X20, witness: both wanted tags are among the tags. *)
Lemma tagsContains_all_entries_witness :
  ∃ b, tagsContains map_to_list someTags wanted = Ok b ∧
       (b = true ↔ ∀ k v, wanted !! k = Some v → tagOf k v ∈ someTags).
Proof.
  apply (tagsContains_all_entries map_to_list someTags wanted).
  - intros m. reflexivity.
  - repeat (apply Forall_cons_2; [by eexists _, _|]). apply Forall_nil_2.
Defined.

(** X21, witness: a nil tag, and nothing to check. *)
Lemma tagsContains_nothing_to_check_witness :
  tagsContains map_to_list [None] ∅ = Ok true.
Proof.
  apply (tagsContains_nothing_to_check map_to_list [None]).
  intros m. reflexivity.
Defined.

(** X22, witness: every step answers. *)
Lemma parseClusterInfo_success_witness :
  parseClusterInfo sources true noReconciler
  = (None, {| r_clusterInfo := Some (info clusterTagA) |}).
Proof.
  apply (parseClusterInfo_success sources true noReconciler).
  exists "us-east-1", "infra", clusterTagA, "vpc-1", "example.com".
  repeat split; reflexivity.
Defined.

(** X23, witness: the VPC lookup fails. *)
Lemma parseClusterInfo_failure_no_service_witness :
  (∃ ci, r_clusterInfo (parseClusterInfo sourcesWithoutVpc true noReconciler).2 = Some ci
         ∧ domainName ci = "") ∧
  ∃ e, generateExternalNameService setOwner
         (parseClusterInfo sourcesWithoutVpc true noReconciler).2
         (Some (serviceResource "api")) = Err e.
Proof.
  apply (parseClusterInfo_failure_no_service sourcesWithoutVpc true noReconciler _
           (errorString "no VPC found") setOwner (Some (serviceResource "api"))).
  vm_compute. reflexivity.
Defined.

End MoreWitnesses.
